(** * A shallow embedding of the 3D multiplayer FPS simulation core

    The client ([GameEngine.ts]) and the authority's [hitPlayer] mutation
    are embedded as pure functions over explicit state.

    Numbers.  A JavaScript [number] is modelled as an exact rational ([Q]):
    decimal literals denote their decimal value and [+ - * /] are exact, so
    rounding, overflow and NaN are outside the model.  Wall-clock readings
    ([Date.now()]) are integral milliseconds and are modelled in [Z].
    [Math.sqrt], [Math.sin] and [Math.cos] have no rational counterpart; they
    are a parameter of the model (class [MathLib]) and every general theorem
    holds for each implementation of them.

    Containers.  A JavaScript [Map] iterates in insertion order; the engine's
    [bullets] and [players] maps are association lists with unique keys.
    The authority's tables are finite maps from document id to document. *)

From Stdlib Require Import QArith Qabs Qround Qpower ZArith Lia Lqa Bool List.
From stdpp Require Import gmap strings list fin_maps.
Import ListNotations.

Set Default Proof Using "Type".

(* ===================================================================== *)
(** ** JavaScript numbers and [Math] *)
(* ===================================================================== *)

Module JS.

Local Open Scope Q_scope.

(** [a < b], [a <= b], [a > b] on numbers, as booleans. *)
Definition lt (a b : Q) : bool := negb (Qle_bool b a).
Definition le (a b : Q) : bool := Qle_bool a b.
Definition gt (a b : Q) : bool := lt b a.

(** [Math.max(a, b)] and [Math.min(a, b)]. *)
Definition Math_max (a b : Q) : Q := if le a b then b else a.
Definition Math_min (a b : Q) : Q := if le a b then a else b.

(** [Math.abs(a)]. *)
Definition Math_abs (a : Q) : Q := if le 0 a then a else - a.

(** The irrational part of [Math]. *)
Class MathLib := {
  Math_sqrt : Q -> Q;
  Math_sin : Q -> Q;
  Math_cos : Q -> Q;
  Math_PI : Q
}.

End JS.

(* ===================================================================== *)
(** ** [THREE.Vector3], [THREE.MathUtils], [THREE.Clock]

    The three.js library is an external dependency; the operations the
    engine calls are written out here after the library's definitions. *)
(* ===================================================================== *)

Module THREE.

Import JS.
Local Open Scope Q_scope.

Record Vector3 := mkVector3 { x : Q; y : Q; z : Q }.

(** [new THREE.Vector3()]. *)
Definition zero : Vector3 := mkVector3 0 0 0.

(** [v.add(w)]. *)
Definition add (v w : Vector3) : Vector3 :=
  mkVector3 (x v + x w) (y v + y w) (z v + z w).

(** [v.multiplyScalar(s)]. *)
Definition multiplyScalar (v : Vector3) (s : Q) : Vector3 :=
  mkVector3 (x v * s) (y v * s) (z v * s).

(** [v.divideScalar(s)] is [v.multiplyScalar(1 / s)]. *)
Definition divideScalar (v : Vector3) (s : Q) : Vector3 :=
  multiplyScalar v (1 / s).

Definition lengthSq (v : Vector3) : Q := x v * x v + y v * y v + z v * z v.

(** [v.length()]. *)
Definition length `{MathLib} (v : Vector3) : Q := Math_sqrt (lengthSq v).

(** [v.normalize()] is [v.divideScalar(v.length() || 1)]. *)
Definition normalize `{MathLib} (v : Vector3) : Vector3 :=
  let l := length v in
  divideScalar v (if Qeq_bool l 0 then 1 else l).

(** [v.distanceTo(w)] is the square root of [v.distanceToSquared(w)]. *)
Definition distanceToSquared (v w : Vector3) : Q :=
  let dx := x v - x w in
  let dy := y v - y w in
  let dz := z v - z w in
  dx * dx + dy * dy + dz * dz.

Definition distanceTo `{MathLib} (v w : Vector3) : Q :=
  Math_sqrt (distanceToSquared v w).

Record Quaternion := mkQuaternion { qx : Q; qy : Q; qz : Q; qw : Q }.

(** [q.setFromAxisAngle(axis, angle)]. *)
Definition setFromAxisAngle `{MathLib} (axis : Vector3) (angle : Q)
  : Quaternion :=
  let halfAngle := angle / 2 in
  let s := Math_sin halfAngle in
  mkQuaternion (x axis * s) (y axis * s) (z axis * s) (Math_cos halfAngle).

(** [v.applyQuaternion(q)]. *)
Definition applyQuaternion (v : Vector3) (q : Quaternion) : Vector3 :=
  let tx := 2 * (qy q * z v - qz q * y v) in
  let ty := 2 * (qz q * x v - qx q * z v) in
  let tz := 2 * (qx q * y v - qy q * x v) in
  mkVector3 (x v + qw q * tx + qy q * tz - qz q * ty)
            (y v + qw q * ty + qz q * tx - qx q * tz)
            (z v + qw q * tz + qx q * ty - qy q * tx).

(** [v.applyAxisAngle(axis, angle)]. *)
Definition applyAxisAngle `{MathLib} (v axis : Vector3) (angle : Q)
  : Vector3 :=
  applyQuaternion v (setFromAxisAngle axis angle).

(** [THREE.MathUtils.lerp(x, y, t)]. *)
Definition lerp (a b t : Q) : Q := (1 - t) * a + t * b.

(** [THREE.Clock]: [oldTime] is the reading of [performance.now()] at the
    previous [getDelta]. *)
Record Clock := mkClock {
  autoStart : bool;
  running : bool;
  startTime : Q;
  oldTime : Q;
  elapsedTime : Q
}.

(** [new THREE.Clock()]. *)
Definition newClock : Clock := mkClock true false 0 0 0.

(** [clock.getDelta()], with [perfNow] the reading of [performance.now()]:
    the first call starts the clock and yields 0, later calls yield the
    seconds elapsed since the previous call. *)
Definition getDelta (perfNow : Q) (c : Clock) : Q * Clock :=
  if autoStart c && negb (running c) then
    (0, mkClock (autoStart c) true perfNow perfNow 0)
  else if running c then
    let diff := (perfNow - oldTime c) / 1000 in
    (diff, mkClock (autoStart c) true (startTime c) perfNow
                   (elapsedTime c + diff))
  else (0, c).

End THREE.

(* ===================================================================== *)
(** ** The authority's documents (the [players], [bullets] and [kills]
       tables of the schema) *)
(* ===================================================================== *)

Module Schema.

Record Rotation := mkRotation { rx : Q; ry : Q }.

Record Player := mkPlayer {
  gameId : string;
  userId : option string;
  username : string;
  position : THREE.Vector3;
  rotation : Rotation;
  health : Q;
  maxHealth : Q;
  kills : Q;
  deaths : Q;
  isAlive : bool;
  lastUpdate : Z
}.

Record Bullet := mkBullet {
  bgameId : string;
  playerId : string;
  startPosition : THREE.Vector3;
  direction : THREE.Vector3;
  speed : Q;
  damage : Q;
  timestamp : Z
}.

Record Kill := mkKill {
  kgameId : string;
  killerId : string;
  victimId : string;
  killerName : string;
  victimName : string;
  weapon : string;
  ktimestamp : Z
}.

(** A document as a query returns it: its fields together with its [_id]. *)
Record Doc (A : Type) := mkDoc { _id : string; fields : A }.
Arguments mkDoc {A} _ _.
Arguments _id {A} _.
Arguments fields {A} _.

(** The part of a game-state snapshot the engine reads; a field that is
    [undefined] is [None]. *)
Record GameState := mkGameState {
  gs_players : option (list (Doc Player));
  gs_bullets : option (list (Doc Bullet))
}.

(** The [games] table. *)
Inductive Status := waiting | playing | finished.

#[global] Instance Status_eq_dec : EqDecision Status.
Proof. solve_decision. Defined.

Record Game := mkGame {
  name : string;
  maxPlayers : Q;
  currentPlayers : Q;
  status : Status;
  mapName : string
}.

End Schema.

(* ===================================================================== *)
(** ** The client: [GameEngine] *)
(* ===================================================================== *)

Module GameEngine.

Import JS.
Local Open Scope Q_scope.

Abbreviation Vector3 := THREE.Vector3.

(** *** State *)

Record Rotation := mkRotation { rx : Q; ry : Q }.

(** [this.player]. *)
Record PlayerState := mkPlayerState {
  position : Vector3;
  velocity : Vector3;
  rotation : Rotation;
  isGrounded : bool;
  isSprinting : bool;
  isCrouching : bool;
  height : Q
}.

(** [this.controls]. *)
Record Controls := mkControls {
  forward : bool;
  backward : bool;
  left : bool;
  right : bool;
  jump : bool;
  sprint : bool;
  crouch : bool
}.

(** The part of [this.camera] the engine writes. *)
Record Camera := mkCamera {
  cam_position : Vector3;
  cam_rotation : Rotation
}.

(** An entry of [this.bullets]: the mesh is represented by its position. *)
Record Bullet := mkBullet {
  bmesh : Vector3;
  bvelocity : Vector3;
  startTime : Z
}.

(** An entry of [this.players]: the mesh is represented by its position and
    material colour, the name tag by its position. *)
Record PlayerObj := mkPlayerObj {
  mesh : Vector3;
  color : Z;
  nameTag : Vector3
}.

(** The objects the engine puts into the scene after set-up.  An object is
    identified by its kind and the identifier it was created for. *)
Inductive Object3D :=
| PlayerMesh (id : string)
| NameTag (id : string)
| BulletMesh (id : string).

#[global] Instance Object3D_eq_dec : EqDecision Object3D.
Proof. solve_decision. Defined.

(** Calls made on [this.callbacks]. *)
Inductive Callback :=
| onPositionUpdate (pos : Vector3) (rot : Rotation)
| onShoot (startPosition direction : Vector3)
| onHit (bulletId victimId : string).

(** [this.mouse]. *)
Record Mouse := mkMouse { mx : Q; my : Q; sensitivity : Q }.

Record Engine := mkEngine {
  scene : list Object3D;
  camera : Camera;
  currentPlayerId : string;
  player : PlayerState;
  controls : Controls;
  mouse : Mouse;
  bullets : list (string * Bullet);
  players : list (string * PlayerObj);
  clock : THREE.Clock;
  isRunning : bool;
  lastUpdateTime : Z
}.

Definition noControls : Controls :=
  mkControls false false false false false false false.

(** The field initialisers of [this.player]. *)
Definition initialPlayer : PlayerState :=
  mkPlayerState (THREE.mkVector3 0 1.8 0) THREE.zero (mkRotation 0 0)
                true false false 1.8.

(** The engine as the constructor leaves it ([setupPlayer] copies the
    player's position into the camera); the lights, ground and walls put
    into the scene by [setupScene] are never touched again and are left
    out. *)
Definition newEngine : Engine :=
  mkEngine [] (mkCamera (position initialPlayer) (mkRotation 0 0)) ""
           initialPlayer noControls (mkMouse 0 0 0.002) [] [] THREE.newClock
           false 0.

(** *** [updatePlayer], one block of the method per definition *)

Section UpdatePlayer.

Context `{MathLib}.

Variable deltaTime : Q.
Variable c : Controls.

(** Handle crouching. *)
Definition crouching (p : PlayerState) : PlayerState :=
  let targetHeight := if crouch c then 1.2 else 1.8 in
  mkPlayerState (position p) (velocity p) (rotation p) (isGrounded p)
    (isSprinting p) (isCrouching p)
    (THREE.lerp (height p) targetHeight (deltaTime * 10)).

(** The input direction built from the four movement keys. *)
Definition inputDirection : Vector3 :=
  let d := THREE.zero in
  let d := if forward c
           then THREE.mkVector3 (THREE.x d) (THREE.y d) (THREE.z d - 1)
           else d in
  let d := if backward c
           then THREE.mkVector3 (THREE.x d) (THREE.y d) (THREE.z d + 1)
           else d in
  let d := if left c
           then THREE.mkVector3 (THREE.x d - 1) (THREE.y d) (THREE.z d)
           else d in
  let d := if right c
           then THREE.mkVector3 (THREE.x d + 1) (THREE.y d) (THREE.z d)
           else d in
  d.

(** Movement. *)
Definition movement (p : PlayerState) : PlayerState :=
  let moveSpeed := if sprint c then 8 else 5 in
  let direction := inputDirection in
  let v := velocity p in
  let v' :=
    if gt (THREE.length direction) 0 then
      let direction := THREE.normalize direction in
      let direction :=
        THREE.applyAxisAngle direction (THREE.mkVector3 0 1 0)
                             (ry (rotation p)) in
      THREE.mkVector3 (THREE.x direction * moveSpeed) (THREE.y v)
                      (THREE.z direction * moveSpeed)
    else
      THREE.mkVector3 (THREE.x v * 0.8) (THREE.y v) (THREE.z v * 0.8) in
  mkPlayerState (position p) v' (rotation p) (isGrounded p)
    (isSprinting p) (isCrouching p) (height p).

(** Jumping. *)
Definition jumping (p : PlayerState) : PlayerState :=
  if jump c && isGrounded p then
    let v := velocity p in
    mkPlayerState (position p)
      (THREE.mkVector3 (THREE.x v) 8 (THREE.z v))
      (rotation p) false (isSprinting p) (isCrouching p) (height p)
  else p.

(** Gravity. *)
Definition gravity (p : PlayerState) : PlayerState :=
  if negb (isGrounded p) then
    let v := velocity p in
    mkPlayerState (position p)
      (THREE.mkVector3 (THREE.x v) (THREE.y v - 25 * deltaTime)
                       (THREE.z v))
      (rotation p) (isGrounded p) (isSprinting p) (isCrouching p)
      (height p)
  else p.

(** Update position. *)
Definition advance (p : PlayerState) : PlayerState :=
  mkPlayerState
    (THREE.add (position p) (THREE.multiplyScalar (velocity p) deltaTime))
    (velocity p) (rotation p) (isGrounded p) (isSprinting p)
    (isCrouching p) (height p).

(** The test of the ground-collision block. *)
Definition groundContact (p : PlayerState) : bool :=
  le (THREE.y (position p)) (height p / 2).

(** Ground collision. *)
Definition groundCollision (p : PlayerState) : PlayerState :=
  if groundContact p then
    let pos := position p in
    let v := velocity p in
    mkPlayerState
      (THREE.mkVector3 (THREE.x pos) (height p / 2) (THREE.z pos))
      (THREE.mkVector3 (THREE.x v) 0 (THREE.z v))
      (rotation p) true (isSprinting p) (isCrouching p) (height p)
  else p.

(** Boundary collision. *)
Definition boundaryCollision (p : PlayerState) : PlayerState :=
  let pos := position p in
  let x' := Math_max (-49) (Math_min 49 (THREE.x pos)) in
  let z' := Math_max (-49) (Math_min 49 (THREE.z pos)) in
  mkPlayerState (THREE.mkVector3 x' (THREE.y pos) z')
    (velocity p) (rotation p) (isGrounded p) (isSprinting p)
    (isCrouching p) (height p).

(** The player state before the ground-collision block. *)
Definition beforeGround (p : PlayerState) : PlayerState :=
  advance (gravity (jumping (movement (crouching p)))).

(** The player state at the end of the tick. *)
Definition integrate (p : PlayerState) : PlayerState :=
  boundaryCollision (groundCollision (beforeGround p)).

End UpdatePlayer.

(** The throttle test on the position report. *)
Definition reportDue (now last : Z) : bool := (50 <? now - last)%Z.

(** [updatePlayer(deltaTime)]; [now] is the reading of [Date.now()].  The
    result is the new engine and the callbacks made, in order. *)
Definition updatePlayer `{MathLib} (now : Z) (deltaTime : Q) (e : Engine)
  : Engine * list Callback :=
  let p := integrate deltaTime (controls e) (player e) in
  let cam := mkCamera (position p) (mkRotation (rx (rotation p))
                                               (ry (rotation p))) in
  let send := reportDue now (lastUpdateTime e) in
  (mkEngine (scene e) cam (currentPlayerId e) p (controls e) (mouse e)
            (bullets e) (players e) (clock e) (isRunning e)
            (if send then now else lastUpdateTime e),
   if send then [onPositionUpdate (position p) (rotation p)] else []).

(** *** The [Map] and scene operations the engine uses *)

Section MapOps.

Context {V : Type}.

(** [m.get(k)]. *)
Definition mapGet (k : string) (m : list (string * V)) : option V :=
  snd <$> List.find (fun kv => String.eqb (fst kv) k) m.

(** [m.has(k)]. *)
Definition mapHas (k : string) (m : list (string * V)) : bool :=
  existsb (fun kv => String.eqb (fst kv) k) m.

(** [m.set(k, v)]: an existing key keeps its place, a new key goes last. *)
Fixpoint mapSet (k : string) (v : V) (m : list (string * V))
  : list (string * V) :=
  match m with
  | [] => [(k, v)]
  | (k', v') :: m' =>
      if String.eqb k' k then (k, v) :: m' else (k', v') :: mapSet k v m'
  end.

(** [m.delete(k)]. *)
Definition mapDelete (k : string) (m : list (string * V))
  : list (string * V) :=
  List.filter (fun kv => negb (String.eqb (fst kv) k)) m.

Definition keys (m : list (string * V)) : list string := List.map fst m.

End MapOps.

(** [scene.add(o)]. *)
Definition sceneAdd (o : Object3D) (sc : list Object3D) : list Object3D :=
  sc ++ [o].

(** [scene.remove(o)]: the first occurrence is spliced out. *)
Fixpoint sceneRemove (o : Object3D) (sc : list Object3D) : list Object3D :=
  match sc with
  | [] => []
  | o' :: sc' => if decide (o' = o) then sc' else o' :: sceneRemove o sc'
  end.

(** *** [updateBullets] *)

Section UpdateBullets.

Context `{MathLib}.

Variable deltaTime : Q.

(** The position update at the head of the loop body. *)
Definition moveBullet (b : Bullet) : Bullet :=
  mkBullet (THREE.add (bmesh b) (THREE.multiplyScalar (bvelocity b) deltaTime))
           (bvelocity b) (startTime b).

(** Remove old bullets: the test, with [now] the reading of [Date.now()]. *)
Definition tooOld (now : Z) (b : Bullet) : bool :=
  (5000 <? now - startTime b)%Z.

(** The bounds check. *)
Definition outOfBounds (b : Bullet) : bool :=
  gt (Math_abs (THREE.x (bmesh b))) 50
  || gt (Math_abs (THREE.z (bmesh b))) 50
  || lt (THREE.y (bmesh b)) 0
  || gt (THREE.y (bmesh b)) 10.

(** The test of the inner loop body for one entry of [this.players]. *)
Definition collides (cur : string) (b : Bullet) (kv : string * PlayerObj)
  : bool :=
  negb (String.eqb (fst kv) cur)
  && lt (THREE.distanceTo (bmesh b) (mesh (snd kv))) 0.5.

(** The players the inner [forEach] reports for a bullet, in the order
    of [this.players]. *)
Definition victims (cur : string) (ps : list (string * PlayerObj))
           (b : Bullet) : list string :=
  List.map fst (List.filter (collides cur b) ps).

(** One pass of the outer loop body on the entry [(id, b)]: the moved
    bullet, the identifiers pushed on [bulletsToRemove] and the
    callbacks made. *)
Definition bulletTick (now : Z) (cur : string)
           (ps : list (string * PlayerObj)) (id : string) (b : Bullet)
  : Bullet * list string * list Callback :=
  let b' := moveBullet b in
  let vs := victims cur ps b' in
  (b',
   (if tooOld now b' then [id] else [])
     ++ (if outOfBounds b' then [id] else [])
     ++ List.map (fun _ => id) vs,
   List.map (onHit id) vs).

(** The outer [forEach]; [nowAt id] is the reading of [Date.now()] taken
    while the entry [id] is processed. *)
Fixpoint forEachBullet (nowAt : string -> Z) (cur : string)
         (ps : list (string * PlayerObj)) (bs : list (string * Bullet))
  : list (string * Bullet) * list string * list Callback :=
  match bs with
  | [] => ([], [], [])
  | (id, b) :: bs' =>
      let '(b', rm, cb) := bulletTick (nowAt id) cur ps id b in
      let '(rest, rms, cbs) := forEachBullet nowAt cur ps bs' in
      ((id, b') :: rest, rm ++ rms, cb ++ cbs)
  end.

(** The body of [bulletsToRemove.forEach]. *)
Definition removeBullet (st : list Object3D * list (string * Bullet))
           (id : string) : list Object3D * list (string * Bullet) :=
  match mapGet id (snd st) with
  | Some _ => (sceneRemove (BulletMesh id) (fst st), mapDelete id (snd st))
  | None => st
  end.

(** [updateBullets(deltaTime)]. *)
Definition updateBullets (nowAt : string -> Z) (e : Engine)
  : Engine * list Callback :=
  let '(bs, bulletsToRemove, cbs) :=
    forEachBullet nowAt (currentPlayerId e) (players e) (bullets e) in
  let '(sc, bs') := fold_left removeBullet bulletsToRemove (scene e, bs) in
  (mkEngine sc (camera e) (currentPlayerId e) (player e) (controls e)
            (mouse e) bs' (players e) (clock e) (isRunning e)
            (lastUpdateTime e),
   cbs).

End UpdateBullets.

(** *** [updateGameState] *)

Definition aliveColor (alive : bool) : Z :=
  if alive then 0x0066ff%Z else 0x666666%Z.

(** The body of [gameState.players?.forEach]. *)
Definition reconcilePlayer (cur : string)
           (st : list Object3D * list (string * PlayerObj))
           (d : Schema.Doc Schema.Player)
  : list Object3D * list (string * PlayerObj) :=
  let id := Schema._id d in
  let pl := Schema.fields d in
  if String.eqb id cur then st
  else
    let pos := Schema.position pl in
    let obj :=
      mkPlayerObj (THREE.mkVector3 (THREE.x pos) (THREE.y pos) (THREE.z pos))
                  (aliveColor (Schema.isAlive pl))
                  (THREE.mkVector3 (THREE.x pos) (THREE.y pos + 1.5)%Q
                                   (THREE.z pos)) in
    match mapGet id (snd st) with
    | None =>
        (sceneAdd (NameTag id) (sceneAdd (PlayerMesh id) (fst st)),
         mapSet id obj (snd st))
    | Some _ => (fst st, mapSet id obj (snd st))
    end.

(** [gameState.players?.find(p => p._id === id)], as the truth value the
    engine tests. *)
Definition listed (ps : option (list (Schema.Doc Schema.Player)))
           (id : string) : bool :=
  match ps with
  | None => false
  | Some l => existsb (fun d => String.eqb (Schema._id d) id) l
  end.

(** The body of the [this.players.forEach] that removes disconnected
    players. *)
Definition dropPlayer (ps : option (list (Schema.Doc Schema.Player)))
           (st : list Object3D * list (string * PlayerObj)) (id : string)
  : list Object3D * list (string * PlayerObj) :=
  if listed ps id then st
  else (sceneRemove (NameTag id) (sceneRemove (PlayerMesh id) (fst st)),
        mapDelete id (snd st)).

(** The local projectile created for an authoritative bullet record. *)
Definition spawnBullet (bl : Schema.Bullet) : Bullet :=
  let sp := Schema.startPosition bl in
  let dir := Schema.direction bl in
  let sd := Schema.speed bl in
  mkBullet (THREE.mkVector3 (THREE.x sp) (THREE.y sp) (THREE.z sp))
           (THREE.mkVector3 (THREE.x dir * sd) (THREE.y dir * sd)
                            (THREE.z dir * sd))
           (Schema.timestamp bl).

(** The body of [gameState.bullets?.forEach]. *)
Definition reconcileBullet (st : list Object3D * list (string * Bullet))
           (d : Schema.Doc Schema.Bullet)
  : list Object3D * list (string * Bullet) :=
  let id := Schema._id d in
  if mapHas id (snd st) then st
  else (sceneAdd (BulletMesh id) (fst st),
        mapSet id (spawnBullet (Schema.fields d)) (snd st)).

Definition orEmpty {A : Type} (l : option (list A)) : list A :=
  match l with Some l => l | None => [] end.

(** [updateGameState(gameState)]; a falsy [gameState] is [None]. *)
Definition updateGameState (gameState : option Schema.GameState)
           (e : Engine) : Engine :=
  match gameState with
  | None => e
  | Some gs =>
      let st1 :=
        fold_left (reconcilePlayer (currentPlayerId e))
                  (orEmpty (Schema.gs_players gs)) (scene e, players e) in
      let st2 :=
        fold_left (dropPlayer (Schema.gs_players gs)) (keys (snd st1)) st1 in
      let st3 :=
        fold_left reconcileBullet (orEmpty (Schema.gs_bullets gs))
                  (fst st2, bullets e) in
      mkEngine (fst st3) (camera e) (currentPlayerId e) (player e)
               (controls e) (mouse e) (snd st3) (snd st2) (clock e)
               (isRunning e) (lastUpdateTime e)
  end.

(** *** Input handlers *)

Definition setControl (code : string) (b : bool) (c : Controls) : Controls :=
  if String.eqb code "KeyW" then
    mkControls b (backward c) (left c) (right c) (jump c) (sprint c) (crouch c)
  else if String.eqb code "KeyS" then
    mkControls (forward c) b (left c) (right c) (jump c) (sprint c) (crouch c)
  else if String.eqb code "KeyA" then
    mkControls (forward c) (backward c) b (right c) (jump c) (sprint c) (crouch c)
  else if String.eqb code "KeyD" then
    mkControls (forward c) (backward c) (left c) b (jump c) (sprint c) (crouch c)
  else if String.eqb code "Space" then
    mkControls (forward c) (backward c) (left c) (right c) b (sprint c) (crouch c)
  else if String.eqb code "ShiftLeft" then
    mkControls (forward c) (backward c) (left c) (right c) (jump c) b (crouch c)
  else if String.eqb code "ControlLeft" then
    mkControls (forward c) (backward c) (left c) (right c) (jump c) (sprint c) b
  else c.

Definition withControls (c : Controls) (e : Engine) : Engine :=
  mkEngine (scene e) (camera e) (currentPlayerId e) (player e) c (mouse e)
           (bullets e) (players e) (clock e) (isRunning e)
           (lastUpdateTime e).

(** [onKeyDown(event)] and [onKeyUp(event)], with [code] the event's
    [code]. *)
Definition onKeyDown (code : string) (e : Engine) : Engine :=
  withControls (setControl code true (controls e)) e.

Definition onKeyUp (code : string) (e : Engine) : Engine :=
  withControls (setControl code false (controls e)) e.

(** [onMouseMove(event)]; [locked] tells whether the canvas holds the
    pointer lock. *)
Definition onMouseMove `{MathLib} (locked : bool) (movementX movementY : Q)
           (e : Engine) : Engine :=
  if locked then
    let m := mouse e in
    let x' := mx m + movementX * sensitivity m in
    let y' := my m + movementY * sensitivity m in
    let y' := Math_max (- Math_PI / 2) (Math_min (Math_PI / 2) y') in
    let p := player e in
    mkEngine (scene e) (camera e) (currentPlayerId e)
             (mkPlayerState (position p) (velocity p) (mkRotation y' x')
                            (isGrounded p) (isSprinting p) (isCrouching p)
                            (height p))
             (controls e) (mkMouse x' y' (sensitivity m)) (bullets e)
             (players e) (clock e) (isRunning e) (lastUpdateTime e)
  else e.

(** [setCurrentPlayerId(playerId)]. *)
Definition setCurrentPlayerId (playerId : string) (e : Engine) : Engine :=
  mkEngine (scene e) (camera e) playerId (player e) (controls e) (mouse e)
           (bullets e) (players e) (clock e) (isRunning e)
           (lastUpdateTime e).

(** *** The frame loop *)

Definition withClock (c : THREE.Clock) (e : Engine) : Engine :=
  mkEngine (scene e) (camera e) (currentPlayerId e) (player e) (controls e)
           (mouse e) (bullets e) (players e) c (isRunning e)
           (lastUpdateTime e).

(** One run of [animate]: [perfNow] is the reading of [performance.now()]
    inside [clock.getDelta()], [dateNow] the reading of [Date.now()] in
    [updatePlayer] and [nowAt] the readings in [updateBullets]. *)
Definition animate `{MathLib} (perfNow : Q) (dateNow : Z)
           (nowAt : string -> Z) (e : Engine) : Engine * list Callback :=
  if negb (isRunning e) then (e, [])
  else
    let '(deltaTime, c) := THREE.getDelta perfNow (clock e) in
    let '(e1, cb1) := updatePlayer dateNow deltaTime (withClock c e) in
    let '(e2, cb2) := updateBullets deltaTime nowAt e1 in
    (e2, cb1 ++ cb2).

(** [start()]: [startNow] is the reading of [Date.now()] stored in
    [lastUpdateTime]; the first frame runs at once. *)
Definition start `{MathLib} (startNow : Z) (perfNow : Q) (dateNow : Z)
           (nowAt : string -> Z) (e : Engine) : Engine * list Callback :=
  animate perfNow dateNow nowAt
    (mkEngine (scene e) (camera e) (currentPlayerId e) (player e)
              (controls e) (mouse e) (bullets e) (players e) (clock e)
              true startNow).

(** What can happen to a running engine between and at frames. *)
Inductive Input :=
| KeyDown (code : string)
| KeyUp (code : string)
| MouseMove (locked : bool) (movementX movementY : Q)
| Snapshot (gameState : option Schema.GameState)
| Frame (perfNow : Q) (dateNow : Z) (nowAt : string -> Z).

Definition step `{MathLib} (e : Engine) (i : Input)
  : Engine * list Callback :=
  match i with
  | KeyDown code => (onKeyDown code e, [])
  | KeyUp code => (onKeyUp code e, [])
  | MouseMove locked dx dy => (onMouseMove locked dx dy e, [])
  | Snapshot gs => (updateGameState gs e, [])
  | Frame perfNow dateNow nowAt => animate perfNow dateNow nowAt e
  end.

(** The engine after a sequence of inputs, and every callback made. *)
Fixpoint run `{MathLib} (e : Engine) (inputs : list Input)
  : Engine * list Callback :=
  match inputs with
  | [] => (e, [])
  | i :: inputs' =>
      let '(e1, cb1) := step e i in
      let '(e2, cb2) := run e1 inputs' in
      (e2, cb1 ++ cb2)
  end.

(** *** [dispose] and the simplified engine *)

(** [dispose()]: the loop is stopped and [scene.clear()] empties the scene;
    the removal of the event listeners is the environment sending no
    further key and mouse events. *)
Definition dispose (e : Engine) : Engine :=
  mkEngine [] (camera e) (currentPlayerId e) (player e) (controls e) (mouse e)
           (bullets e) (players e) (clock e) false (lastUpdateTime e).




End GameEngine.

(* ===================================================================== *)
(** ** The authority: the [hitPlayer] mutation *)
(* ===================================================================== *)

Module Authority.

Import JS.
Local Open Scope Q_scope.

(** The tables the mutation touches.  [kills] holds the inserted documents
    in insertion order. *)
Record Db := mkDb {
  players : gmap string Schema.Player;
  bullets : gmap string Schema.Bullet;
  kills : list Schema.Kill
}.

(** The object [hitPlayer] returns when it does not return [null]. *)
Record HitResult := mkHitResult { hit : bool; damage : Q; killed : bool }.

(** [Math.max(0, victim.health - bullet.damage)]. *)
Definition newHealth (victim : Schema.Player) (bullet : Schema.Bullet) : Q :=
  Math_max 0 (Schema.health victim - Schema.damage bullet).

(** [newHealth <= 0]. *)
Definition isDead (victim : Schema.Player) (bullet : Schema.Bullet) : bool :=
  le (newHealth victim bullet) 0.

(** The fields of the patch applied to the victim; [victim] is the
    document read at the start of the handler, [p] the stored one. *)
Definition patchVictim (victim : Schema.Player) (bullet : Schema.Bullet)
           (p : Schema.Player) : Schema.Player :=
  Schema.mkPlayer (Schema.gameId p) (Schema.userId p) (Schema.username p)
    (Schema.position p) (Schema.rotation p)
    (newHealth victim bullet)
    (Schema.maxHealth p) (Schema.kills p)
    (if isDead victim bullet then Schema.deaths victim + 1
     else Schema.deaths victim)
    (negb (isDead victim bullet))
    (Schema.lastUpdate p).

(** The patch [{ kills: shooter.kills + 1 }]. *)
Definition patchShooter (shooter : Schema.Player) (p : Schema.Player)
  : Schema.Player :=
  Schema.mkPlayer (Schema.gameId p) (Schema.userId p) (Schema.username p)
    (Schema.position p) (Schema.rotation p) (Schema.health p)
    (Schema.maxHealth p) (Schema.kills shooter + 1) (Schema.deaths p)
    (Schema.isAlive p) (Schema.lastUpdate p).

(** The document inserted into [kills]. *)
Definition killRecord (now : Z) (victimId : string)
           (victim shooter : Schema.Player) (bullet : Schema.Bullet)
  : Schema.Kill :=
  Schema.mkKill (Schema.gameId victim) (Schema.playerId bullet) victimId
                (Schema.username shooter) (Schema.username victim)
                "rifle" now.

(** The handler of [hitPlayer]; [now] is the reading of [Date.now()] used
    for a kill record, [None] is [null]. *)
Definition hitPlayer (now : Z) (bulletId victimId : string) (db : Db)
  : Db * option HitResult :=
  let bullet := bullets db !! bulletId in
  let victim := players db !! victimId in
  let shooter :=
    match bullet with
    | Some b => players db !! Schema.playerId b
    | None => None
    end in
  match bullet, victim, shooter with
  | Some bullet, Some victim, Some shooter =>
      if negb (Schema.isAlive victim) then (db, None)
      else
        let ps1 := alter (patchVictim victim bullet) victimId (players db) in
        let '(ps2, ks2) :=
          if isDead victim bullet then
            (alter (patchShooter shooter) (Schema.playerId bullet) ps1,
             kills db ++ [killRecord now victimId victim shooter bullet])
          else (ps1, kills db) in
        (mkDb ps2 (delete bulletId (bullets db)) ks2,
         Some (mkHitResult true (Schema.damage bullet)
                           (isDead victim bullet)))
  | _, _, _ => (db, None)
  end.

(** *** The other mutations and queries of the authority

    An [insert] stores the document under a fresh id chosen by the
    database; the id is an argument ([newId]) of the model.  A mutation
    that throws leaves the database as it was and is modelled by an error
    result. *)

(** [shootBullet]: [null] for a missing or dead player, else the id of the
    inserted bullet. *)
Definition shootBullet (now : Z) (newId : string) (playerId : string)
           (startPosition direction : THREE.Vector3) (db : Db)
  : Db * option string :=
  match players db !! playerId with
  | Some player =>
      if negb (Schema.isAlive player) then (db, None)
      else
        (mkDb (players db)
              (<[newId := Schema.mkBullet (Schema.gameId player) playerId
                            startPosition direction 100 25 now]>
                 (bullets db))
              (kills db),
         Some newId)
  | None => (db, None)
  end.



(** The [spawnPositions] of [respawnPlayer]. *)
Definition spawnPositions : list THREE.Vector3 :=
  [THREE.mkVector3 10 1 10; THREE.mkVector3 (-10) 1 10;
   THREE.mkVector3 10 1 (-10); THREE.mkVector3 (-10) 1 (-10)].

(** [a[i]] for an array and a number that is an integer: [undefined]
    ([None]) outside the array. *)
Definition index {A : Type} (a : list A) (i : Z) : option A :=
  if (i <? 0)%Z then None else nth_error a (Z.to_nat i).

(** [spawnPositions[Math.floor(Math.random() * spawnPositions.length)]],
    with [random] the value of [Math.random()]. *)
Definition randomSpawn (random : Q) : option THREE.Vector3 :=
  index spawnPositions
        (Qfloor (random * inject_Z (Z.of_nat (List.length spawnPositions)))).

(** The patch of [respawnPlayer]. *)
Definition patchRespawn (now : Z) (spawn : THREE.Vector3) (p : Schema.Player)
  : Schema.Player :=
  Schema.mkPlayer (Schema.gameId p) (Schema.userId p) (Schema.username p)
    spawn (Schema.rotation p) 100 (Schema.maxHealth p) (Schema.kills p)
    (Schema.deaths p) true now.

(** [respawnPlayer]; [None] when the patch throws: the player does not
    exist, or the spawn position is [undefined] and the patched document
    would lack the [position] the schema requires. *)
Definition respawnPlayer (now : Z) (random : Q) (playerId : string) (db : Db)
  : option Db :=
  match randomSpawn random, players db !! playerId with
  | Some spawn, Some _ =>
      Some (mkDb (alter (patchRespawn now spawn) playerId (players db))
                 (bullets db) (kills db))
  | _, _ => None
  end.

(** The filter of [cleanupOldBullets]: [timestamp < cutoff]. *)
Definition stale (now : Z) (b : Schema.Bullet) : bool :=
  (Schema.timestamp b <? now - 5000)%Z.

(** [cleanupOldBullets]: every bullet the filter selects is deleted. *)
Definition cleanupOldBullets (now : Z) (db : Db) : Db :=
  mkDb (players db)
       (filter (fun kv => stale now (snd kv) = false) (bullets db))
       (kills db).

(** The [recentKills] query of [getGameState]: the kills of the game, most
    recently inserted first, at most ten. *)
Definition recentKills (gameId : string) (db : Db) : list Schema.Kill :=
  take 10 (rev (List.filter (fun k => String.eqb (Schema.kgameId k) gameId)
                            (kills db))).

(** The database with the [games] table. *)
Record Store := mkStore {
  games : gmap string Schema.Game;
  tables : Db
}.

(** What a mutation that may throw yields. *)
Inductive Outcome (A : Type) :=
| Returns (a : A)
| Throws (message : string).
Arguments Returns {A} _.
Arguments Throws {A} _.

(** [createGame]. *)
Definition createGame (newId : string) (name : string) (maxPlayers : Q)
           (mapName : string) (st : Store) : Store * string :=
  (mkStore (<[newId := Schema.mkGame name maxPlayers 0 Schema.waiting mapName]>
              (games st))
           (tables st),
   newId).

(** The player document [joinGame] inserts. *)
Definition newPlayer (now : Z) (gameId : string) (userId : option string)
           (username : string) : Schema.Player :=
  Schema.mkPlayer gameId userId username (THREE.mkVector3 0 1 0)
                  (Schema.mkRotation 0 0) 100 100 0 0 true now.

(** [joinGame]; [userId] is the result of [getAuthUserId] and [existing]
    the result of the query for a player of this user in the game (the
    [_id] of its first match, if any). *)
Definition joinGame (now : Z) (newId : string) (userId : option string)
           (existing : option string) (gameId username : string) (st : Store)
  : Store * Outcome string :=
  match games st !! gameId with
  | None => (st, Throws "Game not found")
  | Some game =>
      if JS.le (Schema.maxPlayers game) (Schema.currentPlayers game) then
        (st, Throws "Game is full")
      else
        match existing with
        | Some playerId => (st, Returns playerId)
        | None =>
            let db := tables st in
            (mkStore
               (alter (fun g =>
                         Schema.mkGame (Schema.name g) (Schema.maxPlayers g)
                                       (Schema.currentPlayers game + 1)
                                       (Schema.status g) (Schema.mapName g))
                      gameId (games st))
               (mkDb (<[newId := newPlayer now gameId userId username]>
                        (players db))
                     (bullets db) (kills db)),
             Returns newId)
        end
  end.

(** [listGames]: the games whose status is not ["finished"]. *)
Definition listGames (st : Store) : gmap string Schema.Game :=
  filter (fun kv => Schema.status (snd kv) <> Schema.finished) (games st).

End Authority.

(* ===================================================================== *)
(** ** A concrete [Math] for running the model

    Rational stand-ins for the irrational functions: a truncated square
    root with six decimals and short Taylor polynomials.  They are used
    only to evaluate the model on concrete inputs. *)
(* ===================================================================== *)

Module Approx.

Local Open Scope Q_scope.

Definition sqrt (q : Q) : Q :=
  Z.sqrt (Qnum q * Zpos (Qden q) * 1000000000000) # (Qden q * 1000000).

Definition sin (t : Q) : Q := t - t * t * t / 6 + t * t * t * t * t / 120.

Definition cos (t : Q) : Q := 1 - t * t / 2 + t * t * t * t / 24.

Definition PI : Q := 3.141592653589793.

Definition math : JS.MathLib :=
  {| JS.Math_sqrt := sqrt; JS.Math_sin := sin; JS.Math_cos := cos;
     JS.Math_PI := PI |}.

End Approx.

(* ===================================================================== *)
(** ** Concrete states used to run the model *)
(* ===================================================================== *)

Module Scenarios.

Import GameEngine.
Local Open Scope Q_scope.

(** A player standing on the ground at the origin who holds the jump key. *)
Definition groundedPlayer : PlayerState :=
  mkPlayerState (THREE.mkVector3 0 0.9 0) THREE.zero (mkRotation 0 0)
                true false false 1.8.

Definition jumpControls : Controls :=
  mkControls false false false false true false false.

Definition jumpEngine : Engine :=
  mkEngine [] (mkCamera (position groundedPlayer) (mkRotation 0 0)) "me"
           groundedPlayer jumpControls (mkMouse 0 0 0.002) [] []
           (THREE.mkClock true true 0 0 0) true 0.

(** A crouched player resting on the ground, with no key held. *)
Definition crouchedPlayer : PlayerState :=
  mkPlayerState (THREE.mkVector3 0 0.6 0) THREE.zero (mkRotation 0 0)
                true false false 1.2.

(** A running engine of player ["me"]. *)
Definition arena : Engine :=
  mkEngine [] (mkCamera (position initialPlayer) (mkRotation 0 0)) "me"
           initialPlayer noControls (mkMouse 0 0 0.002) [] []
           (THREE.mkClock true true 0 0 0) true 0.

(** The authority's record of a bullet fired at time 0 along [-z]. *)
Definition round : Schema.Doc Schema.Bullet :=
  Schema.mkDoc "b1"
    (Schema.mkBullet "g1" "alice" (THREE.mkVector3 0 1.9 0)
                     (THREE.mkVector3 0 0 (-1)) 100 25 0).

Definition remote (id name : string) (pos : THREE.Vector3)
  : Schema.Doc Schema.Player :=
  Schema.mkDoc id (Schema.mkPlayer "g1" None name pos (Schema.mkRotation 0 0)
                                   100 100 0 0 true 0).

(** The engine after a snapshot listing the bullet and no player. *)
Definition oneBullet : Engine :=
  updateGameState (Some (Schema.mkGameState (Some []) (Some [round]))) arena.

(** The engine after a snapshot listing the bullet and two remote players
    who stand at the same spot, one unit down range. *)
Definition twoTargets : Engine :=
  updateGameState
    (Some (Schema.mkGameState
             (Some [remote "p1" "bob" (THREE.mkVector3 0 1.9 (-1));
                    remote "p2" "carol" (THREE.mkVector3 0 1.9 (-1))])
             (Some [round])))
    arena.

(** A snapshot that lists the remote player ["p1"], and one that does not. *)
Definition withP1 : Schema.GameState :=
  Schema.mkGameState
    (Some [remote "p1" "bob" (THREE.mkVector3 3 1 4)]) (Some []).

Definition withoutP1 : Schema.GameState :=
  Schema.mkGameState (Some []) (Some []).

Import Authority.

(** A database with two players and one bullet in flight, fired by alice;
    bob has 25 health left. *)
Definition alice : Schema.Player :=
  Schema.mkPlayer "g1" None "alice" (THREE.mkVector3 0 1 0)
                  (Schema.mkRotation 0 0) 100 100 0 0 true 0.

Definition bob : Schema.Player :=
  Schema.mkPlayer "g1" None "bob" (THREE.mkVector3 10 1 10)
                  (Schema.mkRotation 0 0) 25 100 0 0 true 0.

Definition shot : Schema.Bullet :=
  Schema.mkBullet "g1" "alice" (THREE.mkVector3 0 1.1 0)
                  (THREE.mkVector3 0 0 (-1)) 100 25 0.

Definition db0 : Db :=
  mkDb (<["alice" := alice]> (<["bob" := bob]> ∅)) (<["b1" := shot]> ∅) [].

End Scenarios.

(* ===================================================================== *)
(** ** The vocabulary of the properties *)
(* ===================================================================== *)

Module Spec.

Import JS GameEngine.
Local Open Scope Q_scope.

(** *** Local Motion Integrator *)

(** The horizontal position lies in the arena. *)
Definition inArena (p : PlayerState) : Prop :=
  (-49 <= THREE.x (position p) <= 49) /\ (-49 <= THREE.z (position p) <= 49).

(** The jump block fires. *)
Definition launched (c : Controls) (p : PlayerState) : bool :=
  jump c && isGrounded p.

(** The vertical velocity after the gravity block. *)
Definition fallSpeed (dt : Q) (c : Controls) (p : PlayerState) : Q :=
  if launched c p then 8 - 25 * dt
  else if isGrounded p then THREE.y (velocity p)
  else THREE.y (velocity p) - 25 * dt.

(** The ground-collision block fires in the frame [i]. *)
Definition frameContact `{MathLib} (e : Engine) (i : Input) : bool :=
  match i with
  | Frame perfNow _ _ =>
      isRunning e
      && groundContact
           (beforeGround (fst (THREE.getDelta perfNow (clock e)))
                         (controls e) (player e))
  | _ => false
  end.

(** The ground-collision block fires in no frame of [inputs]. *)
Fixpoint noContact `{MathLib} (e : Engine) (inputs : list Input) : bool :=
  match inputs with
  | [] => true
  | i :: inputs' =>
      negb (frameContact e i) && noContact (fst (step e i)) inputs'
  end.

Definition isReport (cb : Callback) : bool :=
  match cb with onPositionUpdate _ _ => true | _ => false end.

(** The readings of [Date.now()] of the frames of [inputs] that made a
    position report. *)
Fixpoint reportTimes `{MathLib} (e : Engine) (inputs : list Input) : list Z :=
  match inputs with
  | [] => []
  | i :: inputs' =>
      let '(e', cbs) := step e i in
      match i with
      | Frame _ dateNow _ =>
          if existsb isReport cbs then dateNow :: reportTimes e' inputs'
          else reportTimes e' inputs'
      | _ => reportTimes e' inputs'
      end
  end.

(** Each time is more than 50 ms after the one before it, starting from
    [last]. *)
Fixpoint spaced (last : Z) (ts : list Z) : Prop :=
  match ts with
  | [] => True
  | t :: ts' => (50 < t - last)%Z /\ spaced t ts'
  end.

(** *** Projectile Simulator *)

(** The loop body pushes the bullet's id on [bulletsToRemove]. *)
Definition doomed `{MathLib} (dt : Q) (nowAt : string -> Z) (cur : string)
           (ps : list (string * PlayerObj)) (id : string) (b : Bullet) : bool :=
  tooOld (nowAt id) (moveBullet dt b)
  || outOfBounds (moveBullet dt b)
  || negb (match victims cur ps (moveBullet dt b) with
           | [] => true | _ => false end).

(** *** Remote State Reconciler *)

(** The number of entries of a map under the key [id]. *)
Definition entries {V : Type} (id : string) (m : list (string * V)) : nat :=
  count_occ String.string_dec (keys m) id.

(** The number of times an object is in the scene. *)
Definition inScene (o : Object3D) (sc : list Object3D) : nat :=
  count_occ Object3D_eq_dec sc o.

(** The visual handle of player [id] as the triple: meshes in the scene,
    name tags in the scene, entries of [this.players]. *)
Definition handle (id : string) (st : list Object3D * list (string * PlayerObj))
  : nat * nat * nat :=
  (inScene (PlayerMesh id) (fst st), inScene (NameTag id) (fst st),
   entries id (snd st)).

(** *** Authority *)

Import Authority.

(** The hit report is valid: bullet, victim and shooter exist and the victim
    is alive. *)
Definition valid (db : Db) (bulletId victimId : string)
           (bullet : Schema.Bullet) (victim shooter : Schema.Player) : Prop :=
  bullets db !! bulletId = Some bullet /\
  players db !! victimId = Some victim /\
  players db !! Schema.playerId bullet = Some shooter /\
  Schema.isAlive victim = true.

(** The hit report is rejected: an id is unknown, the shooter's record is
    missing, or the victim is already dead. *)
Definition rejected (db : Db) (bulletId victimId : string) : Prop :=
  bullets db !! bulletId = None \/
  players db !! victimId = None \/
  (exists bullet, bullets db !! bulletId = Some bullet /\
                  players db !! Schema.playerId bullet = None) \/
  (exists victim, players db !! victimId = Some victim /\
                  Schema.isAlive victim = false).

(** The database and result of an accepted hit. *)
Definition accepted (now : Z) (bulletId victimId : string) (db : Db)
           (bullet : Schema.Bullet) (victim shooter : Schema.Player)
  : Db * option HitResult :=
  let dead := isDead victim bullet in
  let ps1 := alter (patchVictim victim bullet) victimId (players db) in
  (mkDb (if dead then alter (patchShooter shooter) (Schema.playerId bullet) ps1
         else ps1)
        (delete bulletId (bullets db))
        (if dead
         then kills db ++ [killRecord now victimId victim shooter bullet]
         else kills db),
   Some (mkHitResult true (Schema.damage bullet) dead)).

(** *** Further vocabulary: motion and input *)

(** The player is not below the floor of the ground-collision block. *)
Definition onOrAboveFloor (p : PlayerState) : Prop :=
  height p / 2 <= THREE.y (position p).

(** Grounded with no vertical velocity. *)
Definition atRest (p : PlayerState) : Prop :=
  isGrounded p = true /\ THREE.y (velocity p) == 0.

(** The four movement keys cancel: no key, or opposite keys together. *)
Definition noIntent (c : Controls) : bool :=
  Bool.eqb (forward c) (backward c) && Bool.eqb (left c) (right c).

(** The player after one tick per element of [dts], the controls held
    fixed. *)
Fixpoint coast `{MathLib} (c : Controls) (dts : list Q) (p : PlayerState)
  : PlayerState :=
  match dts with
  | [] => p
  | dt :: dts' => coast c dts' (integrate dt c p)
  end.

(** The pitch lies between [-Math.PI / 2] and [Math.PI / 2]. *)
Definition pitchInRange `{MathLib} (p : PlayerState) : Prop :=
  - Math_PI / 2 <= rx (rotation p) <= Math_PI / 2.

(** The input is not the press of the jump key. *)
Definition notJump (i : Input) : Prop := i <> KeyDown "Space".

(** *** Further vocabulary: the simplified engine *)


(** *** Further vocabulary: snapshots and the scene *)

(** The entry of [this.players] that a player document is shown by: mesh
    at the document's position, colour by [isAlive], name tag 1.5 above. *)
Definition playerObjOf (pl : Schema.Player) : PlayerObj :=
  let pos := Schema.position pl in
  mkPlayerObj (THREE.mkVector3 (THREE.x pos) (THREE.y pos) (THREE.z pos))
              (aliveColor (Schema.isAlive pl))
              (THREE.mkVector3 (THREE.x pos) (THREE.y pos + 1.5) (THREE.z pos)).

(** The last document of the list with the given [_id]. *)
Fixpoint lastListed {A : Type} (id : string) (docs : list (Schema.Doc A))
  : option (Schema.Doc A) :=
  match docs with
  | [] => None
  | d :: docs' =>
      match lastListed id docs' with
      | Some d' => Some d'
      | None => if String.eqb (Schema._id d) id then Some d else None
      end
  end.

(** The first document of the list with the given [_id]. *)
Definition firstListed {A : Type} (id : string) (docs : list (Schema.Doc A))
  : option (Schema.Doc A) :=
  List.find (fun d => String.eqb (Schema._id d) id) docs.

(** For the identifier [id], the scene holds one mesh and one name tag per
    entry of [this.players] and one bullet mesh per entry of
    [this.bullets], and neither map has two entries for it. *)
Definition syncedAt (id : string) (e : Engine) : Prop :=
  (entries id (GameEngine.players e) <= 1)%nat /\
  inScene (PlayerMesh id) (scene e) = entries id (GameEngine.players e) /\
  inScene (NameTag id) (scene e) = entries id (GameEngine.players e) /\
  (entries id (GameEngine.bullets e) <= 1)%nat /\
  inScene (BulletMesh id) (scene e) = entries id (GameEngine.bullets e).

(** The part of [syncedAt] about the players, on the state of the player
    loops of [updateGameState], and the part about the bullets, on the
    state of the bullet loops. *)
Definition playerSync (id : string)
           (st : list Object3D * list (string * PlayerObj)) : Prop :=
  (entries id (snd st) <= 1)%nat /\
  inScene (PlayerMesh id) (fst st) = entries id (snd st) /\
  inScene (NameTag id) (fst st) = entries id (snd st).

Definition bulletSync (id : string)
           (st : list Object3D * list (string * Bullet)) : Prop :=
  (entries id (snd st) <= 1)%nat /\
  inScene (BulletMesh id) (fst st) = entries id (snd st).

Definition synced (e : Engine) : Prop := forall id, syncedAt id e.

(** *** Further vocabulary: where a hit report comes from *)

(** The input is a snapshot that lists a player, or a bullet, with the
    identifier [id]. *)
Definition listsPlayer (id : string) (i : Input) : Prop :=
  match i with
  | Snapshot (Some gs) => listed (Schema.gs_players gs) id = true
  | _ => False
  end.

Definition listsBullet (id : string) (i : Input) : Prop :=
  match i with
  | Snapshot (Some gs) =>
      firstListed id (orEmpty (Schema.gs_bullets gs)) <> None
  | _ => False
  end.

(** *** Further vocabulary: the keyboard *)

(** Whether the key [code] is down after the inputs: the last key event
    with this code decides, and [b] if there is none. *)
Fixpoint held (code : string) (b : bool) (inputs : list Input) : bool :=
  match inputs with
  | [] => b
  | KeyDown c :: rest => held code (if String.eqb c code then true else b) rest
  | KeyUp c :: rest => held code (if String.eqb c code then false else b) rest
  | _ :: rest => held code b rest
  end.

End Spec.

(* ===================================================================== *)
(** ** Facts about JavaScript numbers *)
(* ===================================================================== *)

Module JSFacts.

Import JS.
Local Open Scope Q_scope.

Lemma lt_spec a b : lt a b = true <-> a < b.
Proof.
  unfold lt. rewrite negb_true_iff, <- not_true_iff_false, Qle_bool_iff.
  split; [apply Qnot_le_lt | apply Qlt_not_le].
Qed.

Lemma lt_false a b : lt a b = false <-> b <= a.
Proof.
  unfold lt. rewrite negb_false_iff. apply Qle_bool_iff.
Qed.

Lemma le_spec a b : le a b = true <-> a <= b.
Proof. apply Qle_bool_iff. Qed.

Lemma le_false a b : le a b = false <-> b < a.
Proof.
  unfold le. rewrite <- not_true_iff_false, Qle_bool_iff.
  split; [apply Qnot_le_lt | apply Qlt_not_le].
Qed.

Lemma gt_spec a b : gt a b = true <-> b < a.
Proof. apply lt_spec. Qed.

Lemma gt_false a b : gt a b = false <-> a <= b.
Proof. apply lt_false. Qed.

Lemma Math_max_lb_l a b : a <= Math_max a b.
Proof.
  unfold Math_max. destruct (le a b) eqn:E.
  - now apply le_spec.
  - apply Qle_refl.
Qed.

Lemma Math_max_lb_r a b : b <= Math_max a b.
Proof.
  unfold Math_max. destruct (le a b) eqn:E.
  - apply Qle_refl.
  - apply le_false in E. now apply Qlt_le_weak.
Qed.

Lemma Math_max_cases a b : Math_max a b = a \/ Math_max a b = b.
Proof. unfold Math_max. destruct (le a b); auto. Qed.

Lemma Math_min_ub_l a b : Math_min a b <= a.
Proof.
  unfold Math_min. destruct (le a b) eqn:E.
  - apply Qle_refl.
  - apply le_false in E. now apply Qlt_le_weak.
Qed.

Lemma Math_min_ub_r a b : Math_min a b <= b.
Proof.
  unfold Math_min. destruct (le a b) eqn:E.
  - now apply le_spec.
  - apply Qle_refl.
Qed.

(** Linear arithmetic with the halving [_ / 2] written as a product. *)
Ltac qlin := unfold Qdiv in *; change (/ 2) with (1 # 2) in *; lra.

(** The clamp idiom [Math.max(lo, Math.min(hi, x))]. *)
Lemma clamp_range lo hi x :
  lo <= hi -> lo <= Math_max lo (Math_min hi x) <= hi.
Proof.
  intros Hlh. split; [apply Math_max_lb_l |].
  destruct (Math_max_cases lo (Math_min hi x)) as [-> | ->];
    [exact Hlh | apply Math_min_ub_l].
Qed.

End JSFacts.

(* ===================================================================== *)
(** ** Properties of the Local Motion Integrator ([updatePlayer]) *)
(* ===================================================================== *)

Module PlayerProps.

Import JS JSFacts GameEngine Scenarios Spec.
Local Open Scope Q_scope.

Section Frame.

Context `{MathLib}.

Lemma boundaryCollision_inArena p : inArena (boundaryCollision p).
Proof.
  unfold inArena, boundaryCollision; cbn.
  split; apply clamp_range; lra.
Qed.

Lemma integrate_inArena dt c p : inArena (integrate dt c p).
Proof. apply boundaryCollision_inArena. Qed.

Lemma updatePlayer_player now dt e :
  player (fst (updatePlayer now dt e)) = integrate dt (controls e) (player e).
Proof. reflexivity. Qed.

Lemma updateBullets_player dt nowAt e :
  player (fst (updateBullets dt nowAt e)) = player e.
Proof.
  unfold updateBullets.
  destruct (forEachBullet dt nowAt _ _ _) as [[bs rm] cbs].
  destruct (fold_left _ _ _) as [sc bs']. reflexivity.
Qed.

Lemma updateGameState_player gs e : player (updateGameState gs e) = player e.
Proof. destruct gs; reflexivity. Qed.

Lemma onMouseMove_position locked dx dy e :
  position (player (onMouseMove locked dx dy e)) = position (player e).
Proof. unfold onMouseMove. destruct locked; reflexivity. Qed.

Lemma animate_player perfNow dateNow nowAt e :
  player (fst (animate perfNow dateNow nowAt e)) =
    if isRunning e
    then integrate (fst (THREE.getDelta perfNow (clock e))) (controls e)
                   (player e)
    else player e.
Proof.
  unfold animate. destruct (isRunning e); cbn [negb]; [| reflexivity].
  destruct (THREE.getDelta perfNow (clock e)) as [dt c].
  destruct (updatePlayer dateNow dt (withClock c e)) as [e1 cb1] eqn:E1.
  pose proof (updateBullets_player dt nowAt e1) as Hb.
  destruct (updateBullets dt nowAt e1) as [e2 cb2]. cbn in *.
  rewrite Hb. change e1 with (fst (e1, cb1)). rewrite <- E1.
  reflexivity.
Qed.

Lemma step_inArena e i :
  inArena (player e) -> inArena (player (fst (step e i))).
Proof.
  intros He. destruct i; cbn [step fst].
  - exact He.
  - exact He.
  - unfold inArena. rewrite onMouseMove_position. exact He.
  - rewrite updateGameState_player. exact He.
  - rewrite animate_player. destruct (isRunning e);
      [apply integrate_inArena | exact He].
Qed.

Lemma run_inArena inputs : forall e,
  inArena (player e) -> inArena (player (fst (run e inputs))).
Proof.
  induction inputs as [| i inputs IH]; intros e He; [exact He |].
  cbn [run]. pose proof (step_inArena e i He) as Hs.
  destruct (step e i) as [e1 cb1]. specialize (IH e1 Hs).
  destruct (run e1 inputs) as [e2 cb2]. exact IH.
Qed.

End Frame.

(** *** The vertical part of a tick *)

Section Vertical.

Context `{MathLib}.

Lemma movement_vertical c p :
  position (movement c p) = position p /\
  THREE.y (velocity (movement c p)) = THREE.y (velocity p) /\
  isGrounded (movement c p) = isGrounded p /\
  height (movement c p) = height p /\
  rotation (movement c p) = rotation p.
Proof.
  unfold movement. cbn.
  destruct (gt (THREE.length (inputDirection c)) 0); cbn; auto.
Qed.

Lemma jumping_vertical c p :
  position (jumping c p) = position p /\
  THREE.y (velocity (jumping c p)) =
    (if launched c p then 8 else THREE.y (velocity p)) /\
  isGrounded (jumping c p) = isGrounded p && negb (jump c) /\
  height (jumping c p) = height p.
Proof.
  unfold jumping, launched.
  destruct (jump c), (isGrounded p) eqn:Eg; cbn; rewrite ?Eg; auto.
Qed.

Lemma gravity_vertical dt p :
  position (gravity dt p) = position p /\
  THREE.y (velocity (gravity dt p)) =
    (if isGrounded p then THREE.y (velocity p)
     else THREE.y (velocity p) - 25 * dt) /\
  isGrounded (gravity dt p) = isGrounded p /\
  height (gravity dt p) = height p.
Proof.
  unfold gravity. destruct (isGrounded p) eqn:Eg; cbn; rewrite ?Eg; auto.
Qed.

(** The state after the jump block, seen from the start of the tick. *)
Lemma jumped_vertical dt c p :
  let q := jumping c (movement c (crouching dt c p)) in
  THREE.y (position q) = THREE.y (position p) /\
  THREE.y (velocity q) = (if launched c p then 8 else THREE.y (velocity p)) /\
  isGrounded q = isGrounded p && negb (jump c) /\
  height q = THREE.lerp (height p) (if crouch c then 1.2 else 1.8) (dt * 10).
Proof.
  intros q. subst q.
  destruct (jumping_vertical c (movement c (crouching dt c p)))
    as (Hp & Hv & Hg & Hh).
  destruct (movement_vertical c (crouching dt c p))
    as (Hp' & Hv' & Hg' & Hh' & _).
  rewrite Hp, Hv, Hg, Hh, Hp', Hg', Hh'. unfold launched in *.
  rewrite Hg', Hv'. cbn [crouching position velocity isGrounded height].
  auto.
Qed.

Lemma beforeGround_grounded dt c p :
  isGrounded (beforeGround dt c p) = isGrounded p && negb (jump c).
Proof.
  unfold beforeGround, advance. cbn [isGrounded].
  destruct (gravity_vertical dt (jumping c (movement c (crouching dt c p))))
    as (_ & _ & Hg & _).
  rewrite Hg. apply (jumped_vertical dt c p).
Qed.

Lemma beforeGround_height dt c p :
  height (beforeGround dt c p) =
    THREE.lerp (height p) (if crouch c then 1.2 else 1.8) (dt * 10).
Proof.
  unfold beforeGround, advance. cbn [height].
  destruct (gravity_vertical dt (jumping c (movement c (crouching dt c p))))
    as (_ & _ & _ & Hh).
  rewrite Hh. apply (jumped_vertical dt c p).
Qed.

Lemma beforeGround_vy dt c p :
  THREE.y (velocity (beforeGround dt c p)) = fallSpeed dt c p.
Proof.
  unfold beforeGround, advance. cbn [velocity].
  destruct (gravity_vertical dt (jumping c (movement c (crouching dt c p))))
    as (_ & Hv & _).
  destruct (jumped_vertical dt c p) as (_ & Hv' & Hg' & _).
  rewrite Hv, Hg', Hv'. unfold fallSpeed, launched.
  destruct (jump c), (isGrounded p); reflexivity.
Qed.

Lemma beforeGround_y dt c p :
  THREE.y (position (beforeGround dt c p)) =
    THREE.y (position p) + fallSpeed dt c p * dt.
Proof.
  rewrite <- beforeGround_vy.
  unfold beforeGround, advance.
  cbn [position velocity THREE.add THREE.multiplyScalar THREE.y].
  destruct (gravity_vertical dt (jumping c (movement c (crouching dt c p))))
    as (Hp & _).
  destruct (jumped_vertical dt c p) as (Hp' & _).
  now rewrite Hp, Hp'.
Qed.

Lemma integrate_grounded dt c p :
  isGrounded (integrate dt c p) =
    groundContact (beforeGround dt c p) || isGrounded p && negb (jump c).
Proof.
  unfold integrate, boundaryCollision, groundCollision. cbn [isGrounded].
  destruct (groundContact (beforeGround dt c p)); cbn [isGrounded orb];
    [reflexivity | apply beforeGround_grounded].
Qed.

Lemma integrate_vy dt c p :
  THREE.y (velocity (integrate dt c p)) =
    if groundContact (beforeGround dt c p) then 0 else fallSpeed dt c p.
Proof.
  unfold integrate, boundaryCollision, groundCollision. cbn [velocity].
  destruct (groundContact (beforeGround dt c p)); cbn [velocity THREE.y];
    [reflexivity | apply beforeGround_vy].
Qed.

Lemma integrate_y dt c p :
  THREE.y (position (integrate dt c p)) =
    if groundContact (beforeGround dt c p)
    then THREE.lerp (height p) (if crouch c then 1.2 else 1.8) (dt * 10) / 2
    else THREE.y (position p) + fallSpeed dt c p * dt.
Proof.
  unfold integrate, boundaryCollision, groundCollision. cbn [position THREE.y].
  destruct (groundContact (beforeGround dt c p)); cbn [position THREE.y].
  - now rewrite beforeGround_height.
  - apply beforeGround_y.
Qed.

Lemma integrate_height dt c p :
  height (integrate dt c p) =
    THREE.lerp (height p) (if crouch c then 1.2 else 1.8) (dt * 10).
Proof.
  unfold integrate, boundaryCollision, groundCollision. cbn [height].
  destruct (groundContact (beforeGround dt c p)); cbn [height];
    apply beforeGround_height.
Qed.

End Vertical.

(** C1.  Whatever the elapsed time, the controls and the state it starts
    from, [updatePlayer] leaves the player's [x] and [z] in [[-49, 49]];
    and from a state inside the arena no sequence of key, mouse, snapshot
    and frame events (frames with or without movement intent) takes the
    player's [x] or [z] out of [[-49, 49]]. *)
Theorem updatePlayer_keeps_arena :
  forall (M : MathLib),
    (forall now dt e, inArena (player (fst (updatePlayer now dt e)))) /\
    (forall e inputs,
        inArena (player e) -> inArena (player (fst (run e inputs)))).
Proof.
  intros M. split.
  - intros now dt e. rewrite updatePlayer_player. apply integrate_inArena.
  - intros e inputs. apply run_inArena.
Qed.

Lemma updatePlayer_keeps_arena_witness :
  inArena (player jumpEngine) /\
  inArena (player (fst (run (H := Approx.math) jumpEngine
                            [KeyDown "KeyW"; Frame 16 16%Z (fun _ => 16%Z);
                             KeyUp "KeyW"; Frame 32 32%Z (fun _ => 32%Z)]))).
Proof.
  assert (H0 : inArena (player jumpEngine)).
  { unfold inArena; cbn; lra. }
  split; [exact H0 |].
  exact (proj2 (updatePlayer_keeps_arena Approx.math) jumpEngine _ H0).
Defined.

(** *** Jumping *)

Lemma step_stays_airborne `{MathLib} e i :
  isGrounded (player e) = false -> frameContact e i = false ->
  isGrounded (player (fst (step e i))) = false.
Proof.
  intros Hg Hc. destruct i; cbn [step fst].
  - exact Hg.
  - exact Hg.
  - unfold onMouseMove. destruct locked; [cbn | ]; exact Hg.
  - now rewrite updateGameState_player.
  - rewrite animate_player. cbn [frameContact] in Hc.
    destruct (isRunning e); [| exact Hg]. cbn [andb] in Hc.
    rewrite integrate_grounded, Hc, Hg. reflexivity.
Qed.

Lemma run_stays_airborne `{MathLib} inputs : forall e,
  isGrounded (player e) = false -> noContact e inputs = true ->
  isGrounded (player (fst (run e inputs))) = false.
Proof.
  induction inputs as [| i inputs IH]; intros e Hg Hn; [exact Hg |].
  cbn [noContact] in Hn. apply andb_prop in Hn as [Hc Hn].
  apply negb_true_iff in Hc.
  pose proof (step_stays_airborne e i Hg Hc) as Hs.
  cbn [run]. destruct (step e i) as [e1 cb1]. cbn [fst] in *.
  specialize (IH e1 Hs Hn). destruct (run e1 inputs) as [e2 cb2]. exact IH.
Qed.

(** C3, as the code has it.  In a tick that starts grounded with the jump
    intent set, the jump block sets the vertical velocity to 8 and clears
    [isGrounded], and the gravity block of the same tick then subtracts
    [25 * deltaTime]: after the tick the vertical velocity is
    [8 - 25 * deltaTime] and [isGrounded] is false, unless the
    ground-collision block fires in that tick, which zeroes the velocity and
    sets [isGrounded].  From an airborne state [isGrounded] stays false
    over every sequence of events in which no frame fires the
    ground-collision block. *)
Theorem jump_tick (M : MathLib) (now : Z) (dt : Q) (e : Engine) :
  isGrounded (player e) = true ->
  jump (controls e) = true ->
  let q := beforeGround dt (controls e) (player e) in
  let p' := player (fst (updatePlayer now dt e)) in
  (groundContact q = false ->
     THREE.y (velocity p') == 8 - 25 * dt /\ isGrounded p' = false) /\
  (groundContact q = true ->
     THREE.y (velocity p') == 0 /\ isGrounded p' = true) /\
  (forall e2 inputs,
      isGrounded (player e2) = false -> noContact e2 inputs = true ->
      isGrounded (player (fst (run e2 inputs))) = false).
Proof.
  intros Hg Hj q p'. subst q p'. rewrite updatePlayer_player.
  rewrite integrate_vy, integrate_grounded.
  unfold fallSpeed, launched. rewrite Hg, Hj. cbn [andb negb].
  split; [| split].
  - intros ->. cbn [orb]. split; reflexivity.
  - intros ->. cbn [orb]. split; reflexivity.
  - intros e2 inputs. apply run_stays_airborne.
Qed.

Lemma jump_tick_witness :
  isGrounded (player jumpEngine) = true /\
  jump (controls jumpEngine) = true /\
  THREE.y (velocity (player (fst (updatePlayer (H := Approx.math) 16 0.016
                                               jumpEngine))))
    == 8 - 25 * 0.016.
Proof.
  split; [reflexivity | split; [reflexivity |]].
  apply (jump_tick Approx.math 16 0.016 jumpEngine); reflexivity.
Defined.

(** C3 as stated fails: one tick of a tenth of a second from the ground
    with the jump key held leaves the vertical velocity at 5.5, not 8. *)
Lemma jump_velocity_is_not_8 :
  let p' := player (fst (updatePlayer (H := Approx.math) 100 0.1 jumpEngine)) in
  isGrounded (player jumpEngine) = true /\
  jump (controls jumpEngine) = true /\
  THREE.y (velocity p') == 5.5 /\
  ~ (THREE.y (velocity p') == 8 /\ isGrounded p' = false).
Proof.
  cbv zeta. split; [reflexivity | split; [reflexivity |]].
  assert (Hv : THREE.y (velocity (player (fst (updatePlayer (H := Approx.math)
                                                  100 0.1 jumpEngine))))
               == 5.5) by (vm_compute; reflexivity).
  split; [exact Hv |].
  intros [H8 _]. rewrite Hv in H8. vm_compute in H8. discriminate H8.
Qed.

(** *** Elapsed time *)

Lemma crouched_rise `{MathLib} dt :
  0 <= dt ->
  THREE.y (position (integrate dt noControls crouchedPlayer)) == 0.6 + 3 * dt.
Proof.
  intros Hdt. rewrite integrate_y.
  assert (Hc : groundContact (beforeGround dt noControls crouchedPlayer) = true).
  { unfold groundContact. apply le_spec.
    rewrite beforeGround_y, beforeGround_height.
    unfold fallSpeed, launched, THREE.lerp. cbn. qlin. }
  rewrite Hc. unfold THREE.lerp. cbn. field.
Qed.

(** C4 as stated fails: the elapsed time is not clamped, and the
    displacement of a single tick has no bound.  A crouched player whose
    crouch key is released is lifted by three units per second of elapsed
    time in the one tick that follows. *)
Lemma tick_displacement_unbounded :
  ~ (exists bound : Q, forall dt : Q,
        0 < dt ->
        THREE.y (position (integrate (H := Approx.math) dt noControls
                                     crouchedPlayer))
        - THREE.y (position crouchedPlayer) <= bound).
Proof.
  intros [bound Hb].
  pose (dt := Math_max 1 bound).
  assert (H1 : 1 <= dt) by apply Math_max_lb_l.
  assert (H2 : bound <= dt) by apply Math_max_lb_r.
  assert (Hpos : 0 < dt) by lra.
  specialize (Hb dt Hpos).
  rewrite (crouched_rise (H := Approx.math) dt) in Hb by lra.
  cbn in Hb. lra.
Qed.

(** The same on a run from the constructor's state: crouch for a frame of
    a tenth of a second, release the key, and let 1000 seconds pass before
    the next frame; that frame moves the player from height 1.8 to 3000.6. *)
Example suspended_tab_lifts_player :
  let nowAt := fun _ : string => 0%Z in
  let e0 := fst (start (H := Approx.math) 0 0 0 nowAt newEngine) in
  let e1 := fst (run (H := Approx.math) e0
                     [KeyDown "ControlLeft"; Frame 100 100 nowAt;
                      KeyUp "ControlLeft"]) in
  let e2 := fst (step (H := Approx.math) e1 (Frame 1000100 1000100 nowAt)) in
  THREE.y (position (player e1)) == 1.8 /\
  THREE.y (position (player e2)) == 3000.6.
Proof. vm_compute. split; reflexivity. Qed.

Lemma Qabs_diff_le (a b lo hi : Q) :
  lo <= a <= hi -> lo <= b <= hi -> Qabs (a - b) <= hi - lo.
Proof. intros Ha Hb. apply Qabs_Qle_condition. lra. Qed.

(** C4, as the code has it.  A frame of a running engine integrates with
    the clock's raw delta: the seconds since the previous frame, whatever
    their value.  The crouch height is interpolated by [deltaTime * 10];
    when the ground-collision block does not fire, the vertical velocity is
    the one after the jump and gravity blocks (gravity contributing
    [- 25 * deltaTime]) and the height gained is that velocity times
    [deltaTime].  Only the horizontal displacement is bounded: from a
    position inside the arena it is at most 98 on each axis. *)
Theorem animate_uses_raw_delta (M : MathLib) (perfNow : Q) (dateNow : Z)
        (nowAt : string -> Z) (e : Engine) :
  isRunning e = true ->
  THREE.running (clock e) = true ->
  let dt := (perfNow - THREE.oldTime (clock e)) / 1000 in
  let c := controls e in
  let p := player e in
  let p' := player (fst (animate perfNow dateNow nowAt e)) in
  p' = integrate dt c p /\
  height p' = THREE.lerp (height p) (if crouch c then 1.2 else 1.8) (dt * 10) /\
  (groundContact (beforeGround dt c p) = false ->
     THREE.y (velocity p') = fallSpeed dt c p /\
     THREE.y (position p') = THREE.y (position p) + fallSpeed dt c p * dt) /\
  (inArena p ->
     Qabs (THREE.x (position p') - THREE.x (position p)) <= 98 /\
     Qabs (THREE.z (position p') - THREE.z (position p)) <= 98).
Proof.
  intros Hrun Hclock dt c p p'.
  assert (Hp : p' = integrate dt c p).
  { subst p'. rewrite animate_player, Hrun. unfold THREE.getDelta.
    rewrite Hclock, andb_false_r. reflexivity. }
  rewrite Hp. split; [reflexivity |]. split; [apply integrate_height |].
  split.
  - intros Hc. rewrite integrate_vy, integrate_y, Hc. split; reflexivity.
  - intros [Hx Hz]. destruct (integrate_inArena dt c p) as [Hx' Hz'].
    split; [apply (Qabs_diff_le _ _ (-49) 49) | apply (Qabs_diff_le _ _ (-49) 49)];
      assumption.
Qed.

Lemma animate_uses_raw_delta_witness :
  isRunning jumpEngine = true /\
  THREE.running (clock jumpEngine) = true /\
  height (player (fst (animate (H := Approx.math) 5000 5000
                               (fun _ => 5000%Z) jumpEngine)))
  = THREE.lerp 1.8 1.8 ((5000 - 0) / 1000 * 10).
Proof.
  split; [reflexivity | split; [reflexivity |]].
  apply (animate_uses_raw_delta Approx.math 5000 5000 (fun _ => 5000%Z)
                                jumpEngine); reflexivity.
Defined.

(** *** The position report *)

Section Report.

Context `{MathLib}.

Lemma reportDue_spec now last : reportDue now last = true <-> (50 < now - last)%Z.
Proof. unfold reportDue. apply Z.ltb_lt. Qed.

Lemma updatePlayer_callbacks now dt e :
  snd (updatePlayer now dt e) =
    if reportDue now (lastUpdateTime e)
    then [onPositionUpdate (position (player (fst (updatePlayer now dt e))))
                           (rotation (player (fst (updatePlayer now dt e))))]
    else [].
Proof. reflexivity. Qed.

Lemma updatePlayer_lastUpdateTime now dt e :
  lastUpdateTime (fst (updatePlayer now dt e)) =
    if reportDue now (lastUpdateTime e) then now else lastUpdateTime e.
Proof. reflexivity. Qed.

Lemma forEachBullet_callbacks dt nowAt cur ps bs :
  existsb isReport (snd (forEachBullet dt nowAt cur ps bs)) = false.
Proof.
  induction bs as [| [id b] bs IH]; [reflexivity |].
  cbn [forEachBullet]. unfold bulletTick.
  destruct (forEachBullet dt nowAt cur ps bs) as [[rest rms] cbs].
  cbn [snd] in *. rewrite existsb_app, IH, orb_false_r.
  induction (victims cur ps (moveBullet dt b)) as [| v vs IHv];
    [reflexivity | exact IHv].
Qed.

Lemma updateBullets_frame dt nowAt e :
  lastUpdateTime (fst (updateBullets dt nowAt e)) = lastUpdateTime e /\
  existsb isReport (snd (updateBullets dt nowAt e)) = false.
Proof.
  unfold updateBullets.
  pose proof (forEachBullet_callbacks dt nowAt (currentPlayerId e)
                (players e) (bullets e)) as Hcb.
  destruct (forEachBullet dt nowAt _ _ _) as [[bs rm] cbs].
  destruct (fold_left _ _ _) as [sc bs']. split; [reflexivity | exact Hcb].
Qed.

(** What a frame does to the throttle. *)
Lemma animate_report perfNow dateNow nowAt e :
  let due := isRunning e && reportDue dateNow (lastUpdateTime e) in
  existsb isReport (snd (animate perfNow dateNow nowAt e)) = due /\
  lastUpdateTime (fst (animate perfNow dateNow nowAt e)) =
    if due then dateNow else lastUpdateTime e.
Proof.
  unfold animate. destruct (isRunning e); cbn [negb andb]; [| split; reflexivity].
  destruct (THREE.getDelta perfNow (clock e)) as [dt c].
  pose proof (updatePlayer_callbacks dateNow dt (withClock c e)) as Hcb.
  pose proof (updatePlayer_lastUpdateTime dateNow dt (withClock c e)) as Hl.
  destruct (updatePlayer dateNow dt (withClock c e)) as [e1 cb1].
  destruct (updateBullets_frame dt nowAt e1) as [Hl2 Hcb2].
  destruct (updateBullets dt nowAt e1) as [e2 cb2].
  cbn [fst snd withClock lastUpdateTime] in *.
  rewrite existsb_app, Hcb2, orb_false_r, Hl2, Hl, Hcb.
  destruct (reportDue dateNow (lastUpdateTime e)); split; reflexivity.
Qed.

Lemma step_lastUpdateTime e i :
  match i with Frame _ _ _ => True
          | _ => lastUpdateTime (fst (step e i)) = lastUpdateTime e end.
Proof.
  destruct i; cbn [step fst]; try reflexivity; try exact I.
  - unfold onMouseMove. destruct locked; reflexivity.
  - destruct gameState; reflexivity.
Qed.

Lemma reportTimes_spaced inputs : forall e,
  spaced (lastUpdateTime e) (reportTimes e inputs).
Proof.
  induction inputs as [| i inputs IH]; intros e; [exact I |].
  cbn [reportTimes].
  pose proof (step_lastUpdateTime e i) as Hs.
  destruct i;
    try (destruct (step e _) as [e1 cb1]; cbn [fst] in Hs; rewrite <- Hs; apply IH).
  cbn [step].
  destruct (animate_report perfNow dateNow nowAt e) as [Hr Hl].
  destruct (animate perfNow dateNow nowAt e) as [e1 cb1]. cbn [fst snd] in *.
  rewrite Hr. destruct (isRunning e); cbn [andb] in *.
  - destruct (reportDue dateNow (lastUpdateTime e)) eqn:Hd.
    + cbn [spaced]. split; [now apply reportDue_spec |].
      rewrite <- Hl. apply IH.
    + rewrite <- Hl. apply IH.
  - rewrite <- Hl. apply IH.
Qed.

End Report.

(** C7, as the code has it.  [updatePlayer] makes a position report exactly
    when MORE than 50 ms separate the reading of [Date.now()] from
    [lastUpdateTime]; the report carries the position and the pitch and yaw
    the tick ends with, and [lastUpdateTime] becomes that reading; otherwise
    nothing is sent and [lastUpdateTime] is kept.  Hence, over any sequence
    of events, the readings at which reports are made lie more than 50 ms
    apart, the first more than 50 ms after the initial [lastUpdateTime]. *)
Theorem position_report_throttle :
  forall (M : MathLib) (now : Z) (dt : Q) (e : Engine),
    let e' := fst (updatePlayer now dt e) in
    snd (updatePlayer now dt e) =
      (if (50 <? now - lastUpdateTime e)%Z
       then [onPositionUpdate (position (player e')) (rotation (player e'))]
       else []) /\
    lastUpdateTime e' =
      (if (50 <? now - lastUpdateTime e)%Z then now else lastUpdateTime e) /\
    (forall e0 inputs, spaced (lastUpdateTime e0) (reportTimes e0 inputs)).
Proof.
  intros M now dt e e'. split; [reflexivity | split; [reflexivity |]].
  intros e0 inputs. apply reportTimes_spaced.
Qed.

(** C7 as stated fails at the boundary: exactly 50 ms after the last
    report the tick sends nothing. *)
Lemma no_report_at_50ms :
  (50 <= 50 - lastUpdateTime jumpEngine)%Z /\
  snd (updatePlayer (H := Approx.math) 50 0.016 jumpEngine) = [] /\
  lastUpdateTime (fst (updatePlayer (H := Approx.math) 50 0.016 jumpEngine))
  = 0%Z.
Proof. split; [cbn; lia | split; reflexivity]. Qed.

(** One millisecond later the report is made. *)
Example report_at_51ms :
  existsb isReport (snd (updatePlayer (H := Approx.math) 51 0.016 jumpEngine))
  = true.
Proof. reflexivity. Qed.

(** *** The ground-clamp scenario *)

(** C8.  Player at [(0, 0.9, 0)] with height 1.8 and velocity [(0, -1, 0)],
    no key held, one tick of 0.1 s: the position reached before the
    ground-collision block has [y <= 0.9] ([y] is 0.8 when the player
    starts grounded); the block fires and the tick ends with [y] equal to
    [height / 2 = 0.9], vertical velocity 0 and [isGrounded] true.  The
    outcome is the same for either value of the initial grounded flag and
    for every rotation. *)
Theorem ground_clamp_scenario :
  forall (M : MathLib) (rot : Rotation) (grounded sprinting crouched : bool),
    let p := mkPlayerState (THREE.mkVector3 0 0.9 0) (THREE.mkVector3 0 (-1) 0)
                           rot grounded sprinting crouched 1.8 in
    let q := beforeGround 0.1 noControls p in
    let p' := integrate 0.1 noControls p in
    THREE.y (position q) <= 0.9 /\
    (grounded = true -> THREE.y (position q) == 0.8) /\
    groundContact q = true /\
    height p' / 2 == 0.9 /\
    THREE.y (position p') == 0.9 /\
    THREE.y (velocity p') == 0 /\
    isGrounded p' = true.
Proof.
  intros M rot grounded sprinting crouched p q p'.
  assert (Hy : THREE.y (position q) == 0.9 + (if grounded then -1 else -1 - 25 * 0.1) * 0.1).
  { subst q. rewrite beforeGround_y. unfold fallSpeed, launched. subst p.
    cbn [jump noControls andb isGrounded velocity position THREE.y].
    destruct grounded; reflexivity. }
  assert (Hh : height q == 1.8).
  { subst q. rewrite beforeGround_height. subst p.
    cbn [crouch noControls height]. vm_compute. reflexivity. }
  assert (Hc : groundContact q = true).
  { unfold groundContact. apply le_spec. rewrite Hy, Hh. destruct grounded; qlin. }
  subst p'. rewrite integrate_height, integrate_y, integrate_vy, integrate_grounded.
  fold q. rewrite Hc.
  assert (Hl : THREE.lerp (height p) (if crouch noControls then 1.2 else 1.8)
                          (0.1 * 10) == 1.8) by (vm_compute; reflexivity).
  split; [rewrite Hy; destruct grounded; lra |].
  split; [intros ->; rewrite Hy; lra |].
  split; [reflexivity |].
  split; [rewrite Hl; vm_compute; reflexivity |].
  split; [rewrite Hl; vm_compute; reflexivity |].
  split; reflexivity.
Qed.

End PlayerProps.

(* ===================================================================== *)
(** ** Properties of the authority's [hitPlayer] *)
(* ===================================================================== *)

Module AuthorityProps.

Import JS JSFacts Authority Scenarios Spec.
Local Open Scope Q_scope.

Lemma hitPlayer_rejected now bulletId victimId db :
  rejected db bulletId victimId ->
  hitPlayer now bulletId victimId db = (db, None).
Proof.
  unfold rejected, hitPlayer.
  intros [Hb | [Hv | [(b & Hb & Hs) | (v & Hv & Ha)]]].
  - rewrite Hb. reflexivity.
  - rewrite Hv. destruct (bullets db !! bulletId); reflexivity.
  - rewrite Hb, Hs. destruct (players db !! victimId); reflexivity.
  - rewrite Hv, Ha.
    destruct (bullets db !! bulletId) as [b |]; [| reflexivity].
    destruct (players db !! Schema.playerId b); reflexivity.
Qed.

Lemma hitPlayer_accepted now bulletId victimId db bullet victim shooter :
  valid db bulletId victimId bullet victim shooter ->
  hitPlayer now bulletId victimId db =
    accepted now bulletId victimId db bullet victim shooter.
Proof.
  intros (Hb & Hv & Hs & Ha). unfold hitPlayer, accepted.
  rewrite Hb, Hv, Hs, Ha. cbn [negb].
  destruct (isDead victim bullet); reflexivity.
Qed.

(** The victim's stored health and the shooter's stored kill count after an
    accepted hit (shooter and victim may be the same player). *)
Lemma accepted_victim now bulletId victimId db bullet victim shooter :
  valid db bulletId victimId bullet victim shooter ->
  exists victim',
    players (fst (accepted now bulletId victimId db bullet victim shooter))
      !! victimId = Some victim' /\
    Schema.health victim' = newHealth victim bullet /\
    Schema.isAlive victim' = negb (isDead victim bullet).
Proof.
  intros (Hb & Hv & Hs & Ha). unfold accepted. cbn [fst players].
  destruct (isDead victim bullet) eqn:Hd.
  - destruct (decide (Schema.playerId bullet = victimId)) as [-> | Hne].
    + rewrite lookup_alter_eq, lookup_alter_eq, Hv. cbn.
      eexists; split; [reflexivity |]. cbn. rewrite Hd. auto.
    + rewrite lookup_alter_ne by exact Hne. rewrite lookup_alter_eq, Hv. cbn.
      eexists; split; [reflexivity |]. cbn. rewrite Hd. auto.
  - rewrite lookup_alter_eq, Hv. cbn.
    eexists; split; [reflexivity |]. cbn. rewrite Hd. auto.
Qed.

Lemma accepted_shooter now bulletId victimId db bullet victim shooter :
  valid db bulletId victimId bullet victim shooter ->
  exists shooter',
    players (fst (accepted now bulletId victimId db bullet victim shooter))
      !! Schema.playerId bullet = Some shooter' /\
    Schema.kills shooter' =
      if isDead victim bullet then Schema.kills shooter + 1
      else Schema.kills shooter.
Proof.
  intros (Hb & Hv & Hs & Ha). unfold accepted. cbn [fst players].
  destruct (isDead victim bullet) eqn:Hd.
  - rewrite lookup_alter_eq.
    destruct (decide (victimId = Schema.playerId bullet)) as [He | Hne].
    + rewrite <- He, lookup_alter_eq, Hv. cbn. eexists; split; reflexivity.
    + rewrite lookup_alter_ne by exact Hne. rewrite Hs. cbn.
      eexists; split; reflexivity.
  - destruct (decide (victimId = Schema.playerId bullet)) as [He | Hne].
    + rewrite <- He in Hs |- *. rewrite lookup_alter_eq, Hv. cbn.
      eexists; split; [reflexivity |]. cbn. congruence.
    + rewrite lookup_alter_ne by exact Hne. rewrite Hs.
      eexists; split; reflexivity.
Qed.

Lemma newHealth_nonneg victim bullet : 0 <= newHealth victim bullet.
Proof. apply Math_max_lb_l. Qed.

Lemma isDead_spec victim bullet :
  isDead victim bullet = true <-> newHealth victim bullet == 0.
Proof.
  unfold isDead. rewrite le_spec.
  pose proof (newHealth_nonneg victim bullet). split; intros; lra.
Qed.

Lemma rejected_or_valid db bulletId victimId :
  rejected db bulletId victimId \/
  exists bullet victim shooter, valid db bulletId victimId bullet victim shooter.
Proof.
  unfold rejected, valid.
  destruct (bullets db !! bulletId) as [b |] eqn:Hb; [| auto].
  destruct (players db !! victimId) as [v |] eqn:Hv; [| auto].
  destruct (players db !! Schema.playerId b) as [s |] eqn:Hs;
    [| left; right; right; left; eauto].
  destruct (Schema.isAlive v) eqn:Ha.
  - right. exists b, v, s. auto.
  - left. right. right. right. eauto.
Qed.

Lemma db0_valid : valid db0 "b1" "bob" shot bob alice.
Proof. repeat split. Defined.

(** C9.  A hit report with an unknown bullet id, an unknown victim id, a
    missing shooter record or a victim that is not alive returns [null] and
    leaves the database as it was.  Every other report is accepted: the
    victim's health becomes [Math.max(0, health - damage)], a kill is
    recorded when that is 0, the bullet record is deleted, and the result
    is [{hit: true, damage: bullet.damage, killed}]. *)
Theorem hitPlayer_contract (now : Z) (bulletId victimId : string) (db : Db) :
  (rejected db bulletId victimId ->
     hitPlayer now bulletId victimId db = (db, None)) /\
  (forall bullet victim shooter,
      valid db bulletId victimId bullet victim shooter ->
      let db' := fst (hitPlayer now bulletId victimId db) in
      snd (hitPlayer now bulletId victimId db) =
        Some (mkHitResult true (Schema.damage bullet) (isDead victim bullet)) /\
      (exists victim',
          players db' !! victimId = Some victim' /\
          Schema.health victim' =
            Math_max 0 (Schema.health victim - Schema.damage bullet)) /\
      bullets db' !! bulletId = None /\
      bullets db' = delete bulletId (bullets db) /\
      kills db' =
        (if isDead victim bullet
         then kills db ++ [killRecord now victimId victim shooter bullet]
         else kills db)) /\
  (rejected db bulletId victimId \/
   exists bullet victim shooter, valid db bulletId victimId bullet victim shooter).
Proof.
  split; [apply hitPlayer_rejected |]. split; [| apply rejected_or_valid].
  intros bullet victim shooter Hvalid db'. subst db'.
  rewrite (hitPlayer_accepted _ _ _ _ _ _ _ Hvalid).
  destruct (accepted_victim now _ _ _ _ _ _ Hvalid) as (v' & Hv' & Hh & _).
  split; [reflexivity |]. split; [exists v'; split; assumption |].
  split; [apply lookup_delete_eq |]. split; reflexivity.
Qed.

Lemma hitPlayer_contract_witness :
  valid db0 "b1" "bob" shot bob alice /\
  snd (hitPlayer 7 "b1" "bob" db0) = Some (mkHitResult true 25 true).
Proof.
  split; [exact db0_valid |].
  exact (proj1 (proj1 (proj2 (hitPlayer_contract 7 "b1" "bob" db0))
                      shot bob alice db0_valid)).
Defined.

(** A second report for the same bullet finds no bullet and is rejected:
    nothing changes. *)
Example second_hit_rejected :
  let db1 := fst (hitPlayer 7 "b1" "bob" db0) in
  hitPlayer 8 "b1" "alice" db1 = (db1, None).
Proof.
  intros db1. apply hitPlayer_rejected. left. subst db1.
  rewrite (hitPlayer_accepted 7 _ _ _ _ _ _ db0_valid).
  apply lookup_delete_eq.
Qed.

Lemma accepted_health_nonneg now bulletId victimId db bullet victim shooter :
  valid db bulletId victimId bullet victim shooter ->
  (forall id p, players db !! id = Some p -> 0 <= Schema.health p) ->
  forall id p,
    players (fst (accepted now bulletId victimId db bullet victim shooter))
      !! id = Some p ->
    0 <= Schema.health p.
Proof.
  intros Hvalid Hinv id p. unfold accepted. cbn [fst players].
  assert (Hps1 : forall q,
             alter (patchVictim victim bullet) victimId (players db) !! id
             = Some q -> 0 <= Schema.health q).
  { intros q Hq. apply lookup_alter_Some in Hq
      as [(_ & x & Hx & ->) | (_ & Hq)].
    - apply newHealth_nonneg.
    - exact (Hinv id q Hq). }
  destruct (isDead victim bullet); [| apply Hps1].
  intros Hq. apply lookup_alter_Some in Hq as [(_ & x & Hx & ->) | (_ & Hq)].
  - exact (Hps1 x Hx).
  - exact (Hps1 p Hq).
Qed.

(** C10.  After an accepted [hitPlayer] the victim's health is
    [Math.max(0, health - damage)], which is never negative; the result
    says [killed] exactly when that health is 0, and exactly then the
    shooter's kill count is incremented and one kill entry is appended.
    Whatever the report, accepted or not, no player's health is negative
    afterwards if none was before. *)
Theorem hitPlayer_health_and_kills (now : Z) (bulletId victimId : string)
        (db : Db) :
  (forall bullet victim shooter,
      valid db bulletId victimId bullet victim shooter ->
      let db' := fst (hitPlayer now bulletId victimId db) in
      exists victim' shooter' res,
        snd (hitPlayer now bulletId victimId db) = Some res /\
        players db' !! victimId = Some victim' /\
        players db' !! Schema.playerId bullet = Some shooter' /\
        Schema.health victim' =
          Math_max 0 (Schema.health victim - Schema.damage bullet) /\
        0 <= Schema.health victim' /\
        (killed res = true <-> Schema.health victim' == 0) /\
        (Schema.health victim' == 0 ->
           Schema.kills shooter' = Schema.kills shooter + 1 /\
           kills db' =
             kills db ++ [killRecord now victimId victim shooter bullet]) /\
        (~ Schema.health victim' == 0 ->
           Schema.kills shooter' = Schema.kills shooter /\
           kills db' = kills db)) /\
  ((forall id p, players db !! id = Some p -> 0 <= Schema.health p) ->
   forall id p,
     players (fst (hitPlayer now bulletId victimId db)) !! id = Some p ->
     0 <= Schema.health p).
Proof.
  split.
  - intros bullet victim shooter Hvalid db'. subst db'.
    rewrite (hitPlayer_accepted _ _ _ _ _ _ _ Hvalid).
    destruct (accepted_victim now _ _ _ _ _ _ Hvalid) as (v' & Hv' & Hh & _).
    destruct (accepted_shooter now _ _ _ _ _ _ Hvalid) as (s' & Hs' & Hk).
    exists v', s', (mkHitResult true (Schema.damage bullet) (isDead victim bullet)).
    split; [reflexivity |]. split; [exact Hv' |]. split; [exact Hs' |].
    split; [exact Hh |]. rewrite Hh.
    split; [apply newHealth_nonneg |].
    split; [apply isDead_spec |].
    unfold accepted; cbn [fst kills]. fold (newHealth victim bullet).
    split; intros H0.
    + apply isDead_spec in H0. rewrite H0 in *. auto.
    + destruct (isDead victim bullet) eqn:Hd; [| auto].
      exfalso. apply H0. now apply isDead_spec.
  - intros Hinv id p.
    destruct (rejected_or_valid db bulletId victimId) as [Hr | (b & v & s & Hvalid)].
    + rewrite (hitPlayer_rejected now _ _ _ Hr). apply Hinv.
    + rewrite (hitPlayer_accepted _ _ _ _ _ _ _ Hvalid).
      now apply accepted_health_nonneg.
Qed.

Lemma hitPlayer_health_and_kills_witness :
  valid db0 "b1" "bob" shot bob alice /\
  exists victim' shooter' res,
    snd (hitPlayer 7 "b1" "bob" db0) = Some res /\
    players (fst (hitPlayer 7 "b1" "bob" db0)) !! "bob" = Some victim' /\
    players (fst (hitPlayer 7 "b1" "bob" db0)) !! "alice" = Some shooter' /\
    Schema.health victim' = Math_max 0 (25 - 25) /\
    0 <= Schema.health victim' /\
    (killed res = true <-> Schema.health victim' == 0) /\
    (Schema.health victim' == 0 ->
       Schema.kills shooter' = 0 + 1 /\
       kills (fst (hitPlayer 7 "b1" "bob" db0)) =
         [] ++ [killRecord 7 "bob" bob alice shot]) /\
    (~ Schema.health victim' == 0 ->
       Schema.kills shooter' = 0 /\
       kills (fst (hitPlayer 7 "b1" "bob" db0)) = []).
Proof.
  split; [exact db0_valid |].
  exact (proj1 (hitPlayer_health_and_kills 7 "b1" "bob" db0)
               shot bob alice db0_valid).
Defined.

End AuthorityProps.

(* ===================================================================== *)
(** ** Properties of the Projectile Simulator ([updateBullets]) *)
(* ===================================================================== *)

Module BulletProps.

Import JS JSFacts GameEngine Scenarios Spec.
Local Open Scope Q_scope.

(** *** The [Map] operations *)

Section MapFacts.

Context {V : Type}.
Implicit Types (m : list (string * V)) (k : string).

Lemma mapGet_cons k k' v m :
  mapGet k ((k', v) :: m) = if String.eqb k' k then Some v else mapGet k m.
Proof. unfold mapGet. cbn. destruct (String.eqb k' k); reflexivity. Qed.

Lemma mapGet_mapDelete k k' m :
  mapGet k (mapDelete k' m) = if String.eqb k' k then None else mapGet k m.
Proof.
  induction m as [| [k0 v0] m IH].
  - cbn. destruct (String.eqb k' k); reflexivity.
  - unfold mapDelete in *. cbn [List.filter fst].
    destruct (String.eqb k0 k') eqn:E0; cbn [negb].
    + apply String.eqb_eq in E0 as ->. rewrite IH, mapGet_cons.
      destruct (String.eqb k' k); reflexivity.
    + rewrite !mapGet_cons, IH.
      destruct (String.eqb k0 k) eqn:E1; [| reflexivity].
      apply String.eqb_eq in E1 as ->. now rewrite String.eqb_sym, E0.
Qed.

Lemma mapGet_None_notin k m : mapGet k m = None <-> ~ In k (keys m).
Proof.
  induction m as [| [k0 v0] m IH]; [cbn; tauto |].
  rewrite mapGet_cons. cbn [keys List.map fst In].
  destruct (String.eqb k0 k) eqn:E.
  - apply String.eqb_eq in E. split; [discriminate | intros Hn; tauto].
  - apply String.eqb_neq in E. unfold keys in IH. rewrite IH. tauto.
Qed.

Lemma mapGet_In k v m :
  List.NoDup (keys m) -> In (k, v) m -> mapGet k m = Some v.
Proof.
  induction m as [| [k0 v0] m IH]; [intros _ [] |].
  cbn [keys List.map fst]. intros Hnd Hin. apply NoDup_cons_iff in Hnd as [Hk Hnd].
  rewrite mapGet_cons. destruct Hin as [[= -> ->] | Hin].
  - now rewrite String.eqb_refl.
  - destruct (String.eqb k0 k) eqn:E; [| now apply IH].
    apply String.eqb_eq in E as ->. exfalso. apply Hk.
    apply (in_map fst) in Hin. exact Hin.
Qed.

Lemma mapGet_Some_In k v m : mapGet k m = Some v -> In (k, v) m.
Proof.
  induction m as [| [k0 v0] m IH]; [discriminate |].
  rewrite mapGet_cons. destruct (String.eqb k0 k) eqn:E.
  - apply String.eqb_eq in E as ->. intros [= ->]. now left.
  - intros Hm. right. now apply IH.
Qed.

Lemma mapHas_mapGet k m : mapHas k m = false <-> mapGet k m = None.
Proof.
  induction m as [| [k0 v0] m IH]; [cbn; tauto |].
  rewrite mapGet_cons. cbn [mapHas existsb fst].
  destruct (String.eqb k0 k); cbn [orb]; [split; discriminate | exact IH].
Qed.

Lemma mapGet_mapSet k k' v m :
  mapGet k (mapSet k' v m) = if String.eqb k' k then Some v else mapGet k m.
Proof.
  induction m as [| [k0 v0] m IH]; cbn [mapSet].
  - rewrite mapGet_cons. reflexivity.
  - destruct (String.eqb k0 k') eqn:E0.
    + apply String.eqb_eq in E0 as ->. rewrite !mapGet_cons.
      destruct (String.eqb k' k); reflexivity.
    + rewrite !mapGet_cons, IH. destruct (String.eqb k0 k) eqn:E1; [| reflexivity].
      apply String.eqb_eq in E1 as ->. now rewrite String.eqb_sym, E0.
Qed.

End MapFacts.

(** *** The two loops of [updateBullets] *)

Lemma In_pushed (c : bool) (id id' : string) :
  In id' (if c then [id] else []) <-> id' = id /\ c = true.
Proof.
  destruct c; cbn; [| intuition discriminate].
  split; [intros [<- | []]; auto | intros [-> _]; auto].
Qed.

Lemma In_pushed_hits (vs : list string) (id id' : string) :
  In id' (List.map (fun _ => id) vs) <->
  id' = id /\ negb (match vs with [] => true | _ => false end) = true.
Proof.
  destruct vs as [| v vs]; cbn; [intuition discriminate |].
  split; [| intros [-> _]; auto].
  intros [<- | Hin]; [auto |].
  apply in_map_iff in Hin as (? & <- & _). auto.
Qed.

Section Loops.

Context `{MathLib}.

Variables (dt : Q) (nowAt : string -> Z) (cur : string)
          (ps : list (string * PlayerObj)).

Lemma bulletTick_removals id b id' :
  In id' (snd (fst (bulletTick dt (nowAt id) cur ps id b))) <->
  id' = id /\ doomed dt nowAt cur ps id b = true.
Proof.
  unfold bulletTick, doomed. cbn [fst snd].
  rewrite !in_app_iff, !In_pushed, In_pushed_hits, !orb_true_iff. tauto.
Qed.

Lemma forEachBullet_moved bs :
  fst (fst (forEachBullet dt nowAt cur ps bs)) =
    List.map (fun kv => (fst kv, moveBullet dt (snd kv))) bs.
Proof.
  induction bs as [| [id b] bs IH]; [reflexivity |].
  cbn [forEachBullet]. unfold bulletTick.
  destruct (forEachBullet dt nowAt cur ps bs) as [[rest rms] cbs].
  cbn in *. now rewrite IH.
Qed.

Lemma forEachBullet_removals bs id :
  In id (snd (fst (forEachBullet dt nowAt cur ps bs))) <->
  exists b, In (id, b) bs /\ doomed dt nowAt cur ps id b = true.
Proof.
  induction bs as [| [id0 b0] bs IH].
  - cbn. split; [intros [] | intros (b & [] & _)].
  - cbn [forEachBullet].
    pose proof (bulletTick_removals id0 b0 id) as Ht.
    destruct (bulletTick dt (nowAt id0) cur ps id0 b0) as [[b' rm] cb].
    destruct (forEachBullet dt nowAt cur ps bs) as [[rest rms] cbs].
    cbn [fst snd] in *. rewrite in_app_iff, Ht, IH. split.
    + intros [[-> Hd] | (b & Hin & Hd)].
      * exists b0. split; [now left | exact Hd].
      * exists b. split; [now right | exact Hd].
    + intros (b & [[= -> ->] | Hin] & Hd); [left; auto | right; eauto].
Qed.

Lemma forEachBullet_hits bs :
  snd (forEachBullet dt nowAt cur ps bs) =
    flat_map (fun kv => List.map (onHit (fst kv))
                                 (victims cur ps (moveBullet dt (snd kv)))) bs.
Proof.
  induction bs as [| [id b] bs IH]; [reflexivity |].
  cbn [forEachBullet flat_map]. unfold bulletTick.
  destruct (forEachBullet dt nowAt cur ps bs) as [[rest rms] cbs].
  cbn in *. now rewrite IH.
Qed.

Lemma removeBullet_get st id k :
  mapGet k (snd (removeBullet st id)) =
    if String.eqb id k then None else mapGet k (snd st).
Proof.
  unfold removeBullet. destruct (mapGet id (snd st)) eqn:E; cbn [snd].
  - apply mapGet_mapDelete.
  - destruct (String.eqb id k) eqn:Ek; [| reflexivity].
    apply String.eqb_eq in Ek as <-. exact E.
Qed.

Lemma removeAll_get rm : forall st k,
  mapGet k (snd (fold_left removeBullet rm st)) =
    if existsb (fun id => String.eqb id k) rm then None else mapGet k (snd st).
Proof.
  induction rm as [| id rm IH]; intros st k; [reflexivity |].
  cbn [fold_left existsb]. rewrite IH, removeBullet_get.
  destruct (String.eqb id k); cbn [orb];
    destruct (existsb _ rm); reflexivity.
Qed.

End Loops.

(** *** One call of [updateBullets] *)

Section Tick.

Context `{MathLib}.

Variables (dt : Q) (nowAt : string -> Z) (e : Engine).

Let cur := currentPlayerId e.
Let ps := players e.

Lemma updateBullets_get k :
  mapGet k (bullets (fst (updateBullets dt nowAt e))) =
    if existsb (fun id => String.eqb id k)
               (snd (fst (forEachBullet dt nowAt cur ps (bullets e))))
    then None
    else mapGet k (List.map (fun kv => (fst kv, moveBullet dt (snd kv)))
                            (bullets e)).
Proof.
  unfold updateBullets. fold cur ps.
  pose proof (forEachBullet_moved dt nowAt cur ps (bullets e)) as Hm.
  destruct (forEachBullet dt nowAt cur ps (bullets e)) as [[bs rm] cbs].
  cbn [fst snd] in *.
  pose proof (removeAll_get rm (scene e, bs) k) as Hr.
  destruct (fold_left removeBullet rm (scene e, bs)) as [sc bs'].
  cbn [fst snd bullets] in *. now rewrite Hr, Hm.
Qed.

Lemma updateBullets_hits :
  snd (updateBullets dt nowAt e) =
    flat_map (fun kv => List.map (onHit (fst kv))
                                 (victims cur ps (moveBullet dt (snd kv))))
             (bullets e).
Proof.
  unfold updateBullets. fold cur ps.
  pose proof (forEachBullet_hits dt nowAt cur ps (bullets e)) as Hh.
  destruct (forEachBullet dt nowAt cur ps (bullets e)) as [[bs rm] cbs].
  destruct (fold_left removeBullet rm (scene e, bs)) as [sc bs'].
  exact Hh.
Qed.

Lemma doomed_removed id b :
  In (id, b) (bullets e) -> doomed dt nowAt cur ps id b = true ->
  mapGet id (bullets (fst (updateBullets dt nowAt e))) = None.
Proof.
  intros Hin Hd. rewrite updateBullets_get.
  assert (Hex : existsb (fun id' => String.eqb id' id)
                  (snd (fst (forEachBullet dt nowAt cur ps (bullets e))))
                = true).
  { apply existsb_exists. exists id. split; [| apply String.eqb_refl].
    apply forEachBullet_removals. eauto. }
  now rewrite Hex.
Qed.

Lemma spared_kept id b :
  List.NoDup (keys (bullets e)) ->
  In (id, b) (bullets e) -> doomed dt nowAt cur ps id b = false ->
  mapGet id (bullets (fst (updateBullets dt nowAt e)))
  = Some (moveBullet dt b).
Proof.
  intros Hnd Hin Hd. rewrite updateBullets_get.
  assert (Hex : existsb (fun id' => String.eqb id' id)
                  (snd (fst (forEachBullet dt nowAt cur ps (bullets e))))
                = false).
  { apply not_true_iff_false. intros Hex.
    apply existsb_exists in Hex as (id' & Hin' & Heq).
    apply String.eqb_eq in Heq as ->.
    apply forEachBullet_removals in Hin' as (b2 & Hin2 & Hd2).
    pose proof (mapGet_In _ _ _ Hnd Hin) as H1.
    pose proof (mapGet_In _ _ _ Hnd Hin2) as H2.
    rewrite H1 in H2. injection H2 as <-. congruence. }
  rewrite Hex. apply mapGet_In.
  - unfold keys in *. rewrite List.map_map. cbn [fst]. exact Hnd.
  - apply (in_map (fun kv => (fst kv, moveBullet dt (snd kv)))) in Hin.
    exact Hin.
Qed.

Lemma victims_spec b v :
  In v (victims cur ps b) <->
  exists po, In (v, po) ps /\ v <> cur /\
             THREE.distanceTo (bmesh b) (mesh po) < 0.5.
Proof.
  unfold victims. rewrite in_map_iff. split.
  - intros ([v' po] & Hv & Hf). cbn [fst] in Hv. subst v'.
    apply filter_In in Hf as [Hin Hc]. exists po. split; [exact Hin |].
    unfold collides in Hc. cbn [fst snd] in Hc.
    apply andb_prop in Hc as [Hne Hd]. split.
    + apply negb_true_iff in Hne. now apply String.eqb_neq.
    + now apply lt_spec.
  - intros (po & Hin & Hne & Hd). exists (v, po). split; [reflexivity |].
    apply filter_In. split; [exact Hin |]. unfold collides. cbn [fst snd].
    apply andb_true_intro. split.
    + apply negb_true_iff. now apply String.eqb_neq.
    + now apply lt_spec.
Qed.

Lemma hit_In id v :
  In (onHit id v) (snd (updateBullets dt nowAt e)) <->
  exists b, In (id, b) (bullets e) /\ In v (victims cur ps (moveBullet dt b)).
Proof.
  rewrite updateBullets_hits, in_flat_map. split.
  - intros ([id' b] & Hin & Hv). cbn [fst snd] in Hv.
    apply in_map_iff in Hv as (v' & [= -> ->] & Hv). eauto.
  - intros (b & Hin & Hv). exists (id, b). split; [exact Hin |].
    cbn [fst snd]. now apply in_map.
Qed.

Lemma victims_NoDup b : List.NoDup (keys ps) -> List.NoDup (victims cur ps b).
Proof.
  unfold victims, keys. generalize ps. intros l.
  induction l as [| [k po] l IH]; cbn [List.map List.filter fst];
    [constructor |].
  intros Hnd. apply NoDup_cons_iff in Hnd as [Hk Hnd].
  destruct (collides cur b (k, po)); [| now apply IH].
  cbn [List.map fst]. constructor; [| now apply IH].
  intros Hin. apply Hk. apply in_map_iff in Hin as (kv & <- & Hf).
  apply filter_In in Hf as [Hf _]. now apply in_map.
Qed.

Lemma onHit_NoDup id vs :
  List.NoDup vs -> List.NoDup (List.map (onHit id) vs).
Proof.
  induction vs as [| v vs IH]; cbn [List.map]; [constructor |].
  intros Hnd. apply NoDup_cons_iff in Hnd as [Hv Hnd].
  constructor; [| now apply IH].
  intros Hin. apply in_map_iff in Hin as (v' & [= ->] & Hin). now apply Hv.
Qed.

Lemma hits_NoDup :
  List.NoDup (keys (bullets e)) -> List.NoDup (keys ps) ->
  List.NoDup (snd (updateBullets dt nowAt e)).
Proof.
  intros Hb Hp. rewrite updateBullets_hits. unfold keys in Hb.
  induction (bullets e) as [| [id b] bs IH]; cbn [flat_map]; [constructor |].
  cbn [List.map fst snd] in *. apply NoDup_cons_iff in Hb as [Hid Hb].
  apply List.NoDup_app.
  - apply onHit_NoDup. now apply victims_NoDup.
  - now apply IH.
  - intros cb Hcb Hrest. apply in_map_iff in Hcb as (v & <- & _).
    apply in_flat_map in Hrest as ([id' b'] & Hin & Hv). cbn [fst snd] in Hv.
    apply in_map_iff in Hv as (v' & [= -> _] & _).
    apply Hid. apply (in_map fst) in Hin. exact Hin.
Qed.

End Tick.

(** *** Projectiles taken from a snapshot *)

Lemma reconcileBullet_get st d k :
  mapGet k (snd (reconcileBullet st d)) =
    match mapGet k (snd st) with
    | Some b => Some b
    | None => if String.eqb (Schema._id d) k
              then Some (spawnBullet (Schema.fields d)) else None
    end.
Proof.
  unfold reconcileBullet.
  destruct (mapHas (Schema._id d) (snd st)) eqn:Eh; cbn [snd].
  - destruct (mapGet k (snd st)) eqn:Ek; [reflexivity |].
    destruct (String.eqb (Schema._id d) k) eqn:E; [| reflexivity].
    apply String.eqb_eq in E. rewrite E in Eh.
    apply mapHas_mapGet in Ek. congruence.
  - rewrite mapGet_mapSet. destruct (String.eqb (Schema._id d) k) eqn:E.
    + apply String.eqb_eq in E. rewrite E in Eh. apply mapHas_mapGet in Eh.
      now rewrite Eh.
    + destruct (mapGet k (snd st)); reflexivity.
Qed.

Lemma reconcileBullets_get docs : forall st k,
  mapGet k (snd (fold_left reconcileBullet docs st)) =
    match mapGet k (snd st) with
    | Some b => Some b
    | None =>
        (fun d => spawnBullet (Schema.fields d))
          <$> List.find (fun d => String.eqb (Schema._id d) k) docs
    end.
Proof.
  induction docs as [| d docs IH]; intros st k; cbn [fold_left List.find].
  - destruct (mapGet k (snd st)); reflexivity.
  - rewrite IH, reconcileBullet_get.
    destruct (mapGet k (snd st)); [reflexivity |].
    destruct (String.eqb (Schema._id d) k); reflexivity.
Qed.

Lemma updateGameState_bullet gs docs e k :
  Schema.gs_bullets gs = Some docs ->
  mapGet k (bullets (updateGameState (Some gs) e)) =
    match mapGet k (bullets e) with
    | Some b => Some b
    | None =>
        (fun d => spawnBullet (Schema.fields d))
          <$> List.find (fun d => String.eqb (Schema._id d) k) docs
    end.
Proof.
  intros Hd. unfold updateGameState. cbn [bullets]. rewrite Hd.
  cbn [orEmpty]. now rewrite reconcileBullets_get.
Qed.

(** *** Hit events *)

(** C2 as stated fails: a projectile that reaches the spot where two remote
    players stand emits two hit events in the same tick, one per player. *)
Lemma two_hits_in_one_tick :
  snd (updateBullets (H := Approx.math) 0.01 (fun _ => 10%Z) twoTargets)
  = [onHit "b1" "p1"; onHit "b1" "p2"] /\
  ~ (List.length
       (snd (updateBullets (H := Approx.math) 0.01 (fun _ => 10%Z) twoTargets))
     <= 1)%nat.
Proof.
  assert (Hh : snd (updateBullets (H := Approx.math) 0.01 (fun _ => 10%Z)
                                  twoTargets)
               = [onHit "b1" "p1"; onHit "b1" "p2"]) by (vm_compute; reflexivity).
  split; [exact Hh |]. rewrite Hh. cbn. lia.
Qed.

(** C2, as the code has it.  In one call of [updateBullets] the hit events
    are, bullet by bullet in the order of [this.bullets], one event for
    every entry of [this.players] other than the current player whose mesh
    is less than 0.5 away from the bullet's new position, in the order of
    [this.players]: every matching player gets an event, not only the
    first.  A bullet with a hit event is gone from [this.bullets] after the
    call.  As the keys of a [Map] are distinct, no event occurs twice: there
    is at most one event per bullet and player. *)
Theorem hit_events_per_tick (M : MathLib) (dt : Q) (nowAt : string -> Z)
        (e : Engine) :
  let cur := currentPlayerId e in
  let e' := fst (updateBullets dt nowAt e) in
  let cbs := snd (updateBullets dt nowAt e) in
  cbs = flat_map (fun kv => List.map (onHit (fst kv))
                              (victims cur (players e) (moveBullet dt (snd kv))))
                 (bullets e) /\
  (forall id v,
      In (onHit id v) cbs <->
      exists b po,
        In (id, b) (bullets e) /\ In (v, po) (players e) /\ v <> cur /\
        THREE.distanceTo (bmesh (moveBullet dt b)) (mesh po) < 0.5) /\
  (forall id v, In (onHit id v) cbs -> mapGet id (bullets e') = None) /\
  (List.NoDup (keys (bullets e)) -> List.NoDup (keys (players e)) ->
   List.NoDup cbs).
Proof.
  intros cur e' cbs. subst cur e' cbs.
  split; [apply updateBullets_hits |]. split; [| split].
  - intros id v. rewrite hit_In. split.
    + intros (b & Hin & Hv). apply victims_spec in Hv as (po & Hp & Hne & Hd).
      exists b, po. auto.
    + intros (b & po & Hin & Hp & Hne & Hd). exists b. split; [exact Hin |].
      apply victims_spec. eauto.
  - intros id v Hin. apply hit_In in Hin as (b & Hin & Hv).
    apply (doomed_removed dt nowAt e id b Hin).
    unfold doomed. destruct (victims _ _ _); [destruct Hv |].
    cbn [negb]. apply orb_true_r.
  - apply hits_NoDup.
Qed.

Lemma hit_events_per_tick_witness :
  List.NoDup (keys (bullets twoTargets)) /\
  List.NoDup (keys (players twoTargets)) /\
  List.NoDup (snd (updateBullets (H := Approx.math) 0.01 (fun _ => 10%Z)
                                 twoTargets)).
Proof.
  assert (Hb : List.NoDup (keys (bullets twoTargets))).
  { vm_compute. repeat constructor. intros []. }
  assert (Hp : List.NoDup (keys (players twoTargets))).
  { vm_compute. repeat constructor; cbn; intuition discriminate. }
  split; [exact Hb | split; [exact Hp |]].
  exact (proj2 (proj2 (proj2 (hit_events_per_tick Approx.math 0.01
                                (fun _ => 10%Z) twoTargets))) Hb Hp).
Defined.

(** *** Expiry *)

(** C5 as stated fails at the boundary: in the tick in which the age of a
    projectile is exactly 5000 ms it is still in flight inside the arena
    and [updateBullets] keeps it. *)
Lemma bullet_kept_at_5000ms :
  (exists b, mapGet "b1" (bullets oneBullet) = Some b /\
             (5000 - startTime b >= 5000)%Z) /\
  mapHas "b1" (bullets (fst (updateBullets (H := Approx.math) 0.01
                                           (fun _ => 5000%Z) oneBullet)))
  = true.
Proof.
  split; [| vm_compute; reflexivity].
  eexists. split; [vm_compute; reflexivity |]. cbn. lia.
Qed.

(** One millisecond later it is removed. *)
Example bullet_removed_at_5001ms :
  mapHas "b1" (bullets (fst (updateBullets (H := Approx.math) 0.01
                                           (fun _ => 5001%Z) oneBullet)))
  = false.
Proof. vm_compute. reflexivity. Qed.

(** C5, as the code has it.  The age of a projectile is the reading of
    [Date.now()] minus its [startTime].  A call of [updateBullets] that
    finds the age above 5000 ms removes the projectile.  A call that finds
    the age at or below 5000 ms does not remove it for its age: the
    projectile stays, moved by [velocity * deltaTime], unless it left the
    bounds or hit a player in that call.  For a projectile first seen in a
    snapshot, [startTime] is the [timestamp] of the authority's record. *)
Theorem bullet_expiry (M : MathLib) (dt : Q) (nowAt : string -> Z)
        (e : Engine) (id : string) (b : Bullet) :
  List.NoDup (keys (bullets e)) ->
  In (id, b) (bullets e) ->
  let e' := fst (updateBullets dt nowAt e) in
  let age := (nowAt id - startTime b)%Z in
  ((5000 < age)%Z -> mapGet id (bullets e') = None) /\
  ((age <= 5000)%Z ->
     tooOld (nowAt id) (moveBullet dt b) = false /\
     (outOfBounds (moveBullet dt b) = false ->
      victims (currentPlayerId e) (players e) (moveBullet dt b) = [] ->
      mapGet id (bullets e') = Some (moveBullet dt b))) /\
  (forall gs docs d e0,
      Schema.gs_bullets gs = Some docs ->
      mapGet (Schema._id d) (bullets e0) = None ->
      List.find (fun d' => String.eqb (Schema._id d') (Schema._id d)) docs
      = Some d ->
      exists b0,
        mapGet (Schema._id d) (bullets (updateGameState (Some gs) e0))
        = Some b0 /\
        startTime b0 = Schema.timestamp (Schema.fields d)).
Proof.
  intros Hnd Hin e' age. subst e' age. split; [| split].
  - intros Hage. apply (doomed_removed dt nowAt e id b Hin).
    unfold doomed, tooOld. cbn [moveBullet startTime].
    apply Z.ltb_lt in Hage. now rewrite Hage.
  - intros Hage.
    assert (Ht : tooOld (nowAt id) (moveBullet dt b) = false).
    { unfold tooOld. cbn [moveBullet startTime]. apply Z.ltb_ge. exact Hage. }
    split; [exact Ht |]. intros Ho Hv.
    apply (spared_kept dt nowAt e id b Hnd Hin).
    unfold doomed. now rewrite Ht, Ho, Hv.
  - intros gs docs d e0 Hdocs Hnew Hfind.
    rewrite (updateGameState_bullet gs docs e0 _ Hdocs), Hnew, Hfind.
    cbn. eexists. split; reflexivity.
Qed.

Lemma bullet_expiry_witness :
  List.NoDup (keys (bullets oneBullet)) /\
  In ("b1", spawnBullet (Schema.fields round)) (bullets oneBullet) /\
  mapGet "b1" (bullets (fst (updateBullets (H := Approx.math) 0.01
                                           (fun _ => 5001%Z) oneBullet)))
  = None.
Proof.
  assert (Hb : List.NoDup (keys (bullets oneBullet))).
  { vm_compute. repeat constructor. intros []. }
  assert (Hin : In ("b1", spawnBullet (Schema.fields round)) (bullets oneBullet)).
  { left. reflexivity. }
  split; [exact Hb | split; [exact Hin |]].
  apply (proj1 (bullet_expiry Approx.math 0.01 (fun _ => 5001%Z) oneBullet
                              "b1" _ Hb Hin)).
  cbn. lia.
Defined.

End BulletProps.

(* ===================================================================== *)
(** ** Properties of the Remote State Reconciler ([updateGameState]) *)
(* ===================================================================== *)

Module ReconcileProps.

Import JS JSFacts GameEngine Scenarios Spec.

(** *** Scene and map counting *)

Lemma inScene_add o o' sc :
  inScene o (sceneAdd o' sc) =
    (inScene o sc + if decide (o' = o) then 1 else 0)%nat.
Proof.
  unfold inScene, sceneAdd. rewrite count_occ_app. cbn [count_occ].
  destruct (Object3D_eq_dec o' o), (decide (o' = o)); congruence.
Qed.

Lemma inScene_remove_ne o o' sc :
  o' <> o -> inScene o (sceneRemove o' sc) = inScene o sc.
Proof.
  intros Hne. unfold inScene.
  induction sc as [| a sc IH]; [reflexivity |]. cbn [sceneRemove].
  destruct (decide (a = o')) as [-> | Ha].
  - cbn [count_occ]. destruct (Object3D_eq_dec o' o); congruence.
  - cbn [count_occ]. rewrite IH. reflexivity.
Qed.

Lemma inScene_remove_eq o sc :
  inScene o (sceneRemove o sc) = pred (inScene o sc).
Proof.
  unfold inScene.
  induction sc as [| a sc IH]; [reflexivity |]. cbn [sceneRemove].
  destruct (decide (a = o)) as [-> | Ha].
  - cbn [count_occ]. destruct (Object3D_eq_dec o o); [reflexivity | congruence].
  - cbn [count_occ]. destruct (Object3D_eq_dec a o); [congruence | exact IH].
Qed.

Section Entries.

Context {V : Type}.
Implicit Types (m : list (string * V)).

Lemma entries_cons id k v m :
  entries id ((k, v) :: m) =
    ((if String.eqb k id then 1 else 0) + entries id m)%nat.
Proof.
  unfold entries. cbn [keys List.map fst count_occ].
  destruct (String.string_dec k id) as [-> | Hne].
  - now rewrite String.eqb_refl.
  - apply String.eqb_neq in Hne. now rewrite Hne.
Qed.

Lemma entries_mapSet_ne id k v m :
  k <> id -> entries id (mapSet k v m) = entries id m.
Proof.
  intros Hne. apply String.eqb_neq in Hne.
  induction m as [| [k0 v0] m IH]; cbn [mapSet].
  - rewrite entries_cons, Hne. reflexivity.
  - destruct (String.eqb k0 k) eqn:E.
    + apply String.eqb_eq in E as ->. now rewrite !entries_cons.
    + now rewrite !entries_cons, IH.
Qed.

Lemma entries_mapSet_new id v m :
  entries id m = 0%nat -> entries id (mapSet id v m) = 1%nat.
Proof.
  induction m as [| [k0 v0] m IH]; cbn [mapSet].
  - intros _. now rewrite entries_cons, String.eqb_refl.
  - rewrite entries_cons. destruct (String.eqb k0 id) eqn:E; [discriminate |].
    intros H0. rewrite entries_cons, E. now apply IH.
Qed.

Lemma entries_mapSet_known id v m :
  entries id m = 1%nat -> entries id (mapSet id v m) = 1%nat.
Proof.
  induction m as [| [k0 v0] m IH]; cbn [mapSet]; [discriminate |].
  rewrite entries_cons. destruct (String.eqb k0 id) eqn:E.
  - intros H1. now rewrite entries_cons, String.eqb_refl.
  - intros H1. rewrite entries_cons, E. now apply IH.
Qed.

Lemma entries_mapDelete id k m :
  entries id (mapDelete k m) = if String.eqb k id then 0%nat else entries id m.
Proof.
  induction m as [| [k0 v0] m IH].
  - cbn. destruct (String.eqb k id); reflexivity.
  - unfold mapDelete in *. cbn [List.filter fst].
    destruct (String.eqb k0 k) eqn:E0; cbn [negb].
    + apply String.eqb_eq in E0 as ->. rewrite IH, entries_cons.
      destruct (String.eqb k id); reflexivity.
    + rewrite !entries_cons, IH. destruct (String.eqb k id) eqn:E1; [| reflexivity].
      apply String.eqb_eq in E1 as ->. now rewrite E0.
Qed.

Lemma entries_mapGet id m : entries id m = 0%nat <-> mapGet id m = None.
Proof.
  induction m as [| [k0 v0] m IH]; [cbn; tauto |].
  rewrite entries_cons. unfold mapGet in *. cbn [List.find fst].
  destruct (String.eqb k0 id); cbn; [split; discriminate | exact IH].
Qed.

End Entries.

(** *** The three loops of [updateGameState] *)

Section Loops.

Variables (cur id : string).

Lemma PlayerMesh_ne k : k <> id -> PlayerMesh k <> PlayerMesh id.
Proof. congruence. Qed.

Lemma NameTag_ne k : k <> id -> NameTag k <> NameTag id.
Proof. congruence. Qed.

Lemma reconcilePlayer_other st d :
  Schema._id d <> id -> handle id (reconcilePlayer cur st d) = handle id st.
Proof.
  intros Hne. unfold reconcilePlayer, handle.
  destruct (String.eqb (Schema._id d) cur); [reflexivity |].
  destruct (mapGet (Schema._id d) (snd st)); cbn [fst snd].
  - now rewrite entries_mapSet_ne.
  - rewrite !inScene_add, entries_mapSet_ne by exact Hne.
    repeat (destruct (decide _) as [? | ?]; [congruence |]).
    now rewrite !Nat.add_0_r.
Qed.

Lemma reconcilePlayer_new st d :
  Schema._id d = id -> id <> cur -> entries id (snd st) = 0%nat ->
  handle id (reconcilePlayer cur st d) =
    (S (inScene (PlayerMesh id) (fst st)), S (inScene (NameTag id) (fst st)),
     1%nat).
Proof.
  intros Hid Hcur H0. unfold reconcilePlayer, handle. rewrite Hid.
  apply String.eqb_neq in Hcur. rewrite Hcur.
  pose proof (proj1 (entries_mapGet _ _) H0) as Hg. rewrite Hg. cbn [fst snd].
  rewrite !inScene_add, entries_mapSet_new by exact H0.
  repeat (destruct (decide _) as [? | ?]; try congruence).
  now rewrite ?Nat.add_0_r, ?Nat.add_1_r.
Qed.

Lemma reconcilePlayer_known st d :
  entries id (snd st) = 1%nat ->
  handle id (reconcilePlayer cur st d) = handle id st.
Proof.
  intros H1. destruct (String.eqb (Schema._id d) id) eqn:E.
  - apply String.eqb_eq in E. unfold reconcilePlayer, handle. rewrite E.
    destruct (String.eqb id cur); [reflexivity |].
    destruct (mapGet id (snd st)) eqn:Hg; cbn [fst snd].
    + now rewrite entries_mapSet_known, H1.
    + apply entries_mapGet in Hg. congruence.
  - apply String.eqb_neq in E. now apply reconcilePlayer_other.
Qed.

Lemma reconcilePlayers_known docs : forall st,
  entries id (snd st) = 1%nat ->
  handle id (fold_left (reconcilePlayer cur) docs st) = handle id st.
Proof.
  induction docs as [| d docs IH]; intros st H1; [reflexivity |].
  cbn [fold_left]. pose proof (reconcilePlayer_known st d H1) as Hs.
  rewrite IH; [exact Hs |].
  unfold handle in Hs. injection Hs as _ _ He. congruence.
Qed.

Lemma reconcilePlayers_unlisted docs : forall st,
  existsb (fun d => String.eqb (Schema._id d) id) docs = false ->
  handle id (fold_left (reconcilePlayer cur) docs st) = handle id st.
Proof.
  induction docs as [| d docs IH]; intros st Hl; [reflexivity |].
  cbn [fold_left existsb] in *. apply orb_false_elim in Hl as [Hd Hl].
  apply String.eqb_neq in Hd. rewrite IH by exact Hl.
  now apply reconcilePlayer_other.
Qed.

Lemma reconcilePlayers_new docs : forall st,
  existsb (fun d => String.eqb (Schema._id d) id) docs = true ->
  id <> cur -> entries id (snd st) = 0%nat ->
  handle id (fold_left (reconcilePlayer cur) docs st) =
    (S (inScene (PlayerMesh id) (fst st)), S (inScene (NameTag id) (fst st)),
     1%nat).
Proof.
  induction docs as [| d docs IH]; intros st Hl Hcur H0; [discriminate |].
  cbn [fold_left existsb] in *.
  destruct (String.eqb (Schema._id d) id) eqn:E.
  - apply String.eqb_eq in E.
    pose proof (reconcilePlayer_new st d E Hcur H0) as Hs.
    rewrite reconcilePlayers_known; [exact Hs |].
    unfold handle in Hs. injection Hs as _ _ He. exact He.
  - cbn [orb] in Hl. apply String.eqb_neq in E.
    pose proof (reconcilePlayer_other st d E) as Hs.
    unfold handle in Hs. injection Hs as Hm Ht He.
    rewrite IH; [now rewrite Hm, Ht | exact Hl | exact Hcur | congruence].
Qed.

Variable ps : option (list (Schema.Doc Schema.Player)).

Lemma dropPlayer_other st k :
  k <> id \/ listed ps id = true -> handle id (dropPlayer ps st k) = handle id st.
Proof.
  intros Hk. unfold dropPlayer, handle.
  destruct (listed ps k) eqn:El; [reflexivity |]. cbn [fst snd].
  assert (Hne : k <> id) by (destruct Hk as [Hk | Hk]; congruence).
  rewrite !inScene_remove_ne, entries_mapDelete by congruence.
  apply String.eqb_neq in Hne. now rewrite Hne.
Qed.

Lemma dropPlayers_other ks : forall st,
  count_occ String.string_dec ks id = 0%nat \/ listed ps id = true ->
  handle id (fold_left (dropPlayer ps) ks st) = handle id st.
Proof.
  induction ks as [| k ks IH]; intros st Hk; [reflexivity |].
  cbn [fold_left]. rewrite IH.
  - apply dropPlayer_other. destruct Hk as [Hk | Hk]; [left | now right].
    intros ->. cbn [count_occ] in Hk.
    destruct (String.string_dec id id); [discriminate | congruence].
  - destruct Hk as [Hk | Hk]; [left | now right].
    cbn [count_occ] in Hk. destruct (String.string_dec k id); [discriminate | exact Hk].
Qed.

Lemma dropPlayers_gone ks : forall st,
  listed ps id = false -> count_occ String.string_dec ks id = 1%nat ->
  handle id (fold_left (dropPlayer ps) ks st) =
    (pred (inScene (PlayerMesh id) (fst st)),
     pred (inScene (NameTag id) (fst st)), 0%nat).
Proof.
  induction ks as [| k ks IH]; intros st Hl Hc; [discriminate |].
  cbn [fold_left count_occ] in *.
  destruct (String.string_dec k id) as [-> | Hne].
  - injection Hc as Hc. rewrite dropPlayers_other by (now left).
    unfold dropPlayer, handle. rewrite Hl. cbn [fst snd].
    rewrite entries_mapDelete, String.eqb_refl.
    rewrite (inScene_remove_ne (PlayerMesh id) (NameTag id)) by discriminate.
    rewrite !inScene_remove_eq.
    rewrite (inScene_remove_ne (NameTag id) (PlayerMesh id)) by discriminate.
    reflexivity.
  - pose proof (dropPlayer_other st k (or_introl Hne)) as Hs.
    unfold handle in Hs. injection Hs as Hm Ht He.
    rewrite IH by assumption. now rewrite Hm, Ht.
Qed.

Lemma reconcileBullets_scene o docs : forall st,
  (forall k, o <> BulletMesh k) ->
  inScene o (fst (fold_left reconcileBullet docs st)) = inScene o (fst st).
Proof.
  induction docs as [| d docs IH]; intros st Ho; [reflexivity |].
  cbn [fold_left]. rewrite IH by exact Ho. unfold reconcileBullet.
  destruct (mapHas (Schema._id d) (snd st)); [reflexivity |]. cbn [fst].
  rewrite inScene_add. destruct (decide _) as [Heq | _]; [| lia].
  exfalso. exact (Ho _ (eq_sym Heq)).
Qed.

End Loops.

Lemma listed_Some docs id :
  listed (Some docs) id = existsb (fun d => String.eqb (Schema._id d) id) docs.
Proof. reflexivity. Qed.

(** The handle of [id] after [updateGameState], in terms of the state after
    the two player loops. *)
Lemma updateGameState_handle gs e id :
  handle id (scene (updateGameState (Some gs) e),
             players (updateGameState (Some gs) e)) =
    handle id
      (let st1 := fold_left (reconcilePlayer (currentPlayerId e))
                            (orEmpty (Schema.gs_players gs))
                            (scene e, players e) in
       fold_left (dropPlayer (Schema.gs_players gs)) (keys (snd st1)) st1).
Proof.
  unfold updateGameState, handle. cbn [scene players fst snd].
  rewrite !reconcileBullets_scene by discriminate. reflexivity.
Qed.

(** C6.  For every snapshot [updateGameState] processes: a listed remote
    identifier (one other than the current player's) that has no entry in
    [this.players] gets exactly one entry, and exactly one mesh and one name
    tag are added to the scene for it; an identifier that has an entry but
    is not listed in the snapshot loses the entry, and its mesh and name
    tag are taken out of the scene; and in every case, [null] snapshot
    included, [this.player] is what it was. *)
Theorem reconcile_remote_players (gs : Schema.GameState) (e : Engine)
        (id : string) :
  let e' := updateGameState (Some gs) e in
  (id <> currentPlayerId e ->
   listed (Schema.gs_players gs) id = true ->
   entries id (players e) = 0%nat ->
     entries id (players e') = 1%nat /\
     inScene (PlayerMesh id) (scene e') = S (inScene (PlayerMesh id) (scene e)) /\
     inScene (NameTag id) (scene e') = S (inScene (NameTag id) (scene e))) /\
  (listed (Schema.gs_players gs) id = false ->
   entries id (players e) = 1%nat ->
     entries id (players e') = 0%nat /\
     inScene (PlayerMesh id) (scene e')
     = pred (inScene (PlayerMesh id) (scene e)) /\
     inScene (NameTag id) (scene e') = pred (inScene (NameTag id) (scene e))) /\
  (forall gameState, player (updateGameState gameState e) = player e).
Proof.
  intros e'. split; [| split].
  - intros Hcur Hl H0.
    assert (Hh : handle id (scene e', players e') =
                 (S (inScene (PlayerMesh id) (scene e)),
                  S (inScene (NameTag id) (scene e)), 1%nat)).
    { subst e'. rewrite updateGameState_handle. cbv zeta.
      destruct (Schema.gs_players gs) as [docs |] eqn:Hd; [| discriminate].
      rewrite listed_Some in Hl. cbn [orEmpty].
      rewrite dropPlayers_other by (right; exact Hl).
      exact (reconcilePlayers_new (currentPlayerId e) id docs
               (scene e, players e) Hl Hcur H0). }
    unfold handle in Hh. cbn [fst snd] in Hh. injection Hh as Hm Ht He. auto.
  - intros Hl H1.
    assert (Hh : handle id (scene e', players e') =
                 (pred (inScene (PlayerMesh id) (scene e)),
                  pred (inScene (NameTag id) (scene e)), 0%nat)).
    { subst e'. rewrite updateGameState_handle. cbv zeta.
      set (st1 := fold_left (reconcilePlayer (currentPlayerId e))
                            (orEmpty (Schema.gs_players gs))
                            (scene e, players e)).
      assert (H1' : handle id st1 = handle id (scene e, players e)).
      { subst st1. destruct (Schema.gs_players gs) as [docs |]; [| reflexivity].
        apply reconcilePlayers_unlisted. exact Hl. }
      unfold handle in H1'. cbn [fst snd] in H1'. injection H1' as Hm Ht He.
      rewrite dropPlayers_gone; [| exact Hl | unfold entries in *; congruence].
      now rewrite Hm, Ht. }
    unfold handle in Hh. cbn [fst snd] in Hh. injection Hh as Hm Ht He. auto.
  - intros [g |]; reflexivity.
Qed.

Lemma reconcile_remote_players_witness :
  ("p1" <> currentPlayerId arena /\
   listed (Schema.gs_players withP1) "p1" = true /\
   entries "p1" (players arena) = 0%nat) /\
  entries "p1" (players (updateGameState (Some withP1) arena))
  = 1%nat.
Proof.
  assert (H : "p1" <> currentPlayerId arena /\
              listed (Schema.gs_players withP1) "p1" = true /\
              entries "p1" (players arena) = 0%nat).
  { split; [discriminate | split; reflexivity]. }
  split; [exact H |]. destruct H as (H1 & H2 & H3).
  exact (proj1 (proj1 (reconcile_remote_players withP1 arena "p1")
                      H1 H2 H3)).
Defined.

(** The handle appears with the first snapshot and is gone after the
    second; the local player is the same throughout. *)
Example p1_joins_then_leaves :
  let e1 := updateGameState (Some withP1) arena in
  let e2 := updateGameState (Some withoutP1) e1 in
  scene e1 = [PlayerMesh "p1"; NameTag "p1"] /\ keys (players e1) = ["p1"] /\
  scene e2 = [] /\ players e2 = [] /\
  player e2 = player arena.
Proof. vm_compute. repeat split. Qed.

End ReconcileProps.


(* ===================================================================== *)
(** ** Further properties of the player's motion and of the input
       handlers *)
(* ===================================================================== *)

Module MotionProps.

Import JS JSFacts GameEngine Scenarios Spec PlayerProps.
Local Open Scope Q_scope.

Section Blocks.

Context `{MathLib}.

(** The blocks after [movement] leave the horizontal velocity alone. *)
Lemma integrate_horizontal dt c p :
  THREE.x (velocity (integrate dt c p))
  = THREE.x (velocity (movement c (crouching dt c p))) /\
  THREE.z (velocity (integrate dt c p))
  = THREE.z (velocity (movement c (crouching dt c p))).
Proof.
  unfold integrate, boundaryCollision, groundCollision, beforeGround,
    advance, gravity, jumping.
  set (q := movement c (crouching dt c p)).
  destruct (jump c && isGrounded q); cbn [isGrounded negb velocity THREE.x THREE.z];
    destruct (groundContact _); cbn [velocity THREE.x THREE.z];
    try (destruct (isGrounded q); cbn [negb velocity THREE.x THREE.z]);
    auto.
Qed.

Lemma integrate_rotation dt c p : rotation (integrate dt c p) = rotation p.
Proof.
  unfold integrate, boundaryCollision, groundCollision, beforeGround,
    advance, gravity, jumping. cbn [rotation].
  destruct (movement_vertical c (crouching dt c p)) as (_ & _ & _ & _ & Hr).
  destruct (groundContact _); cbn [rotation];
    destruct (jump c && isGrounded _); cbn [rotation isGrounded negb];
    try (destruct (isGrounded (movement c (crouching dt c p)));
         cbn [rotation negb]);
    exact Hr.
Qed.

Lemma integrate_floor dt c p : onOrAboveFloor (integrate dt c p).
Proof.
  unfold onOrAboveFloor. rewrite integrate_y, integrate_height.
  destruct (groundContact (beforeGround dt c p)) eqn:Hc; [apply Qle_refl |].
  unfold groundContact in Hc. apply le_false in Hc.
  rewrite beforeGround_y, beforeGround_height in Hc. now apply Qlt_le_weak.
Qed.

End Blocks.

(** *** What an input does to the player *)

Section Steps.

Context `{MathLib}.

(** An input other than a frame of a running engine leaves position,
    velocity, height and grounded flag alone; a frame of a running engine
    integrates. *)
Lemma step_player e i :
  (position (player (fst (step e i))) = position (player e) /\
   velocity (player (fst (step e i))) = velocity (player e) /\
   isGrounded (player (fst (step e i))) = isGrounded (player e) /\
   height (player (fst (step e i))) = height (player e)) \/
  (exists dt, player (fst (step e i)) = integrate dt (controls e) (player e)).
Proof.
  destruct i; cbn [step fst].
  - left. auto.
  - left. auto.
  - left. unfold onMouseMove. destruct locked; cbn; auto.
  - left. rewrite updateGameState_player. auto.
  - rewrite animate_player. destruct (isRunning e); [right; eauto | left; auto].
Qed.

Lemma updateBullets_controls dt nowAt e :
  controls (fst (updateBullets dt nowAt e)) = controls e.
Proof.
  unfold updateBullets.
  destruct (forEachBullet dt nowAt _ _ _) as [[bs rm] cbs].
  destruct (fold_left _ _ _) as [sc bs']. reflexivity.
Qed.

Lemma animate_controls perfNow dateNow nowAt e :
  controls (fst (animate perfNow dateNow nowAt e)) = controls e.
Proof.
  unfold animate. destruct (isRunning e); cbn [negb]; [| reflexivity].
  destruct (THREE.getDelta perfNow (clock e)) as [dt c].
  destruct (updatePlayer dateNow dt (withClock c e)) as [e1 cb1] eqn:E1.
  pose proof (updateBullets_controls dt nowAt e1) as Hb.
  destruct (updateBullets dt nowAt e1) as [e2 cb2]. cbn [fst] in *.
  rewrite Hb. change e1 with (fst (e1, cb1)). rewrite <- E1. reflexivity.
Qed.

Lemma setControl_jump code b c :
  jump (setControl code b c) =
    if String.eqb code "Space" then b else jump c.
Proof.
  unfold setControl.
  destruct (String.eqb code "KeyW") eqn:E1;
    [apply String.eqb_eq in E1 as ->; reflexivity |].
  destruct (String.eqb code "KeyS") eqn:E2;
    [apply String.eqb_eq in E2 as ->; reflexivity |].
  destruct (String.eqb code "KeyA") eqn:E3;
    [apply String.eqb_eq in E3 as ->; reflexivity |].
  destruct (String.eqb code "KeyD") eqn:E4;
    [apply String.eqb_eq in E4 as ->; reflexivity |].
  destruct (String.eqb code "Space") eqn:E5; [reflexivity |].
  destruct (String.eqb code "ShiftLeft"); [reflexivity |].
  destruct (String.eqb code "ControlLeft"); reflexivity.
Qed.

Lemma step_jump e i :
  notJump i -> jump (controls e) = false ->
  jump (controls (fst (step e i))) = false.
Proof.
  intros Hi Hj. destruct i; cbn [step fst].
  - cbn. rewrite setControl_jump.
    destruct (String.eqb code "Space") eqn:E; [| exact Hj].
    apply String.eqb_eq in E. subst code. now elim Hi.
  - cbn. rewrite setControl_jump. destruct (String.eqb code "Space"); auto.
  - unfold onMouseMove. destruct locked; exact Hj.
  - destruct gameState; exact Hj.
  - now rewrite animate_controls.
Qed.

End Steps.

(** *** The floor *)

(** Whatever the elapsed time, the controls and the state a tick starts
    from, it ends with the player on or above the floor of the
    ground-collision block, [y >= height / 2]; and from such a state no
    sequence of events takes the player below it. *)
Theorem player_never_below_floor :
  forall (M : MathLib),
    (forall now dt e, onOrAboveFloor (player (fst (updatePlayer now dt e)))) /\
    (forall e inputs,
        onOrAboveFloor (player e) ->
        onOrAboveFloor (player (fst (run e inputs)))).
Proof.
  intros M. split.
  - intros now dt e. rewrite updatePlayer_player. apply integrate_floor.
  - intros e inputs. revert e.
    induction inputs as [| i inputs IH]; intros e He; [exact He |].
    cbn [run].
    assert (Hs : onOrAboveFloor (player (fst (step e i)))).
    { destruct (step_player e i) as [(Hp & _ & _ & Hh) | (dt & ->)].
      - unfold onOrAboveFloor in *. now rewrite Hp, Hh.
      - apply integrate_floor. }
    destruct (step e i) as [e1 cb1]. specialize (IH e1 Hs).
    destruct (run e1 inputs) as [e2 cb2]. exact IH.
Qed.

Lemma player_never_below_floor_witness :
  onOrAboveFloor (player jumpEngine) /\
  onOrAboveFloor
    (player (fst (run (H := Approx.math) jumpEngine
                      [Frame 16 16%Z (fun _ => 16%Z);
                       Frame 900 900%Z (fun _ => 900%Z)]))).
Proof.
  assert (H0 : onOrAboveFloor (player jumpEngine)).
  { unfold onOrAboveFloor. cbn. qlin. }
  split; [exact H0 |].
  exact (proj2 (player_never_below_floor Approx.math) jumpEngine _ H0).
Defined.

(** *** Rest *)

Lemma integrate_atRest `{MathLib} dt c p :
  atRest p -> jump c = false ->
  atRest (integrate dt c p) /\
  THREE.y (position p) <= THREE.y (position (integrate dt c p)).
Proof.
  intros [Hg Hv] Hj. unfold atRest.
  rewrite integrate_grounded, integrate_vy, integrate_y, Hg, Hj.
  assert (Hf : fallSpeed dt c p = THREE.y (velocity p)).
  { unfold fallSpeed, launched. now rewrite Hj, Hg. }
  rewrite Hf.
  destruct (groundContact (beforeGround dt c p)) eqn:Hc; cbn [orb andb negb].
  - split; [split; [reflexivity | apply Qeq_refl] |].
    unfold groundContact in Hc. apply le_spec in Hc.
    rewrite beforeGround_y, beforeGround_height, Hf, Hv in Hc.
    unfold Qdiv in *. lra.
  - split; [split; [reflexivity | exact Hv] |]. rewrite Hv. lra.
Qed.

(** Gravity acts only on a player that is not grounded.  A player at rest
    (grounded, no vertical velocity) stays at rest and never loses height,
    over every sequence of events in which the jump key is not pressed,
    whatever the frame times: it is moved only upwards, by the floor. *)
Theorem grounded_player_never_falls (M : MathLib) (e : Engine)
        (inputs : list Input) :
  atRest (player e) ->
  jump (controls e) = false ->
  Forall notJump inputs ->
  atRest (player (fst (run e inputs))) /\
  THREE.y (position (player e))
  <= THREE.y (position (player (fst (run e inputs)))).
Proof.
  revert e. induction inputs as [| i inputs IH]; intros e Hr Hj Hn.
  - split; [exact Hr | apply Qle_refl].
  - apply Forall_cons_iff in Hn as [Hi Hn]. cbn [run].
    pose proof (step_jump e i Hi Hj) as Hj1.
    assert (Hs : atRest (player (fst (step e i))) /\
                 THREE.y (position (player e))
                 <= THREE.y (position (player (fst (step e i))))).
    { destruct (step_player e i) as [(Hp & Hv & Hg & _) | (dt & ->)].
      - destruct Hr as [Hg0 Hv0]. unfold atRest.
        rewrite Hp, Hv, Hg. repeat split; auto. apply Qle_refl.
      - now apply integrate_atRest. }
    destruct (step e i) as [e1 cb1]. cbn [fst] in *.
    destruct Hs as [Hr1 Hy1]. specialize (IH e1 Hr1 Hj1 Hn).
    destruct (run e1 inputs) as [e2 cb2]. cbn [fst] in *.
    destruct IH as [Hr2 Hy2]. split; [exact Hr2 |].
    eapply Qle_trans; eassumption.
Qed.

Lemma grounded_player_never_falls_witness :
  (atRest (player arena) /\ jump (controls arena) = false /\
   Forall notJump [KeyDown "ControlLeft"; Frame 5000 5000%Z (fun _ => 0%Z)]) /\
  THREE.y (position (player arena))
  <= THREE.y (position (player (fst (run (H := Approx.math) arena
           [KeyDown "ControlLeft"; Frame 5000 5000%Z (fun _ => 0%Z)])))).
Proof.
  assert (H1 : atRest (player arena)) by (split; [reflexivity | apply Qeq_refl]).
  assert (H2 : jump (controls arena) = false) by reflexivity.
  assert (H3 : Forall notJump
                 [KeyDown "ControlLeft"; Frame 5000 5000%Z (fun _ => 0%Z)]).
  { repeat constructor; discriminate. }
  split; [auto |].
  exact (proj2 (grounded_player_never_falls Approx.math arena _ H1 H2 H3)).
Defined.

(** *** Friction *)

Lemma noIntent_direction c :
  noIntent c = true -> THREE.lengthSq (inputDirection c) = 0.
Proof.
  unfold noIntent, inputDirection.
  destruct (forward c), (backward c), (left c), (right c);
    cbn [Bool.eqb andb]; intros Hn; try discriminate Hn; reflexivity.
Qed.

Lemma movement_friction `{MathLib} c p :
  Math_sqrt 0 <= 0 -> noIntent c = true ->
  THREE.x (velocity (movement c p)) = THREE.x (velocity p) * 0.8 /\
  THREE.z (velocity (movement c p)) = THREE.z (velocity p) * 0.8.
Proof.
  intros H0 Hn. unfold movement, THREE.length.
  rewrite (noIntent_direction c Hn).
  assert (Hg : gt (Math_sqrt 0) 0 = false) by now apply gt_false.
  rewrite Hg. cbn. auto.
Qed.

(** With no movement intent (no movement key held, or opposite keys held
    together) each tick multiplies the horizontal velocity by 0.8, whatever
    the elapsed time of the tick: after [n] ticks it is [0.8 ^ n] times what
    it was.  The square root of 0 is taken not to be positive. *)
Theorem friction_is_per_tick (M : MathLib) (c : Controls) (dts : list Q)
        (p : PlayerState) :
  Math_sqrt 0 <= 0 ->
  noIntent c = true ->
  let n := Z.of_nat (List.length dts) in
  THREE.x (velocity (coast c dts p)) == 0.8 ^ n * THREE.x (velocity p) /\
  THREE.z (velocity (coast c dts p)) == 0.8 ^ n * THREE.z (velocity p).
Proof.
  intros H0 Hn. revert p.
  induction dts as [| dt dts IH]; intros p; cbn [coast List.length].
  - cbv zeta. change (0.8 ^ Z.of_nat 0) with 1. split; ring.
  - destruct (IH (integrate dt c p)) as [Hx Hz]. cbv zeta in *.
    destruct (integrate_horizontal dt c p) as [Ex Ez].
    destruct (movement_friction c (crouching dt c p) H0 Hn) as [Fx Fz].
    rewrite Ex, Fx in Hx. rewrite Ez, Fz in Hz. cbn [crouching velocity] in *.
    rewrite Nat2Z.inj_succ, <- Z.add_1_r.
    rewrite Qpower_plus by discriminate.
    rewrite Hx, Hz. split; ring.
Qed.

Lemma friction_is_per_tick_witness :
  (Math_sqrt (MathLib := Approx.math) 0 <= 0 /\ noIntent noControls = true) /\
  THREE.x (velocity (coast (H := Approx.math) noControls [0.016; 3; 0.5]
                           (mkPlayerState THREE.zero (THREE.mkVector3 5 0 0)
                                          (mkRotation 0 0) true false false
                                          1.8)))
  == 0.8 ^ 3 * 5.
Proof.
  assert (H1 : Math_sqrt (MathLib := Approx.math) 0 <= 0)
    by (vm_compute; discriminate).
  assert (H2 : noIntent noControls = true) by reflexivity.
  split; [auto |].
  exact (proj1 (friction_is_per_tick Approx.math noControls [0.016; 3; 0.5]
                  (mkPlayerState THREE.zero (THREE.mkVector3 5 0 0)
                                 (mkRotation 0 0) true false false 1.8)
                  H1 H2)).
Defined.

(** *** Crouch height *)



(** *** Mouse look *)

Lemma onMouseMove_pitch `{MathLib} dx dy e :
  0 <= Math_PI -> pitchInRange (player (onMouseMove true dx dy e)).
Proof.
  intros Hpi. unfold pitchInRange, onMouseMove. cbn [player rotation rx].
  apply clamp_range. qlin.
Qed.

(** A mouse move while the pointer is locked leaves the pitch between
    [-Math.PI / 2] and [Math.PI / 2] (for a non-negative [Math.PI]); a
    mouse move without the lock changes nothing; and from a pitch in that
    range no sequence of events takes it out. *)
Theorem pitch_is_clamped (M : MathLib) :
  0 <= Math_PI ->
  (forall dx dy e, pitchInRange (player (onMouseMove true dx dy e))) /\
  (forall dx dy e, onMouseMove false dx dy e = e) /\
  (forall e inputs,
      pitchInRange (player e) -> pitchInRange (player (fst (run e inputs)))).
Proof.
  intros Hpi. split; [| split].
  - intros dx dy e. now apply onMouseMove_pitch.
  - reflexivity.
  - intros e inputs. revert e.
    induction inputs as [| i inputs IH]; intros e He; [exact He |].
    cbn [run].
    assert (Hs : pitchInRange (player (fst (step e i)))).
    { destruct i; cbn [step fst]; try exact He.
      - destruct locked; [now apply onMouseMove_pitch | exact He].
      - now rewrite updateGameState_player.
      - rewrite animate_player. destruct (isRunning e); [| exact He].
        unfold pitchInRange. now rewrite integrate_rotation. }
    destruct (step e i) as [e1 cb1]. specialize (IH e1 Hs).
    destruct (run e1 inputs) as [e2 cb2]. exact IH.
Qed.

Lemma pitch_is_clamped_witness :
  0 <= Math_PI (MathLib := Approx.math) /\
  pitchInRange (H := Approx.math)
    (player (onMouseMove (H := Approx.math) true 10 5000 arena)).
Proof.
  assert (H1 : 0 <= Math_PI (MathLib := Approx.math))
    by (vm_compute; discriminate).
  split; [exact H1 |].
  exact (proj1 (pitch_is_clamped Approx.math H1) 10 5000 arena).
Defined.

End MotionProps.


(* ===================================================================== *)
(** ** Properties of the simplified engine and of [dispose] *)
(* ===================================================================== *)

Module FallbackProps.

Import JS JSFacts GameEngine Scenarios Spec PlayerProps.
Local Open Scope Q_scope.

Section Fallback.

Context `{MathLib}.









End Fallback.


(** *** [dispose] *)

Lemma stopped_step `{MathLib} e i :
  isRunning e = false ->
  snd (step e i) = [] /\
  isRunning (fst (step e i)) = false /\
  position (player (fst (step e i))) = position (player e) /\
  velocity (player (fst (step e i))) = velocity (player e).
Proof.
  intros Hr. destruct i; cbn [step fst snd].
  - cbn. auto.
  - cbn. auto.
  - unfold onMouseMove. destruct locked; cbn; auto.
  - rewrite updateGameState_player. destruct gameState; cbn; auto.
  - unfold animate. rewrite Hr. cbn. auto.
Qed.

(** After [dispose] the scene is empty and the loop is stopped for good:
    whatever events still arrive (frames already scheduled, snapshots, key
    and mouse events), the engine makes no callback and the player's
    position and velocity stay as they were. *)
Theorem disposed_engine_is_inert :
  forall (M : MathLib) (e : Engine) (inputs : list Input),
    scene (dispose e) = [] /\
    snd (run (dispose e) inputs) = [] /\
    isRunning (fst (run (dispose e) inputs)) = false /\
    position (player (fst (run (dispose e) inputs))) = position (player e) /\
    velocity (player (fst (run (dispose e) inputs))) = velocity (player e).
Proof.
  intros M e inputs. split; [reflexivity |].
  change (position (player e)) with (position (player (dispose e))).
  change (velocity (player e)) with (velocity (player (dispose e))).
  assert (Hr : isRunning (dispose e) = false) by reflexivity.
  revert Hr. generalize (dispose e). clear e.
  induction inputs as [| i inputs IH]; intros e Hr; [cbn; auto |].
  cbn [run]. destruct (stopped_step e i Hr) as (Hcb & Hr1 & Hp & Hv).
  destruct (step e i) as [e1 cb1]. cbn [fst snd] in *.
  destruct (IH e1 Hr1) as (Hcb2 & Hr2 & Hp2 & Hv2).
  destruct (run e1 inputs) as [e2 cb2]. cbn [fst snd] in *.
  subst cb1 cb2. repeat split; congruence.
Qed.

End FallbackProps.


(* ===================================================================== *)
(** ** Further properties of [updateBullets] and [updateGameState] *)
(* ===================================================================== *)

Module SceneProps.

Import JS JSFacts GameEngine Scenarios Spec BulletProps ReconcileProps.
Local Open Scope Q_scope.

(** *** What [updateBullets] leaves in [this.bullets] *)

Lemma mapDelete_absent {V : Type} id (m : list (string * V)) :
  mapGet id m = None -> mapDelete id m = m.
Proof.
  induction m as [| [k v] m IH]; [reflexivity |].
  rewrite mapGet_cons. unfold mapDelete in *. cbn [List.filter fst].
  destruct (String.eqb k id); [discriminate |]. cbn [negb].
  intros Hm. now rewrite IH.
Qed.

Lemma removeBullet_snd st id : snd (removeBullet st id) = mapDelete id (snd st).
Proof.
  unfold removeBullet. destruct (mapGet id (snd st)) eqn:E; [reflexivity |].
  now rewrite mapDelete_absent.
Qed.

Lemma In_mapDelete {V : Type} id k (v : V) m :
  In (k, v) (mapDelete id m) <-> In (k, v) m /\ k <> id.
Proof.
  unfold mapDelete. rewrite filter_In. cbn [fst].
  rewrite negb_true_iff, String.eqb_neq. tauto.
Qed.

Lemma In_removeAll rm : forall st k b,
  In (k, b) (snd (fold_left removeBullet rm st)) <->
  In (k, b) (snd st) /\ ~ In k rm.
Proof.
  induction rm as [| id rm IH]; intros st k b; cbn [fold_left In]; [tauto |].
  rewrite IH, removeBullet_snd, In_mapDelete.
  split; [intros [[Hin Hne] Hn] | intros [Hin Hn]]; repeat split; auto.
  intros [-> | Hr]; auto.
Qed.

Lemma outOfBounds_false b :
  outOfBounds b = false <->
  (-50 <= THREE.x (bmesh b) <= 50) /\ (-50 <= THREE.z (bmesh b) <= 50) /\
  (0 <= THREE.y (bmesh b) <= 10).
Proof.
  unfold outOfBounds, Math_abs.
  rewrite !orb_false_iff, !gt_false, lt_false.
  destruct (le 0 (THREE.x (bmesh b))) eqn:Ex,
           (le 0 (THREE.z (bmesh b))) eqn:Ez;
    try (apply le_spec in Ex); try (apply le_false in Ex);
    try (apply le_spec in Ez); try (apply le_false in Ez);
    split; intros; lra.
Qed.

Section Survivors.

Context `{MathLib}.

Variables (dt : Q) (nowAt : string -> Z) (e : Engine).

Lemma survivor_origin id b' :
  In (id, b') (bullets (fst (updateBullets dt nowAt e))) ->
  exists b, In (id, b) (bullets e) /\ b' = moveBullet dt b /\
            doomed dt nowAt (currentPlayerId e) (players e) id b = false.
Proof.
  unfold updateBullets.
  pose proof (forEachBullet_moved dt nowAt (currentPlayerId e) (players e)
                (bullets e)) as Hm.
  pose proof (forEachBullet_removals dt nowAt (currentPlayerId e) (players e)
                (bullets e) id) as Hrm.
  destruct (forEachBullet dt nowAt _ _ _) as [[bs rm] cbs]. cbn [fst snd] in *.
  pose proof (In_removeAll rm (scene e, bs) id b') as Hin.
  destruct (fold_left removeBullet rm (scene e, bs)) as [sc bs'].
  cbn [fst snd bullets] in *. intros Hb. apply Hin in Hb as [Hb Hn].
  rewrite Hm in Hb. apply in_map_iff in Hb as ([k b] & [= -> <-] & Hb).
  cbn [fst snd]. exists b. split; [exact Hb | split; [reflexivity |]].
  apply not_true_iff_false. intros Hd. apply Hn, Hrm. eauto.
Qed.

End Survivors.

(** Every projectile that [updateBullets] leaves in [this.bullets] is an
    earlier one moved by [velocity * deltaTime]; its age is at most
    5000 ms, it is inside the bounds ([|x|, |z| <= 50], [0 <= y <= 10]) and
    at least 0.5 away from the mesh of every remote player. *)
Theorem surviving_bullets_are_live (M : MathLib) (dt : Q)
        (nowAt : string -> Z) (e : Engine) (id : string) (b' : Bullet) :
  In (id, b') (bullets (fst (updateBullets dt nowAt e))) ->
  (exists b, In (id, b) (bullets e) /\ b' = moveBullet dt b) /\
  (nowAt id - startTime b' <= 5000)%Z /\
  ((-50 <= THREE.x (bmesh b') <= 50) /\ (-50 <= THREE.z (bmesh b') <= 50) /\
   (0 <= THREE.y (bmesh b') <= 10)) /\
  (forall v po,
      In (v, po) (players e) -> v <> currentPlayerId e ->
      0.5 <= THREE.distanceTo (bmesh b') (mesh po)).
Proof.
  intros Hin. apply survivor_origin in Hin as (b & Hb & -> & Hd).
  unfold doomed in Hd. apply orb_false_elim in Hd as [Hd Hv].
  apply orb_false_elim in Hd as [Hold Hout].
  split; [eauto |]. split; [| split].
  - unfold tooOld in Hold. now apply Z.ltb_ge in Hold.
  - now apply outOfBounds_false.
  - intros v po Hp Hne. apply Qnot_lt_le. intros Hlt.
    assert (Hvic : In v (victims (currentPlayerId e) (players e)
                                 (moveBullet dt b))).
    { apply victims_spec. eauto. }
    destruct (victims _ _ _); [destruct Hvic | discriminate Hv].
Qed.

Lemma surviving_bullets_are_live_witness :
  In ("b1", moveBullet 0.01 (spawnBullet (Schema.fields round)))
     (bullets (fst (updateBullets (H := Approx.math) 0.01 (fun _ => 10%Z)
                                  oneBullet))) /\
  (10 - startTime (moveBullet 0.01 (spawnBullet (Schema.fields round)))
   <= 5000)%Z.
Proof.
  assert (Hin : In ("b1", moveBullet 0.01 (spawnBullet (Schema.fields round)))
                  (bullets (fst (updateBullets (H := Approx.math) 0.01
                                               (fun _ => 10%Z) oneBullet)))).
  { left. vm_compute. reflexivity. }
  split; [exact Hin |].
  exact (proj1 (proj2 (surviving_bullets_are_live Approx.math 0.01
                         (fun _ => 10%Z) oneBullet "b1" _ Hin))).
Defined.

(** *** What a snapshot does to [this.bullets] *)

Lemma updateGameState_bullets_get gs e id :
  mapGet id (bullets (updateGameState (Some gs) e)) =
    match mapGet id (bullets e) with
    | Some b => Some b
    | None => (fun d => spawnBullet (Schema.fields d))
                <$> firstListed id (orEmpty (Schema.gs_bullets gs))
    end.
Proof.
  unfold updateGameState, firstListed. cbn [bullets].
  now rewrite reconcileBullets_get.
Qed.

(** A snapshot never removes or changes a projectile that is already in
    [this.bullets], listed or not; a projectile that is not there is
    created from the first record of the snapshot with its id, at the
    record's start position with velocity [direction * speed], and stays
    absent if the snapshot has no such record. *)
Theorem snapshot_never_touches_known_bullets (gs : Schema.GameState)
        (e : Engine) (id : string) :
  let e' := updateGameState (Some gs) e in
  (forall b, mapGet id (bullets e) = Some b ->
             mapGet id (bullets e') = Some b) /\
  (mapGet id (bullets e) = None ->
   mapGet id (bullets e') =
     (fun d => spawnBullet (Schema.fields d))
       <$> firstListed id (orEmpty (Schema.gs_bullets gs))).
Proof.
  intros e'. subst e'. rewrite updateGameState_bullets_get.
  split; [intros b -> | intros ->]; reflexivity.
Qed.

Lemma snapshot_never_touches_known_bullets_witness :
  mapGet "b1" (bullets oneBullet) = Some (spawnBullet (Schema.fields round)) /\
  mapGet "b1" (bullets (updateGameState
                          (Some (Schema.mkGameState None (Some []))) oneBullet))
  = Some (spawnBullet (Schema.fields round)).
Proof.
  assert (H1 : mapGet "b1" (bullets oneBullet)
               = Some (spawnBullet (Schema.fields round))) by reflexivity.
  split; [exact H1 |].
  exact (proj1 (snapshot_never_touches_known_bullets
                  (Schema.mkGameState None (Some [])) oneBullet "b1") _ H1).
Defined.

(** A projectile that [updateBullets] has removed (too old, out of bounds
    or after a hit) is created again, at its start position, by the next
    snapshot that still lists it. *)
Theorem removed_bullet_returns_with_snapshot (M : MathLib) (dt : Q)
        (nowAt : string -> Z) (e : Engine) (gs : Schema.GameState)
        (id : string) (b : Bullet) (d : Schema.Doc Schema.Bullet) :
  In (id, b) (bullets e) ->
  doomed dt nowAt (currentPlayerId e) (players e) id b = true ->
  firstListed id (orEmpty (Schema.gs_bullets gs)) = Some d ->
  let e1 := fst (updateBullets dt nowAt e) in
  mapGet id (bullets e1) = None /\
  mapGet id (bullets (updateGameState (Some gs) e1))
  = Some (spawnBullet (Schema.fields d)).
Proof.
  intros Hin Hd Hf e1.
  assert (H1 : mapGet id (bullets e1) = None)
    by (subst e1; now apply doomed_removed with (b := b)).
  split; [exact H1 |].
  now rewrite updateGameState_bullets_get, H1, Hf.
Qed.

Lemma removed_bullet_returns_with_snapshot_witness :
  (In ("b1", spawnBullet (Schema.fields round)) (bullets oneBullet) /\
   doomed (H := Approx.math) 1 (fun _ => 1000%Z) "me" [] "b1"
          (spawnBullet (Schema.fields round)) = true) /\
  mapGet "b1" (bullets (updateGameState
                          (Some (Schema.mkGameState None (Some [round])))
                          (fst (updateBullets (H := Approx.math) 1
                                              (fun _ => 1000%Z) oneBullet))))
  = Some (spawnBullet (Schema.fields round)).
Proof.
  assert (H1 : In ("b1", spawnBullet (Schema.fields round)) (bullets oneBullet))
    by (left; reflexivity).
  assert (H2 : doomed (H := Approx.math) 1 (fun _ => 1000%Z) "me" [] "b1"
                      (spawnBullet (Schema.fields round)) = true)
    by (vm_compute; reflexivity).
  split; [auto |].
  exact (proj2 (removed_bullet_returns_with_snapshot Approx.math 1
                  (fun _ => 1000%Z) oneBullet
                  (Schema.mkGameState None (Some [round])) "b1" _ round
                  H1 H2 eq_refl)).
Defined.

(** *** What a snapshot does to [this.players] *)

Lemma reconcilePlayer_get cur st d id :
  mapGet id (snd (reconcilePlayer cur st d)) =
    if negb (String.eqb (Schema._id d) cur) && String.eqb (Schema._id d) id
    then Some (playerObjOf (Schema.fields d))
    else mapGet id (snd st).
Proof.
  unfold reconcilePlayer.
  destruct (String.eqb (Schema._id d) cur); cbn [negb andb]; [reflexivity |].
  destruct (mapGet (Schema._id d) (snd st)); cbn [snd];
    rewrite mapGet_mapSet; reflexivity.
Qed.

Lemma reconcilePlayers_get cur id docs : forall st,
  id <> cur ->
  mapGet id (snd (fold_left (reconcilePlayer cur) docs st)) =
    match lastListed id docs with
    | Some d => Some (playerObjOf (Schema.fields d))
    | None => mapGet id (snd st)
    end.
Proof.
  induction docs as [| d docs IH]; intros st Hne; [reflexivity |].
  cbn [fold_left lastListed]. rewrite IH by exact Hne.
  destruct (lastListed id docs); [reflexivity |].
  rewrite reconcilePlayer_get.
  destruct (String.eqb (Schema._id d) id) eqn:E; [| now rewrite andb_false_r].
  apply String.eqb_eq in E. rewrite E.
  apply String.eqb_neq in Hne. now rewrite Hne.
Qed.

Lemma reconcilePlayers_get_cur cur docs : forall st,
  mapGet cur (snd (fold_left (reconcilePlayer cur) docs st))
  = mapGet cur (snd st).
Proof.
  induction docs as [| d docs IH]; intros st; [reflexivity |].
  cbn [fold_left]. rewrite IH, reconcilePlayer_get.
  destruct (String.eqb (Schema._id d) cur); reflexivity.
Qed.

Lemma dropPlayer_get ps st k id :
  mapGet id (snd (dropPlayer ps st k)) =
    if negb (listed ps k) && String.eqb k id then None
    else mapGet id (snd st).
Proof.
  unfold dropPlayer. destruct (listed ps k); cbn [negb andb snd];
    [reflexivity | apply mapGet_mapDelete].
Qed.

Lemma dropPlayers_get ps id ks : forall st,
  mapGet id (snd (fold_left (dropPlayer ps) ks st)) =
    if negb (listed ps id) && existsb (fun k => String.eqb k id) ks
    then None else mapGet id (snd st).
Proof.
  induction ks as [| k ks IH]; intros st; cbn [fold_left existsb].
  - now rewrite andb_false_r.
  - rewrite IH, dropPlayer_get.
    destruct (String.eqb k id) eqn:E.
    + apply String.eqb_eq in E. subst k.
      destruct (listed ps id); cbn [negb andb orb]; [reflexivity |].
      destruct (existsb _ ks); reflexivity.
    + rewrite andb_false_r. reflexivity.
Qed.

Lemma existsb_keys {V : Type} id (m : list (string * V)) :
  existsb (fun k => String.eqb k id) (keys m) = false -> mapGet id m = None.
Proof.
  induction m as [| [k v] m IH]; [reflexivity |].
  cbn [keys List.map fst existsb]. rewrite mapGet_cons.
  destruct (String.eqb k id); cbn [orb]; [discriminate | exact IH].
Qed.

Lemma dropUnlisted_get ps id st :
  mapGet id (snd (fold_left (dropPlayer ps) (keys (snd st)) st)) =
    if listed ps id then mapGet id (snd st) else None.
Proof.
  rewrite dropPlayers_get. destruct (listed ps id); cbn [negb andb];
    [reflexivity |].
  destruct (existsb _ (keys (snd st))) eqn:E; [reflexivity |].
  now apply existsb_keys.
Qed.

Lemma lastListed_listed {A : Type} id (docs : list (Schema.Doc A)) :
  lastListed id docs = None <->
  existsb (fun d => String.eqb (Schema._id d) id) docs = false.
Proof.
  induction docs as [| d docs IH]; [cbn; tauto |].
  cbn [lastListed existsb]. destruct (lastListed id docs).
  - split; [discriminate |]. intros Hf. apply orb_false_elim in Hf as [_ Hf].
    apply IH in Hf. discriminate.
  - destruct (String.eqb (Schema._id d) id); cbn [orb];
      [split; discriminate |]. split; [intros _; now apply IH | reflexivity].
Qed.

(** After a snapshot, [this.players] shows the snapshot: for every
    identifier other than the current player's, the entry is the one made
    from the last listed document with that identifier (mesh at its
    position, colour by [isAlive], name tag 1.5 above), and there is no
    entry if none is listed.  The current player never gets an entry. *)
Theorem snapshot_sets_remote_players (gs : Schema.GameState) (e : Engine)
        (id : string) :
  let e' := updateGameState (Some gs) e in
  (id <> currentPlayerId e ->
   mapGet id (players e') =
     (fun d => playerObjOf (Schema.fields d))
       <$> lastListed id (orEmpty (Schema.gs_players gs))) /\
  (mapGet (currentPlayerId e) (players e) = None ->
   mapGet (currentPlayerId e) (players e') = None).
Proof.
  intros e'. subst e'. unfold updateGameState. cbn [players].
  rewrite !dropUnlisted_get. split.
  - intros Hne. rewrite reconcilePlayers_get by exact Hne.
    destruct (Schema.gs_players gs) as [docs |]; cbn [orEmpty listed];
      [| reflexivity].
    destruct (lastListed id docs) eqn:El.
    + destruct (existsb _ docs) eqn:Ex; [reflexivity |].
      apply lastListed_listed in Ex. congruence.
    + apply lastListed_listed in El. now rewrite El.
  - intros Hc. rewrite reconcilePlayers_get_cur. cbn [snd]. rewrite Hc.
    destruct (listed _ _); reflexivity.
Qed.

Lemma snapshot_sets_remote_players_witness :
  "p1" <> currentPlayerId arena /\
  mapGet "p1" (players (updateGameState (Some withP1) arena))
  = Some (mkPlayerObj (THREE.mkVector3 3 1 4) 0x0066ff%Z
                      (THREE.mkVector3 3 (1 + 1.5) 4)).
Proof.
  assert (H1 : "p1" <> currentPlayerId arena) by discriminate.
  split; [exact H1 |].
  exact (proj1 (snapshot_sets_remote_players withP1 arena "p1") H1).
Defined.

(** *** The scene and the two maps stay in step *)

Section Sync.

Variable id : string.

Lemma reconcilePlayer_sync cur st d :
  playerSync id st -> playerSync id (reconcilePlayer cur st d).
Proof.
  intros (Hle & Hm & Ht). unfold playerSync.
  destruct (String.eqb (Schema._id d) cur) eqn:Ec.
  { unfold reconcilePlayer. rewrite Ec. auto. }
  apply String.eqb_neq in Ec.
  destruct (String.eqb (Schema._id d) id) eqn:Ei.
  - apply String.eqb_eq in Ei.
    assert (Hcur : id <> cur) by congruence.
    destruct (entries id (snd st)) as [| [| n]] eqn:En; [| | lia].
    + pose proof (reconcilePlayer_new cur id st d Ei Hcur En) as Hh.
      unfold handle in Hh. injection Hh as -> -> ->. rewrite Hm, Ht. auto.
    + pose proof (reconcilePlayer_known cur id st d En) as Hh.
      unfold handle in Hh. injection Hh as -> -> ->. rewrite Hm, Ht, En. auto.
  - apply String.eqb_neq in Ei.
    pose proof (reconcilePlayer_other cur id st d Ei) as Hh.
    unfold handle in Hh. injection Hh as -> -> ->. auto.
Qed.

Lemma reconcilePlayer_bulletMesh cur st d :
  inScene (BulletMesh id) (fst (reconcilePlayer cur st d))
  = inScene (BulletMesh id) (fst st).
Proof.
  unfold reconcilePlayer.
  destruct (String.eqb (Schema._id d) cur); [reflexivity |].
  destruct (mapGet (Schema._id d) (snd st)); cbn [fst]; [reflexivity |].
  rewrite !inScene_add.
  repeat (destruct (decide _) as [? | ?]; [discriminate |]). lia.
Qed.

Lemma dropPlayer_sync ps st k :
  playerSync id st -> playerSync id (dropPlayer ps st k).
Proof.
  intros (Hle & Hm & Ht). unfold playerSync.
  destruct (String.eqb k id) eqn:E.
  - apply String.eqb_eq in E. subst k. unfold dropPlayer.
    destruct (listed ps id); [auto |]. cbn [fst snd].
    rewrite entries_mapDelete, String.eqb_refl.
    rewrite (inScene_remove_ne (PlayerMesh id) (NameTag id)) by discriminate.
    rewrite !inScene_remove_eq.
    rewrite (inScene_remove_ne (NameTag id) (PlayerMesh id)) by discriminate.
    rewrite Hm, Ht. repeat split; lia.
  - apply String.eqb_neq in E.
    pose proof (dropPlayer_other id ps st k (or_introl E)) as Hh.
    unfold handle in Hh. injection Hh as -> -> ->. auto.
Qed.

Lemma dropPlayer_bulletMesh ps st k :
  inScene (BulletMesh id) (fst (dropPlayer ps st k))
  = inScene (BulletMesh id) (fst st).
Proof.
  unfold dropPlayer. destruct (listed ps k); [reflexivity |]. cbn [fst].
  now rewrite !inScene_remove_ne by discriminate.
Qed.

Lemma playerLoops_sync cur ps docs st :
  playerSync id st ->
  let st1 := fold_left (reconcilePlayer cur) docs st in
  let st2 := fold_left (dropPlayer ps) (keys (snd st1)) st1 in
  playerSync id st2 /\
  inScene (BulletMesh id) (fst st2) = inScene (BulletMesh id) (fst st).
Proof.
  intros Hs st1 st2.
  assert (H1 : playerSync id st1 /\
               inScene (BulletMesh id) (fst st1)
               = inScene (BulletMesh id) (fst st)).
  { subst st1. clear st2. revert st Hs.
    induction docs as [| d docs IH]; intros st Hs; [auto |].
    cbn [fold_left].
    destruct (IH _ (reconcilePlayer_sync cur st d Hs)) as [Hp Hb].
    split; [exact Hp |]. now rewrite Hb, reconcilePlayer_bulletMesh. }
  destruct H1 as [Hp1 Hb1]. rewrite <- Hb1. subst st2.
  generalize (keys (snd st1)). intros ks. revert Hp1. generalize st1.
  induction ks as [| k ks IH]; intros st0 Hs0; [auto |].
  cbn [fold_left].
  destruct (IH _ (dropPlayer_sync ps st0 k Hs0)) as [Hp Hb].
  split; [exact Hp |]. now rewrite Hb, dropPlayer_bulletMesh.
Qed.

Lemma reconcileBullet_sync st d :
  bulletSync id st -> bulletSync id (reconcileBullet st d).
Proof.
  intros (Hle & Hm). unfold bulletSync, reconcileBullet.
  destruct (mapHas (Schema._id d) (snd st)) eqn:Eh; [auto |]. cbn [fst snd].
  rewrite inScene_add.
  destruct (String.eqb (Schema._id d) id) eqn:Ei.
  - apply String.eqb_eq in Ei. rewrite Ei in *.
    apply mapHas_mapGet, entries_mapGet in Eh.
    rewrite entries_mapSet_new by exact Eh.
    destruct (decide _) as [_ | Hn]; [| congruence]. rewrite Hm, Eh. auto.
  - apply String.eqb_neq in Ei. rewrite entries_mapSet_ne by exact Ei.
    destruct (decide _) as [Heq | _]; [congruence |].
    rewrite Nat.add_0_r. auto.
Qed.

Lemma reconcileBullets_sync docs : forall st,
  bulletSync id st -> bulletSync id (fold_left reconcileBullet docs st).
Proof.
  induction docs as [| d docs IH]; intros st Hs; [exact Hs |].
  cbn [fold_left]. apply IH. now apply reconcileBullet_sync.
Qed.

Lemma removeBullet_sync st r :
  bulletSync id st ->
  bulletSync id (removeBullet st r) /\
  inScene (PlayerMesh id) (fst (removeBullet st r))
  = inScene (PlayerMesh id) (fst st) /\
  inScene (NameTag id) (fst (removeBullet st r))
  = inScene (NameTag id) (fst st).
Proof.
  intros (Hle & Hm). unfold bulletSync, removeBullet.
  destruct (mapGet r (snd st)); [| auto]. cbn [fst snd].
  rewrite (inScene_remove_ne (PlayerMesh id) (BulletMesh r)) by discriminate.
  rewrite (inScene_remove_ne (NameTag id) (BulletMesh r)) by discriminate.
  split; [| auto]. rewrite entries_mapDelete.
  destruct (String.eqb r id) eqn:E.
  - apply String.eqb_eq in E. subst r. rewrite inScene_remove_eq, Hm.
    split; lia.
  - apply String.eqb_neq in E.
    rewrite inScene_remove_ne by congruence. auto.
Qed.

Lemma removeAll_sync rm : forall st,
  bulletSync id st ->
  bulletSync id (fold_left removeBullet rm st) /\
  inScene (PlayerMesh id) (fst (fold_left removeBullet rm st))
  = inScene (PlayerMesh id) (fst st) /\
  inScene (NameTag id) (fst (fold_left removeBullet rm st))
  = inScene (NameTag id) (fst st).
Proof.
  induction rm as [| r rm IH]; intros st Hs; [auto |].
  cbn [fold_left]. destruct (removeBullet_sync st r Hs) as (Hs1 & Hp1 & Ht1).
  destruct (IH _ Hs1) as (Hs2 & Hp2 & Ht2).
  split; [exact Hs2 |]. split; congruence.
Qed.

Lemma entries_moved (f : Bullet -> Bullet) (m : list (string * Bullet)) :
  entries id (List.map (fun kv => (fst kv, f (snd kv))) m) = entries id m.
Proof.
  unfold entries, keys. rewrite List.map_map. reflexivity.
Qed.

Lemma updateGameState_sync gs e :
  syncedAt id e -> syncedAt id (updateGameState gs e).
Proof.
  destruct gs as [gs |]; [| auto].
  intros (Hp & Hm & Ht & Hb & Hbm). unfold syncedAt, updateGameState.
  cbn [scene players bullets].
  destruct (playerLoops_sync (currentPlayerId e) (Schema.gs_players gs)
              (orEmpty (Schema.gs_players gs)) (scene e, players e))
    as [(Hp2 & Hm2 & Ht2) Hb2]; [repeat split; assumption |].
  cbv zeta in *. cbn [fst snd] in *.
  set (st2 := fold_left (dropPlayer _) _ _) in *.
  rewrite !reconcileBullets_scene by discriminate.
  destruct (reconcileBullets_sync (orEmpty (Schema.gs_bullets gs))
              (fst st2, bullets e)) as (Hb3 & Hbm3).
  { split; cbn [fst snd]; [exact Hb | congruence]. }
  repeat split; assumption.
Qed.

Lemma updateBullets_sync `{MathLib} dt nowAt e :
  syncedAt id e -> syncedAt id (fst (updateBullets dt nowAt e)).
Proof.
  intros (Hp & Hm & Ht & Hb & Hbm). unfold syncedAt, updateBullets.
  pose proof (forEachBullet_moved dt nowAt (currentPlayerId e) (players e)
                (bullets e)) as Hmv.
  destruct (forEachBullet dt nowAt _ _ _) as [[bs rm] cbs]. cbn [fst snd] in *.
  destruct (removeAll_sync rm (scene e, bs)) as ((Hb2 & Hbm2) & Hp2 & Ht2).
  { split; cbn [fst snd]; rewrite Hmv, entries_moved; assumption. }
  destruct (fold_left removeBullet rm (scene e, bs)) as [sc bs'].
  cbn [fst snd scene players bullets] in *.
  repeat split; congruence.
Qed.

Lemma step_sync `{MathLib} e i :
  syncedAt id e -> syncedAt id (fst (step e i)).
Proof.
  intros Hs. destruct i; cbn [step fst].
  - exact Hs.
  - exact Hs.
  - unfold onMouseMove. destruct locked; exact Hs.
  - now apply updateGameState_sync.
  - unfold animate. destruct (isRunning e); cbn [negb fst]; [| exact Hs].
    destruct (THREE.getDelta perfNow (clock e)) as [dt c].
    pose proof (updateBullets_sync dt nowAt
                  (fst (updatePlayer dateNow dt (withClock c e))) Hs) as Hu.
    destruct (updatePlayer dateNow dt (withClock c e)) as [e1 cb1].
    cbn [fst] in Hu.
    destruct (updateBullets dt nowAt e1) as [e2 cb2]. exact Hu.
Qed.

End Sync.

(** The scene and the two maps stay in step.  In the engine the
    constructor builds, and after every sequence of key, mouse, snapshot
    and frame events from there, each identifier has at most one entry in
    [this.players] and in [this.bullets], and the scene holds exactly one
    mesh and one name tag per entry of [this.players] and one bullet mesh
    per entry of [this.bullets]: no handle is lost from the scene and none
    is left behind. *)
Theorem scene_matches_maps :
  forall (M : MathLib),
    synced newEngine /\
    (forall e inputs, synced e -> synced (fst (run e inputs))).
Proof.
  intros M. split.
  - intros id. repeat split; cbn; auto.
  - intros e inputs Hs id. specialize (Hs id). revert e Hs.
    induction inputs as [| i inputs IH]; intros e Hs; [exact Hs |].
    cbn [run]. pose proof (step_sync id e i Hs) as H1.
    destruct (step e i) as [e1 cb1]. specialize (IH e1 H1).
    destruct (run e1 inputs) as [e2 cb2]. exact IH.
Qed.

Lemma scene_matches_maps_witness :
  synced newEngine /\
  synced (fst (run (H := Approx.math) newEngine
                   [Snapshot (Some withP1); Snapshot (Some withoutP1)])).
Proof.
  pose proof (scene_matches_maps Approx.math) as [H0 Hrun].
  split; [exact H0 | exact (Hrun newEngine _ H0)].
Defined.

End SceneProps.

(* ===================================================================== *)
(** ** Further properties of the authority *)
(* ===================================================================== *)

Module GameProps.

Import JS JSFacts Authority Scenarios Spec AuthorityProps.
Local Open Scope Q_scope.

(** *** [cleanupOldBullets] *)

Lemma stale_spec now b :
  stale now b = false <-> (now - Schema.timestamp b <= 5000)%Z.
Proof. unfold stale. rewrite Z.ltb_ge. lia. Qed.

Lemma cleanup_lookup now db id b :
  bullets (cleanupOldBullets now db) !! id = Some b <->
  bullets db !! id = Some b /\ (now - Schema.timestamp b <= 5000)%Z.
Proof.
  unfold cleanupOldBullets. cbn [bullets].
  rewrite map_lookup_filter_Some. cbn [snd]. now rewrite stale_spec.
Qed.

(** [cleanupOldBullets] keeps exactly the bullet records whose age, at the
    reading of [Date.now()] it takes, is at most 5000 ms, unchanged, and
    touches neither players nor kills; a hit report for a record it has
    deleted is rejected and changes nothing. *)
Theorem cleanup_keeps_fresh_bullets (now : Z) (db : Db) :
  (forall id b,
      bullets (cleanupOldBullets now db) !! id = Some b <->
      bullets db !! id = Some b /\ (now - Schema.timestamp b <= 5000)%Z) /\
  players (cleanupOldBullets now db) = players db /\
  kills (cleanupOldBullets now db) = kills db /\
  (forall id b later victimId,
      bullets db !! id = Some b -> (5000 < now - Schema.timestamp b)%Z ->
      hitPlayer later id victimId (cleanupOldBullets now db)
      = (cleanupOldBullets now db, None)).
Proof.
  split; [intros id b; apply cleanup_lookup |].
  split; [reflexivity |]. split; [reflexivity |].
  intros id b later victimId Hb Hage. apply hitPlayer_rejected. left.
  destruct (bullets (cleanupOldBullets now db) !! id) as [b' |] eqn:E;
    [| reflexivity].
  apply cleanup_lookup in E as [E Hle]. rewrite Hb in E. injection E as <-.
  lia.
Qed.

Lemma cleanup_keeps_fresh_bullets_witness :
  (bullets db0 !! "b1" = Some shot /\ (5000 < 6000 - Schema.timestamp shot)%Z) /\
  hitPlayer 6001 "b1" "bob" (cleanupOldBullets 6000 db0)
  = (cleanupOldBullets 6000 db0, None).
Proof.
  assert (H1 : bullets db0 !! "b1" = Some shot) by reflexivity.
  assert (H2 : (5000 < 6000 - Schema.timestamp shot)%Z) by (cbn; lia).
  split; [auto |].
  exact (proj2 (proj2 (proj2 (cleanup_keeps_fresh_bullets 6000 db0)))
               "b1" shot 6001%Z "bob" H1 H2).
Defined.

(** The engine and the authority expire a projectile at the same
    threshold: with the same reading of the clock, [updateBullets] finds
    the projectile made from a record too old exactly when
    [cleanupOldBullets] deletes the record. *)
Theorem client_and_authority_expire_alike (now : Z) (dt : Q) (db : Db)
        (id : string) (bl : Schema.Bullet) :
  bullets db !! id = Some bl ->
  (bullets (cleanupOldBullets now db) !! id = None <->
   GameEngine.tooOld now
     (GameEngine.moveBullet dt (GameEngine.spawnBullet bl)) = true).
Proof.
  intros Hb. unfold GameEngine.tooOld.
  cbn [GameEngine.moveBullet GameEngine.spawnBullet GameEngine.startTime].
  rewrite Z.ltb_lt. split.
  - intros Hn. apply Z.nle_gt. intros Hle.
    assert (Hs : bullets (cleanupOldBullets now db) !! id = Some bl)
      by (apply cleanup_lookup; auto).
    congruence.
  - intros Hage.
    destruct (bullets (cleanupOldBullets now db) !! id) as [b' |] eqn:E;
      [| reflexivity].
    apply cleanup_lookup in E as [E Hle]. rewrite Hb in E. injection E as <-.
    lia.
Qed.

Lemma client_and_authority_expire_alike_witness :
  bullets db0 !! "b1" = Some shot /\
  (bullets (cleanupOldBullets 5000 db0) !! "b1" = None <->
   GameEngine.tooOld 5000
     (GameEngine.moveBullet 0.016 (GameEngine.spawnBullet shot)) = true).
Proof.
  assert (H1 : bullets db0 !! "b1" = Some shot) by reflexivity.
  split; [exact H1 |].
  exact (client_and_authority_expire_alike 5000 0.016 db0 "b1" shot H1).
Defined.

(** *** [shootBullet] *)

(** A missing or dead player cannot shoot: [shootBullet] returns [null]
    and changes nothing.  A living player's shot is stored with speed 100
    and damage 25 under the returned id, and a hit report for it against
    any living player is accepted with damage 25, after which the bullet
    is gone. *)
Theorem shot_then_hit (now later : Z) (newId playerId victimId : string)
        (startPosition direction : THREE.Vector3) (db : Db) :
  ((players db !! playerId = None \/
    exists p, players db !! playerId = Some p /\ Schema.isAlive p = false) ->
   shootBullet now newId playerId startPosition direction db = (db, None)) /\
  (forall shooter victim,
      players db !! playerId = Some shooter -> Schema.isAlive shooter = true ->
      players db !! victimId = Some victim -> Schema.isAlive victim = true ->
      let db1 := fst (shootBullet now newId playerId startPosition direction db) in
      snd (shootBullet now newId playerId startPosition direction db)
      = Some newId /\
      bullets db1 !! newId
      = Some (Schema.mkBullet (Schema.gameId shooter) playerId startPosition
                              direction 100 25 now) /\
      players db1 = players db /\
      snd (hitPlayer later newId victimId db1)
      = Some (mkHitResult true 25
                (le (Math_max 0 (Schema.health victim - 25)) 0)) /\
      bullets (fst (hitPlayer later newId victimId db1)) !! newId = None).
Proof.
  split.
  - unfold shootBullet. intros [-> | (p & -> & ->)]; reflexivity.
  - intros shooter victim Hs Has Hv Hav db1.
    assert (E : shootBullet now newId playerId startPosition direction db =
                (mkDb (players db)
                      (<[newId := Schema.mkBullet (Schema.gameId shooter)
                                    playerId startPosition direction 100 25
                                    now]> (bullets db))
                      (kills db), Some newId)).
    { unfold shootBullet. now rewrite Hs, Has. }
    subst db1. rewrite E. cbn [fst snd players bullets].
    split; [reflexivity |]. split; [apply lookup_insert_eq |].
    split; [reflexivity |].
    set (bl := Schema.mkBullet _ _ _ _ _ _ _).
    set (db1 := mkDb _ _ _).
    assert (Hvalid : valid db1 newId victimId bl victim shooter).
    { unfold valid, db1. cbn [players bullets].
      rewrite lookup_insert_eq. repeat split; assumption. }
    rewrite (hitPlayer_accepted later _ _ _ _ _ _ Hvalid).
    unfold accepted. cbn [fst snd bullets].
    split; [reflexivity | apply lookup_delete_eq].
Qed.

Lemma shot_then_hit_witness :
  (players db0 !! "alice" = Some alice /\ Schema.isAlive alice = true /\
   players db0 !! "bob" = Some bob /\ Schema.isAlive bob = true) /\
  snd (hitPlayer 20 "b2" "bob"
         (fst (shootBullet 10 "b2" "alice" (THREE.mkVector3 0 1.1 0)
                           (THREE.mkVector3 0 0 (-1)) db0)))
  = Some (mkHitResult true 25 (le (Math_max 0 (Schema.health bob - 25)) 0)).
Proof.
  assert (H1 : players db0 !! "alice" = Some alice) by reflexivity.
  assert (H2 : players db0 !! "bob" = Some bob) by reflexivity.
  split; [repeat split; assumption |].
  exact (proj1 (proj2 (proj2 (proj2
           (proj2 (shot_then_hit 10 20 "b2" "alice" "bob"
                     (THREE.mkVector3 0 1.1 0) (THREE.mkVector3 0 0 (-1)) db0)
                  alice bob H1 eq_refl H2 eq_refl))))).
Defined.

(** *** [respawnPlayer] *)

Lemma randomSpawn_in_range random :
  0 <= random < 1 ->
  exists spawn, randomSpawn random = Some spawn /\ In spawn spawnPositions.
Proof.
  intros [H0 H1]. unfold randomSpawn, index.
  set (i := Qfloor _).
  assert (Hi : (0 <= i < 4)%Z).
  { subst i. cbn [List.length spawnPositions Z.of_nat].
    change (inject_Z (Z.of_nat 4)) with 4. split.
    - change 0%Z with (Qfloor 0). apply Qfloor_resp_le. lra.
    - rewrite Zlt_Qlt.
      apply Qle_lt_trans with (random * 4); [apply Qfloor_le |].
      change (inject_Z 4) with 4. lra. }
  destruct (Z.ltb_spec i 0) as [Hneg | _]; [lia |].
  assert (Hc : i = 0%Z \/ i = 1%Z \/ i = 2%Z \/ i = 3%Z) by lia.
  destruct Hc as [-> | [-> | [-> | ->]]]; cbn; eexists; split;
    try reflexivity; auto 6.
Qed.

(** For a value of [Math.random()] in [[0, 1)] and an existing player,
    alive or dead, [respawnPlayer] succeeds: the player has health 100, is
    alive and stands on one of the four spawn points, which lie inside the
    arena the engine clamps to; its kills and deaths, the bullets and the
    kill records are as before. *)
Theorem respawn_restores_player (now : Z) (random : Q) (playerId : string)
        (db : Db) (p : Schema.Player) :
  0 <= random < 1 ->
  players db !! playerId = Some p ->
  exists db' p',
    respawnPlayer now random playerId db = Some db' /\
    players db' !! playerId = Some p' /\
    Schema.health p' = 100 /\ Schema.isAlive p' = true /\
    In (Schema.position p') spawnPositions /\
    (-49 <= THREE.x (Schema.position p') <= 49 /\
     -49 <= THREE.z (Schema.position p') <= 49) /\
    Schema.kills p' = Schema.kills p /\ Schema.deaths p' = Schema.deaths p /\
    bullets db' = bullets db /\ kills db' = kills db.
Proof.
  intros Hr Hp. destruct (randomSpawn_in_range random Hr) as (spawn & Hs & Hin).
  unfold respawnPlayer. rewrite Hs, Hp.
  eexists. exists (patchRespawn now spawn p).
  split; [reflexivity |]. cbn [players bullets kills].
  split; [now rewrite lookup_alter_eq, Hp |].
  cbn [patchRespawn Schema.health Schema.isAlive Schema.position Schema.kills
       Schema.deaths].
  repeat split; try reflexivity; try exact Hin;
    cbn in Hin; destruct Hin as [<- | [<- | [<- | [<- | []]]]]; cbn; lra.
Qed.

Lemma respawn_restores_player_witness :
  (0 <= 0.7 < 1 /\ players db0 !! "bob" = Some bob) /\
  exists db' p',
    respawnPlayer 9 0.7 "bob" db0 = Some db' /\
    players db' !! "bob" = Some p' /\
    Schema.health p' = 100 /\ Schema.isAlive p' = true /\
    In (Schema.position p') spawnPositions /\
    (-49 <= THREE.x (Schema.position p') <= 49 /\
     -49 <= THREE.z (Schema.position p') <= 49) /\
    Schema.kills p' = Schema.kills bob /\ Schema.deaths p' = Schema.deaths bob /\
    bullets db' = bullets db0 /\ kills db' = kills db0.
Proof.
  assert (H1 : 0 <= 0.7 < 1) by lra.
  assert (H2 : players db0 !! "bob" = Some bob) by reflexivity.
  split; [auto |].
  exact (respawn_restores_player 9 0.7 "bob" db0 bob H1 H2).
Defined.

(** *** More on [hitPlayer] *)

Lemma accepted_victim_deaths now bulletId victimId db bullet victim shooter :
  valid db bulletId victimId bullet victim shooter ->
  exists victim',
    players (fst (accepted now bulletId victimId db bullet victim shooter))
      !! victimId = Some victim' /\
    Schema.deaths victim' =
      (if isDead victim bullet then Schema.deaths victim + 1
       else Schema.deaths victim) /\
    Schema.isAlive victim' = negb (isDead victim bullet).
Proof.
  intros (Hb & Hv & Hs & Ha). unfold accepted. cbn [fst players].
  destruct (isDead victim bullet) eqn:Hd.
  - destruct (decide (Schema.playerId bullet = victimId)) as [He | Hne].
    + rewrite He, !lookup_alter_eq, Hv. cbn.
      eexists; split; [reflexivity |]. cbn. now rewrite Hd.
    + rewrite lookup_alter_ne by exact Hne. rewrite lookup_alter_eq, Hv. cbn.
      eexists; split; [reflexivity |]. cbn. now rewrite Hd.
  - rewrite lookup_alter_eq, Hv. cbn.
    eexists; split; [reflexivity |]. cbn. now rewrite Hd.
Qed.

(** An accepted hit adds one death to the victim exactly when it kills and
    leaves the victim alive otherwise; players other than the victim and
    the shooter, and bullets other than the reported one, are not touched.
    The shooter may be the victim: the authority accepts a hit by a
    player's own bullet. *)
Theorem hit_counts_deaths_and_spares_others (now : Z)
        (bulletId victimId : string) (db : Db) (bullet : Schema.Bullet)
        (victim shooter : Schema.Player) :
  valid db bulletId victimId bullet victim shooter ->
  let db' := fst (hitPlayer now bulletId victimId db) in
  (exists victim',
      players db' !! victimId = Some victim' /\
      Schema.deaths victim' =
        (if isDead victim bullet then Schema.deaths victim + 1
         else Schema.deaths victim) /\
      Schema.isAlive victim' = negb (isDead victim bullet)) /\
  (forall other,
      other <> victimId -> other <> Schema.playerId bullet ->
      players db' !! other = players db !! other) /\
  (forall other, other <> bulletId -> bullets db' !! other = bullets db !! other).
Proof.
  intros Hvalid db'. subst db'.
  rewrite (hitPlayer_accepted now _ _ _ _ _ _ Hvalid).
  split; [now apply accepted_victim_deaths |].
  unfold accepted. cbn [fst players bullets]. split.
  - intros other Hv Hs.
    destruct (isDead victim bullet); rewrite !lookup_alter_ne by congruence;
      reflexivity.
  - intros other Hne. now rewrite lookup_delete_ne.
Qed.

Lemma hit_counts_deaths_and_spares_others_witness :
  valid db0 "b1" "bob" shot bob alice /\
  (forall other, other <> "b1" ->
     bullets (fst (hitPlayer 7 "b1" "bob" db0)) !! other = bullets db0 !! other).
Proof.
  split; [exact db0_valid |].
  exact (proj2 (proj2 (hit_counts_deaths_and_spares_others 7 "b1" "bob" db0
                         shot bob alice db0_valid))).
Defined.

(** *** [updatePlayerPosition] *)




(** *** [recentKills] *)

Lemma filter_rev_take_length (gameId : string) (db : Db) :
  (List.length (recentKills gameId db) <= 10)%nat.
Proof. unfold recentKills. rewrite length_take. lia. Qed.

(** The [recentKills] of a snapshot are at most ten kills of that game;
    and the kill recorded by a lethal hit is the first of them in the
    victim's game from then on, followed by the nine most recent earlier
    ones. *)
Theorem recent_kills_newest_first (now : Z) (bulletId victimId : string)
        (db : Db) (bullet : Schema.Bullet) (victim shooter : Schema.Player) :
  valid db bulletId victimId bullet victim shooter ->
  isDead victim bullet = true ->
  let g := Schema.gameId victim in
  let db' := fst (hitPlayer now bulletId victimId db) in
  recentKills g db' =
    killRecord now victimId victim shooter bullet :: take 9 (recentKills g db) /\
  (forall gameId, (List.length (recentKills gameId db') <= 10)%nat) /\
  (forall gameId k, In k (recentKills gameId db') -> Schema.kgameId k = gameId).
Proof.
  intros Hvalid Hd g db'. subst db'.
  rewrite (hitPlayer_accepted now _ _ _ _ _ _ Hvalid).
  unfold accepted. rewrite Hd. cbn [fst]. split; [| split].
  - unfold recentKills. cbn [kills].
    rewrite List.filter_app. cbn [List.filter killRecord Schema.kgameId].
    fold g. rewrite String.eqb_refl, rev_app_distr. cbn [rev app].
    cbn [take]. f_equal. rewrite take_take. reflexivity.
  - intros gameId. apply filter_rev_take_length.
  - intros gameId k Hin. unfold recentKills in Hin.
    apply list_elem_of_In, elem_of_take in Hin as (i & Hin & _).
    apply list_elem_of_lookup_2, list_elem_of_In, in_rev, filter_In in Hin
      as [_ Hk].
    now apply String.eqb_eq in Hk.
Qed.

Lemma recent_kills_newest_first_witness :
  (valid db0 "b1" "bob" shot bob alice /\ isDead bob shot = true) /\
  recentKills "g1" (fst (hitPlayer 7 "b1" "bob" db0))
  = killRecord 7 "bob" bob alice shot :: take 9 (recentKills "g1" db0).
Proof.
  assert (H2 : isDead bob shot = true) by reflexivity.
  split; [split; [exact db0_valid | exact H2] |].
  exact (proj1 (recent_kills_newest_first 7 "b1" "bob" db0 shot bob alice
                  db0_valid H2)).
Defined.

(** *** [createGame] and [joinGame] *)



(** A game made by [createGame] is listed by [listGames] with no player
    and status ["waiting"]; it takes a first player exactly when its
    [maxPlayers] is positive, and with [maxPlayers <= 0] nobody can ever
    join it. *)
Theorem created_game_is_open (now : Z) (gameId playerId : string)
        (userId existing : option string) (name mapName username : string)
        (maxPlayers : Q) (st : Store) :
  let st1 := fst (createGame gameId name maxPlayers mapName st) in
  snd (createGame gameId name maxPlayers mapName st) = gameId /\
  listGames st1 !! gameId
  = Some (Schema.mkGame name maxPlayers 0 Schema.waiting mapName) /\
  tables st1 = tables st /\
  (maxPlayers <= 0 ->
   joinGame now playerId userId existing gameId username st1
   = (st1, Throws "Game is full")) /\
  (0 < maxPlayers ->
   snd (joinGame now playerId userId None gameId username st1)
   = Returns playerId).
Proof.
  intros st1. subst st1. unfold createGame. cbn [fst snd tables].
  split; [reflexivity |]. split; [| split; [reflexivity |]].
  - unfold listGames. cbn [games]. apply map_lookup_filter_Some.
    split; [apply lookup_insert_eq | cbn; discriminate].
  - split; intros Hm; unfold joinGame; cbn [games];
      rewrite lookup_insert_eq; cbn [Schema.maxPlayers Schema.currentPlayers].
    + apply le_spec in Hm. now rewrite Hm.
    + apply le_false in Hm. now rewrite Hm.
Qed.

Lemma created_game_is_open_witness :
  0 < 8 /\
  snd (joinGame 5 "p1" None None "g7" "ann"
         (fst (createGame "g7" "duel" 8 "arena" (mkStore ∅ db0))))
  = Returns "p1".
Proof.
  assert (H1 : 0 < 8) by lra.
  split; [exact H1 |].
  exact (proj2 (proj2 (proj2 (proj2
           (created_game_is_open 5 "g7" "p1" None None "duel" "arena" "ann" 8
                                 (mkStore ∅ db0))))) H1).
Defined.

End GameProps.


(* ===================================================================== *)
(** ** Where the client's hit reports come from *)
(* ===================================================================== *)

Module HitProps.

Import JS GameEngine Scenarios Spec JSFacts PlayerProps BulletProps SceneProps.
Local Open Scope Q_scope.

Lemma mapGet_moved k (f : Bullet -> Bullet) (m : list (string * Bullet)) :
  mapGet k (List.map (fun kv => (fst kv, f (snd kv))) m) = f <$> mapGet k m.
Proof.
  induction m as [| [k' b] m IH]; [reflexivity |].
  cbn [List.map fst snd]. rewrite !mapGet_cons.
  destruct (String.eqb k' k); [reflexivity | exact IH].
Qed.

Lemma In_mapGet {V : Type} k (v : V) (m : list (string * V)) :
  In (k, v) m -> mapGet k m <> None.
Proof.
  intros Hin Hn. apply mapGet_None_notin in Hn. apply Hn.
  apply (in_map fst) in Hin. exact Hin.
Qed.

Section Origin.

Context `{MathLib}.

Lemma updateBullets_fields dt nowAt e :
  currentPlayerId (fst (updateBullets dt nowAt e)) = currentPlayerId e /\
  players (fst (updateBullets dt nowAt e)) = players e.
Proof.
  unfold updateBullets.
  destruct (forEachBullet dt nowAt _ _ _) as [[bs rm] cbs].
  destruct (fold_left removeBullet rm (scene e, bs)) as [sc bs'].
  split; reflexivity.
Qed.

Lemma updateBullets_origin dt nowAt e b :
  mapGet b (bullets (fst (updateBullets dt nowAt e))) <> None ->
  mapGet b (bullets e) <> None.
Proof.
  rewrite updateBullets_get. destruct (existsb _ _); [congruence |].
  rewrite mapGet_moved. destruct (mapGet b (bullets e)); [discriminate |].
  cbn. congruence.
Qed.

Lemma animate_hits perfNow dateNow nowAt e b v :
  In (onHit b v) (snd (animate perfNow dateNow nowAt e)) ->
  v <> currentPlayerId e /\ mapGet v (players e) <> None /\
  mapGet b (bullets e) <> None.
Proof.
  unfold animate. destruct (isRunning e); cbn [negb]; [| intros []].
  destruct (THREE.getDelta perfNow (clock e)) as [dt c].
  pose proof (hit_In dt nowAt
                (fst (updatePlayer dateNow dt (withClock c e))) b v) as Hh.
  pose proof (updatePlayer_callbacks dateNow dt (withClock c e)) as Hcb.
  assert (Hf : currentPlayerId (fst (updatePlayer dateNow dt (withClock c e)))
               = currentPlayerId e /\
               players (fst (updatePlayer dateNow dt (withClock c e)))
               = players e /\
               bullets (fst (updatePlayer dateNow dt (withClock c e)))
               = bullets e) by (repeat split; reflexivity).
  destruct (updatePlayer dateNow dt (withClock c e)) as [e1 cb1].
  cbn [fst snd] in *. destruct Hf as (Hc & Hp & Hb).
  destruct (updateBullets dt nowAt e1) as [e2 cb2]. cbn [fst snd] in *.
  intros Hin. apply in_app_or in Hin as [Hin | Hin].
  - exfalso. revert Hin. rewrite Hcb. destruct (reportDue _ _); cbn;
      [intros [Heq | []]; discriminate | tauto].
  - apply Hh in Hin as (b0 & Hb0 & Hv).
    apply victims_spec in Hv as (po & Hpo & Hne & _).
    rewrite Hc in Hne. rewrite Hp in Hpo. rewrite Hb in Hb0.
    eauto using In_mapGet.
Qed.

Lemma step_hits e i b v :
  In (onHit b v) (snd (step e i)) ->
  v <> currentPlayerId e /\ mapGet v (players e) <> None /\
  mapGet b (bullets e) <> None.
Proof.
  destruct i; cbn [step snd]; try (intros []). apply animate_hits.
Qed.

Lemma step_origin e i :
  currentPlayerId (fst (step e i)) = currentPlayerId e /\
  (forall v, mapGet v (players (fst (step e i))) <> None ->
             mapGet v (players e) <> None \/ listsPlayer v i) /\
  (forall b, mapGet b (bullets (fst (step e i))) <> None ->
             mapGet b (bullets e) <> None \/ listsBullet b i).
Proof.
  destruct i; cbn [step fst].
  - repeat split; auto.
  - repeat split; auto.
  - unfold onMouseMove. destruct locked; repeat split; auto.
  - destruct gameState as [gs |]; [| repeat split; auto].
    split; [reflexivity |]. split.
    + intros v. unfold updateGameState. cbn [players listsPlayer].
      rewrite dropUnlisted_get.
      destruct (listed (Schema.gs_players gs) v); [now right | congruence].
    + intros b. rewrite updateGameState_bullets_get. cbn [listsBullet].
      destruct (mapGet b (bullets e)); [left; discriminate |].
      destruct (firstListed b _); [right; discriminate | cbn; congruence].
  - unfold animate. destruct (isRunning e); cbn [negb fst];
      [| repeat split; auto].
    destruct (THREE.getDelta perfNow (clock e)) as [dt c].
    pose proof (updateBullets_fields dt nowAt
                  (fst (updatePlayer dateNow dt (withClock c e)))) as [Hc Hp].
    pose proof (updateBullets_origin dt nowAt
                  (fst (updatePlayer dateNow dt (withClock c e)))) as Hb.
    assert (Hf : currentPlayerId (fst (updatePlayer dateNow dt (withClock c e)))
                 = currentPlayerId e /\
                 players (fst (updatePlayer dateNow dt (withClock c e)))
                 = players e /\
                 bullets (fst (updatePlayer dateNow dt (withClock c e)))
                 = bullets e) by (repeat split; reflexivity).
    destruct (updatePlayer dateNow dt (withClock c e)) as [e1 cb1].
    cbn [fst] in *. destruct Hf as (Hc1 & Hp1 & Hb1).
    destruct (updateBullets dt nowAt e1) as [e2 cb2]. cbn [fst] in *.
    split; [congruence |]. split.
    + intros v Hv. left. congruence.
    + intros b Hg. left. rewrite <- Hb1. now apply Hb.
Qed.

End Origin.

(** The client reports hits only between bullets and remote players that
    the authority has told it about.  Whatever key, mouse, snapshot and
    frame events an engine receives, every [onHit(bulletId, victimId)] it
    makes names a victim other than the current player, and both the
    victim and the bullet were in the engine's maps at the beginning or
    were listed by a snapshot among the events.  ([shoot] reports the shot
    to the authority and writes neither map.) *)
Theorem hits_name_listed_remote_players (M : MathLib) (e : Engine)
        (inputs : list Input) (bulletId victimId : string) :
  In (onHit bulletId victimId) (snd (run e inputs)) ->
  victimId <> currentPlayerId e /\
  (mapGet victimId (players e) <> None
   \/ Exists (listsPlayer victimId) inputs) /\
  (mapGet bulletId (bullets e) <> None
   \/ Exists (listsBullet bulletId) inputs).
Proof.
  revert e. induction inputs as [| i inputs IH]; intros e; [intros [] |].
  cbn [run].
  pose proof (step_hits e i bulletId victimId) as Hh.
  pose proof (step_origin e i) as (Hc & Hp & Hb).
  destruct (step e i) as [e1 cb1]. specialize (IH e1).
  destruct (run e1 inputs) as [e2 cb2]. cbn [fst snd] in *.
  intros Hin. apply in_app_or in Hin as [Hin | Hin].
  - destruct (Hh Hin) as (Hne & Hv & Hbl). auto.
  - destruct (IH Hin) as (Hne & Hv & Hbl). rewrite Hc in Hne.
    split; [exact Hne |]. split.
    + destruct Hv as [Hv | Hv]; [| right; now apply Exists_cons_tl].
      destruct (Hp _ Hv) as [Hv' | Hv']; [now left |].
      right. now apply Exists_cons_hd.
    + destruct Hbl as [Hbl | Hbl]; [| right; now apply Exists_cons_tl].
      destruct (Hb _ Hbl) as [Hb' | Hb']; [now left |].
      right. now apply Exists_cons_hd.
Qed.

Lemma hits_name_listed_remote_players_witness :
  In (onHit "b1" "p2")
     (snd (run (H := Approx.math) arena
               [Snapshot
                  (Some (Schema.mkGameState
                           (Some [remote "p1" "bob" (THREE.mkVector3 0 1.9 (-1));
                                  remote "p2" "carol"
                                         (THREE.mkVector3 0 1.9 (-1))])
                           (Some [round])));
                Frame 10 10 (fun _ => 10%Z)])) /\
  "p2" <> currentPlayerId arena.
Proof.
  assert (H1 : In (onHit "b1" "p2")
     (snd (run (H := Approx.math) arena
               [Snapshot
                  (Some (Schema.mkGameState
                           (Some [remote "p1" "bob" (THREE.mkVector3 0 1.9 (-1));
                                  remote "p2" "carol"
                                         (THREE.mkVector3 0 1.9 (-1))])
                           (Some [round])));
                Frame 10 10 (fun _ => 10%Z)])))
    by (vm_compute; auto).
  split; [exact H1 |].
  exact (proj1 (hits_name_listed_remote_players Approx.math arena _ "b1" "p2"
                  H1)).
Defined.

End HitProps.


(* ===================================================================== *)
(** ** The keyboard *)
(* ===================================================================== *)

Module InputProps.

Import JS GameEngine Scenarios Spec MotionProps.
Local Open Scope Q_scope.

Lemma setControl_spec code b c :
  setControl code b c =
    mkControls (if String.eqb code "KeyW" then b else forward c)
               (if String.eqb code "KeyS" then b else backward c)
               (if String.eqb code "KeyA" then b else left c)
               (if String.eqb code "KeyD" then b else right c)
               (if String.eqb code "Space" then b else jump c)
               (if String.eqb code "ShiftLeft" then b else sprint c)
               (if String.eqb code "ControlLeft" then b else crouch c).
Proof.
  unfold setControl.
  destruct (String.eqb code "KeyW") eqn:E1;
    [apply String.eqb_eq in E1 as ->; reflexivity |].
  destruct (String.eqb code "KeyS") eqn:E2;
    [apply String.eqb_eq in E2 as ->; reflexivity |].
  destruct (String.eqb code "KeyA") eqn:E3;
    [apply String.eqb_eq in E3 as ->; reflexivity |].
  destruct (String.eqb code "KeyD") eqn:E4;
    [apply String.eqb_eq in E4 as ->; reflexivity |].
  destruct (String.eqb code "Space") eqn:E5;
    [apply String.eqb_eq in E5 as ->; reflexivity |].
  destruct (String.eqb code "ShiftLeft") eqn:E6;
    [apply String.eqb_eq in E6 as ->; reflexivity |].
  destruct (String.eqb code "ControlLeft") eqn:E7;
    [apply String.eqb_eq in E7 as ->; reflexivity |].
  destruct c; reflexivity.
Qed.

Lemma step_controls `{MathLib} e i :
  controls (fst (step e i)) =
    match i with
    | KeyDown code => setControl code true (controls e)
    | KeyUp code => setControl code false (controls e)
    | _ => controls e
    end.
Proof.
  destruct i; cbn [step fst]; try reflexivity.
  - unfold onMouseMove. destruct locked; reflexivity.
  - destruct gameState; reflexivity.
  - apply animate_controls.
Qed.

(** The controls follow the keyboard and nothing else.  After any
    sequence of key, mouse, snapshot and frame events each of the seven
    controls is what the last key event with its code made it ([KeyW],
    [KeyS], [KeyA], [KeyD], [Space], [ShiftLeft], [ControlLeft]: down sets,
    up clears), and what it was before if there was none: keys with other
    codes, mouse moves, snapshots and frames leave the controls alone, and
    no key changes the control of another. *)
Theorem controls_follow_keys (M : MathLib) (e : Engine)
        (inputs : list Input) :
  controls (fst (run e inputs)) =
    mkControls (held "KeyW" (forward (controls e)) inputs)
               (held "KeyS" (backward (controls e)) inputs)
               (held "KeyA" (left (controls e)) inputs)
               (held "KeyD" (right (controls e)) inputs)
               (held "Space" (jump (controls e)) inputs)
               (held "ShiftLeft" (sprint (controls e)) inputs)
               (held "ControlLeft" (crouch (controls e)) inputs).
Proof.
  revert e. induction inputs as [| i inputs IH]; intros e.
  - cbn. destruct (controls e); reflexivity.
  - cbn [run]. pose proof (step_controls e i) as Hs.
    destruct (step e i) as [e1 cb1]. specialize (IH e1).
    destruct (run e1 inputs) as [e2 cb2]. cbn [fst] in *.
    rewrite IH, Hs. destruct i; cbn [held]; try reflexivity;
      rewrite setControl_spec; reflexivity.
Qed.

End InputProps.
